(** * UDSP API Gateway: admission pipeline and circuit breaker

    A shallow embedding of the gateway's request pipeline
    (services/api-gateway): the circuit-breaker middleware
    (middleware/circuit-breaker.ts), the JWT authentication middleware
    (middleware/auth.ts), the request validator
    (middleware/request-validator.ts) and the middleware stack assembled
    by the [APIGateway] class; beside them the loading and validation of
    the configuration (utils/config.ts) and the handler of the static file
    server (src/index.js).

    Data. JavaScript numbers that the code only uses as integer counters,
    percentages and millisecond timestamps are [Z] (the configuration
    values are the results of [parseInt]); the two ratios [recordFailure]
    compares are rationals: for integers of magnitude below 2^52 the
    double-precision quotients [f / 10] and [p / 100] are ordered as the
    exact ones. The process-wide [Map] of
    circuits is a [gmap] threaded through every operation; the mutation of
    a circuit object obtained from the map is an insertion under its key.

    Effects. A middleware is a function from the request, the response and
    the registry to their new values and a [Flow]: whether it called
    [next()], ended the request, threw, or forwarded the request. The
    closure [circuitBreaker] installs around [res.send] is a [SendHook]
    kept in the response; [res_send] runs the installed hooks. Clock
    readings, the random suffix, the rate limiter's verdict and
    [jwt.verify] are inputs ([Env]).

    Libraries. Three facts about the libraries the code calls are part of
    the model. Express: inside [app.use(mount, ...)] the mount point is
    removed from [req.url], from which [req.path] is computed ("when called
    from a middleware, the mount point is not included in req.path"), and
    [res.json] sends through [this.send]. jsonwebtoken: [TokenExpiredError]
    is built on [JsonWebTokenError]'s prototype, and [jwt.verify] checks
    format and signature before the expiry. express-rate-limit: over the
    ceiling the limiter answers 429 and does not call [next()]. *)

From Stdlib Require Import ZArith QArith String Ascii List Bool Lia.
From Stdlib Require Import DecimalString.
From stdpp Require Import gmap strings.

Local Open Scope string_scope.
Local Open Scope Z_scope.

(** ** JavaScript string helpers *)

Module Js.

(** [s.startsWith(p)] *)
Definition startsWith (p s : string) : bool := String.prefix p s.

(** [s.substring(n)]: the suffix of [s] from index [n], empty when [s] is
    shorter. *)
Fixpoint substring_from (n : nat) (s : string) : string :=
  match n, s with
  | O, _ => s
  | S n', String _ s' => substring_from n' s'
  | S _, EmptyString => EmptyString
  end.

(** Truthiness of a string-valued property that may be [undefined]:
    [undefined] and the empty string are falsy. *)
Definition truthy (o : option string) : bool :=
  match o with
  | Some s => negb (String.eqb s "")
  | None => false
  end.

(** The class [\w] of a regular expression without the unicode flag:
    [A-Za-z0-9_]. *)
Definition is_word_char (c : ascii) : bool :=
  let n := nat_of_ascii c in
  ((48 <=? n)%nat && (n <=? 57)%nat)
  || ((65 <=? n)%nat && (n <=? 90)%nat)
  || ((97 <=? n)%nat && (n <=? 122)%nat)
  || (n =? 95)%nat.

(** The greedy match of [\w*] at the start of a string. *)
Fixpoint take_word (s : string) : string :=
  match s with
  | String c r => if is_word_char c then String c (take_word r) else EmptyString
  | EmptyString => EmptyString
  end.

(** ASCII lower-casing, for the case-insensitive route matching of
    Express. *)
Definition lower_ascii (c : ascii) : ascii :=
  let n := nat_of_ascii c in
  if ((65 <=? n)%nat && (n <=? 90)%nat) then ascii_of_nat (n + 32) else c.

Fixpoint lower (s : string) : string :=
  match s with
  | String c r => String (lower_ascii c) (lower r)
  | EmptyString => EmptyString
  end.

(** Decimal rendering of an integer inside a template literal. *)
Definition show_int (z : Z) : string := NilZero.string_of_int (Z.to_int z).

End Js.

(** ** Circuit state (middleware/circuit-breaker.ts) *)

Inductive Phase : Type := CLOSED | OPEN | HALF_OPEN.

#[global] Instance Phase_eq_dec : EqDecision Phase.
Proof. solve_decision. Defined.

Record CircuitState : Type := mkCircuit {
  failures : Z;
  lastFailureTime : Z;
  state : Phase
}.

#[global] Instance CircuitState_eq_dec : EqDecision CircuitState.
Proof. solve_decision. Defined.

(** The [circuitBreaker] block of the configuration (utils/config.ts):
    three integers read with [parseInt]. *)
Record BreakerConfig : Type := mkBreakerConfig {
  timeout : Z;
  errorThresholdPercentage : Z;
  resetTimeoutMs : Z
}.

(** The values [loadConfig] uses when the environment sets none. *)
Definition defaultBreakerConfig : BreakerConfig :=
  {| timeout := 5000; errorThresholdPercentage := 50; resetTimeoutMs := 60000 |}.

Definition set_state (p : Phase) (c : CircuitState) : CircuitState :=
  {| failures := failures c; lastFailureTime := lastFailureTime c; state := p |}.

Definition set_failures (f : Z) (c : CircuitState) : CircuitState :=
  {| failures := f; lastFailureTime := lastFailureTime c; state := state c |}.

Definition set_lastFailureTime (t : Z) (c : CircuitState) : CircuitState :=
  {| failures := failures c; lastFailureTime := t; state := state c |}.

Definition newCircuit : CircuitState :=
  {| failures := 0; lastFailureTime := 0; state := CLOSED |}.

(** [getServiceFromPath]: the first capture of [/^\/v1\/(\w+)/]. *)
Definition getServiceFromPath (path : string) : option string :=
  if Js.startsWith "/v1/" path then
    let w := Js.take_word (Js.substring_from 4 path) in
    if String.eqb w "" then None else Some w
  else None.

(** [getOrCreateCircuit]: the map after the lazy creation, and the circuit
    stored under the name. *)
Definition getOrCreateCircuit (serviceName : string)
    (circuits : gmap string CircuitState) : gmap string CircuitState * CircuitState :=
  match circuits !! serviceName with
  | Some c => (circuits, c)
  | None => (<[serviceName := newCircuit]> circuits, newCircuit)
  end.

(** The circuit of a service as the three operations see it: the stored
    one, or the one [getOrCreateCircuit] creates. *)
Definition circuitOf (serviceName : string) (circuits : gmap string CircuitState)
    : CircuitState :=
  snd (getOrCreateCircuit serviceName circuits).

(** [circuit.failures / 10]. *)
Definition failureRate (c : CircuitState) : Q := (failures c # 10)%Q.

(** [config.circuitBreaker.errorThresholdPercentage / 100]. *)
Definition thresholdRate (cfg : BreakerConfig) : Q :=
  (errorThresholdPercentage cfg # 100)%Q.

(** The update [recordFailure] applies to the circuit object. *)
Definition failed (cfg : BreakerConfig) (now : Z) (c : CircuitState) : CircuitState :=
  let c := set_failures (failures c + 1) c in
  let c := set_lastFailureTime now c in
  if Qle_bool (thresholdRate cfg) (failureRate c) then set_state OPEN c else c.

(** The update [recordSuccess] applies to the circuit object. *)
Definition succeeded (c : CircuitState) : CircuitState :=
  match state c with
  | HALF_OPEN => set_failures 0 (set_state CLOSED c)
  | _ => set_failures (Z.max 0 (failures c - 1)) c
  end.

Definition recordFailure (cfg : BreakerConfig) (now : Z) (serviceName : string)
    (circuits : gmap string CircuitState) : gmap string CircuitState :=
  let '(circuits, circuit) := getOrCreateCircuit serviceName circuits in
  <[serviceName := failed cfg now circuit]> circuits.

Definition recordSuccess (serviceName : string)
    (circuits : gmap string CircuitState) : gmap string CircuitState :=
  let '(circuits, circuit) := getOrCreateCircuit serviceName circuits in
  <[serviceName := succeeded circuit]> circuits.

(** ** Requests, responses and middleware (Express) *)

(** [req.user], attached by [jwtAuth]. *)
Record User : Type := mkUser {
  id : string;
  email : string;
  tenantId : string;
  roles : list string;
  tier : option string;
  permissions : list string
}.

(** The part of an inbound request the middleware reads and writes.
    [url] is the path Express hands to the running middleware: inside
    [app.use(mount, ...)] the mount point is removed from it, and [req.path]
    is computed from it; [originalUrl] keeps the full path. *)
Record Request : Type := mkRequest {
  method : string;
  originalUrl : string;
  url : string;
  authorization : option string;
  x_request_id : option string;
  user : option User;
  req_tenantId : option string
}.

Definition path (req : Request) : string := url req.

(** Bodies the gateway produces itself. *)
Inductive Body : Type :=
  | Envelope (error message : string) (timestamp : option string)
  | ApiInfo (timestamp : string)
  | HealthReply.

(** A wrapper installed around [res.send]. The only one in the gateway is
    the closure [circuitBreaker] installs, which captures [serviceName]. *)
Inductive SendHook : Type :=
  | TrackCircuit (serviceName : string).

(** The response object: the status code, the [X-Request-ID] header, the
    body once one is sent, and the wrappers around [res.send], the most
    recently installed first. *)
Record Response : Type := mkResponse {
  statusCode : Z;
  res_x_request_id : option string;
  body : option Body;
  sendHooks : list SendHook
}.

Definition freshResponse : Response :=
  {| statusCode := 200; res_x_request_id := None; body := None; sendHooks := [] |}.

(** The outbound request the proxy builds: the target base URL and the
    headers [onProxyReq] sets. *)
Record ProxyReq : Type := mkProxyReq {
  target : string;
  proxy_x_request_id : string;
  proxy_x_user_id : option string;
  proxy_x_tenant_id : option string
}.

(** What a middleware call leaves behind: it called [next()], it ended the
    request with a response of the gateway's own, it threw, or (the proxy)
    it forwarded the request downstream. *)
Inductive Flow : Type :=
  | Next
  | Ended
  | Threw
  | Forwarded (proxyReq : ProxyReq).

Record Ctx : Type := mkCtx {
  req : Request;
  res : Response;
  circuits : gmap string CircuitState
}.

Definition set_req (r : Request) (ctx : Ctx) : Ctx :=
  {| req := r; res := res ctx; circuits := circuits ctx |}.

Definition set_res (r : Response) (ctx : Ctx) : Ctx :=
  {| req := req ctx; res := r; circuits := circuits ctx |}.

Definition set_circuits (cs : gmap string CircuitState) (ctx : Ctx) : Ctx :=
  {| req := req ctx; res := res ctx; circuits := cs |}.

(** One wrapper of [res.send] running (circuit-breaker.ts, lines 45-52):
    [res.statusCode >= 500] records a failure, anything else a success. *)
Definition runHook (cfg : BreakerConfig) (now : Z) (status : Z) (h : SendHook)
    (cs : gmap string CircuitState) : gmap string CircuitState :=
  match h with
  | TrackCircuit serviceName =>
      if 500 <=? status then recordFailure cfg now serviceName cs
      else recordSuccess serviceName cs
  end.

(** [res.send(data)]: the wrappers run from the outermost inwards, then the
    body is sent. [now] is the clock when the response is sent. *)
Definition res_send (cfg : BreakerConfig) (now : Z) (data : Body) (ctx : Ctx) : Ctx :=
  let cs := fold_left (fun cs h => runHook cfg now (statusCode (res ctx)) h cs)
                      (sendHooks (res ctx)) (circuits ctx) in
  {| req := req ctx;
     res := {| statusCode := statusCode (res ctx);
               res_x_request_id := res_x_request_id (res ctx);
               body := Some data;
               sendHooks := sendHooks (res ctx) |};
     circuits := cs |}.

(** [res.status(code)]. *)
Definition res_status (code : Z) (ctx : Ctx) : Ctx :=
  set_res {| statusCode := code;
             res_x_request_id := res_x_request_id (res ctx);
             body := body (res ctx);
             sendHooks := sendHooks (res ctx) |} ctx.

(** [res.json(obj)] serialises and calls [this.send]. *)
Definition res_json (cfg : BreakerConfig) (now : Z) (data : Body) (ctx : Ctx) : Ctx :=
  res_send cfg now data ctx.

(** [res.setHeader('X-Request-ID', v)]. *)
Definition res_set_request_id (v : string) (ctx : Ctx) : Ctx :=
  set_res {| statusCode := statusCode (res ctx);
             res_x_request_id := Some v;
             body := body (res ctx);
             sendHooks := sendHooks (res ctx) |} ctx.

(** [res.send = function (data) { ... originalSend.call(this, data) }]. *)
Definition wrap_send (h : SendHook) (ctx : Ctx) : Ctx :=
  set_res {| statusCode := statusCode (res ctx);
             res_x_request_id := res_x_request_id (res ctx);
             body := body (res ctx);
             sendHooks := h :: sendHooks (res ctx) |} ctx.

(** ** The circuit-breaker middleware *)

(** [circuitBreaker(req, res, next)]. [now] is the [Date.now()] of line 28,
    [stamp] the [new Date().toISOString()] of the rejection envelope and
    [tsend] the clock when that envelope is sent. *)
Definition circuitBreaker (cfg : BreakerConfig) (now : Z) (stamp : string) (tsend : Z)
    (ctx : Ctx) : Ctx * Flow :=
  match getServiceFromPath (path (req ctx)) with
  | None => (ctx, Next)
  | Some serviceName =>
      let '(cs, circuit) := getOrCreateCircuit serviceName (circuits ctx) in
      let ctx := set_circuits cs ctx in
      match state circuit with
      | OPEN =>
          let timeSinceLastFailure := now - lastFailureTime circuit in
          if timeSinceLastFailure <? resetTimeoutMs cfg then
            (res_json cfg tsend
               (Envelope "Service Unavailable" "Circuit breaker is OPEN" (Some stamp))
               (res_status 503 ctx), Ended)
          else
            let ctx := set_circuits (<[serviceName := set_state HALF_OPEN circuit]> cs) ctx in
            (wrap_send (TrackCircuit serviceName) ctx, Next)
      | _ => (wrap_send (TrackCircuit serviceName) ctx, Next)
      end
  end.

(** ** JWT authentication (middleware/auth.ts) *)

(** The decoded payload. A claim the token does not carry is [None]. *)
Record JWTPayload : Type := mkPayload {
  sub : option string;
  p_email : option string;
  p_tenantId : option string;
  p_roles : option (list string);
  p_tier : option string;
  p_permissions : option (list string);
  iat : Z;
  exp : Z
}.

(** The classes of what [jwt.verify] throws. In the jsonwebtoken package
    [TokenExpiredError] and [NotBeforeError] are built on
    [JsonWebTokenError]'s prototype, so both are instances of it;
    [OtherError] is any error outside the package. *)
Inductive ErrorClass : Type :=
  | JsonWebTokenError
  | TokenExpiredError
  | NotBeforeError
  | OtherError.

Definition instanceof_JsonWebTokenError (e : ErrorClass) : bool :=
  match e with
  | JsonWebTokenError | TokenExpiredError | NotBeforeError => true
  | OtherError => false
  end.

Definition instanceof_TokenExpiredError (e : ErrorClass) : bool :=
  match e with
  | TokenExpiredError => true
  | _ => false
  end.

Inductive VerifyResult : Type :=
  | Verified (decoded : JWTPayload)
  | Throws (error : ErrorClass).

(** [res.status(code).json({error, message, timestamp})]. *)
Definition reject (cfg : BreakerConfig) (tsend : Z) (code : Z)
    (error message stamp : string) (ctx : Ctx) : Ctx :=
  res_json cfg tsend (Envelope error message (Some stamp)) (res_status code ctx).

Definition set_user (u : User) (ctx : Ctx) : Ctx :=
  set_req {| method := method (req ctx);
             originalUrl := originalUrl (req ctx);
             url := url (req ctx);
             authorization := authorization (req ctx);
             x_request_id := x_request_id (req ctx);
             user := Some u;
             req_tenantId := Some (tenantId u) |} ctx.

(** The token of an [Authorization] header value: what follows [Bearer ] or
    [Service ], and nothing for any other scheme (auth.ts, lines 51-63). *)
Definition tokenOf (authHeader : string) : option string :=
  if Js.startsWith "Bearer " authHeader then Some (Js.substring_from 7 authHeader)
  else if Js.startsWith "Service " authHeader then Some (Js.substring_from 8 authHeader)
  else None.

(** [jwtAuth(req, res, next)]. [verify token] is
    [jwt.verify(token, config.jwt.secret)]. *)
Definition jwtAuth (cfg : BreakerConfig) (verify : string -> VerifyResult)
    (stamp : string) (tsend : Z) (ctx : Ctx) : Ctx * Flow :=
  let authHeader := authorization (req ctx) in
  if negb (Js.truthy authHeader) then
    (reject cfg tsend 401 "Unauthorized" "Authorization header is required" stamp ctx,
     Ended)
  else
    match tokenOf (default "" authHeader) with
    | None =>
        (reject cfg tsend 401 "Unauthorized" "Invalid authorization header format"
                stamp ctx, Ended)
    | Some token =>
        match verify token with
        | Verified decoded =>
            if negb (Js.truthy (sub decoded)) || negb (Js.truthy (p_tenantId decoded)) then
              (reject cfg tsend 401 "Unauthorized" "Invalid token payload" stamp ctx,
               Ended)
            else
              (set_user {| id := default "" (sub decoded);
                           email := if Js.truthy (p_email decoded)
                                    then default "" (p_email decoded)
                                    else "unknown@udsp.io";
                           tenantId := default "" (p_tenantId decoded);
                           roles := default [] (p_roles decoded);
                           tier := p_tier decoded;
                           permissions := default [] (p_permissions decoded) |} ctx,
               Next)
        | Throws error =>
            if instanceof_JsonWebTokenError error then
              (reject cfg tsend 401 "Unauthorized" "Invalid token" stamp ctx, Ended)
            else if instanceof_TokenExpiredError error then
              (reject cfg tsend 401 "Unauthorized" "Token expired" stamp ctx, Ended)
            else
              (reject cfg tsend 500 "Internal Server Error"
                      "Authentication service error" stamp ctx, Ended)
        end
    end.

(** [optionalAuth(req, res, next)]: with a header it awaits [jwtAuth] with
    the same [req], [res] and [next], and calls [next()] itself only when
    that call throws. *)
Definition optionalAuth (cfg : BreakerConfig) (verify : string -> VerifyResult)
    (stamp : string) (tsend : Z) (ctx : Ctx) : Ctx * Flow :=
  if Js.truthy (authorization (req ctx)) then
    match jwtAuth cfg verify stamp tsend ctx with
    | (ctx', Threw) => (ctx', Next)
    | r => r
    end
  else (ctx, Next).

(** ** Request validator (middleware/request-validator.ts) *)

(** [`req_${Date.now()}_${Math.random().toString(36).substr(2, 9)}`];
    [rnd] is the random suffix. *)
Definition freshRequestId (now : Z) (rnd : string) : string :=
  "req_" +:+ Js.show_int now +:+ "_" +:+ rnd.

(** [req.headers['x-request-id'] || fresh]. *)
Definition requestIdOf (now : Z) (rnd : string) (r : Request) : string :=
  match x_request_id r with
  | Some v => if Js.truthy (Some v) then v else freshRequestId now rnd
  | None => freshRequestId now rnd
  end.

Definition set_x_request_id (v : string) (ctx : Ctx) : Ctx :=
  set_req {| method := method (req ctx);
             originalUrl := originalUrl (req ctx);
             url := url (req ctx);
             authorization := authorization (req ctx);
             x_request_id := Some v;
             user := user (req ctx);
             req_tenantId := req_tenantId (req ctx) |} ctx.

Definition requestValidator (now : Z) (rnd : string) (ctx : Ctx) : Ctx * Flow :=
  let requestId := requestIdOf now rnd (req ctx) in
  let ctx := set_x_request_id requestId ctx in
  let ctx := res_set_request_id requestId ctx in
  (ctx, Next).

(** ** The gateway's middleware stack (class [APIGateway]) *)

(** [config.services]: the base URL of each downstream service. *)
Record Services : Type := mkServices {
  identity : string;
  credential : string;
  auth : string;
  blockchain : string;
  compliance : string
}.

(** Everything one request's handling reads from outside the request: the
    configuration, the rate limiter's verdict, [jwt.verify] under the
    configured secret, and the clock and random source at each place the
    code consults them. *)
Record Env : Type := mkEnv {
  breakerConfig : BreakerConfig;
  services : Services;
  rateLimited : bool;
  verifyToken : string -> VerifyResult;
  nowValidator : Z;
  rndValidator : string;
  nowBreaker : Z;
  nowProxy : Z;
  rndProxy : string;
  nowSend : Z;
  isoStamp : string
}.

Definition Middleware : Type := Ctx -> Ctx * Flow.

(** Express runs the next layer only when the current one called [next()]. *)
Definition andThen (h1 h2 : Middleware) : Middleware :=
  fun ctx =>
    match h1 ctx with
    | (ctx', Next) => h2 ctx'
    | r => r
    end.

Fixpoint stack (hs : list Middleware) : Middleware :=
  match hs with
  | [] => fun ctx => (ctx, Next)
  | h :: hs' => andThen h (stack hs')
  end.

Definition set_url (u : string) (ctx : Ctx) : Ctx :=
  set_req {| method := method (req ctx);
             originalUrl := originalUrl (req ctx);
             url := u;
             authorization := authorization (req ctx);
             x_request_id := x_request_id (req ctx);
             user := user (req ctx);
             req_tenantId := req_tenantId (req ctx) |} ctx.

(** The path a layer mounted with [app.use(mount, ...)] sees (Express 4
    router): the layer matches, ignoring case, when the request path is the
    mount point or continues it with [/]; the matched prefix, with one
    trailing [/] when another [/] or the end follows it, is removed, and an
    empty remainder becomes [/]. *)
Definition mount_strip (mount p : string) : option string :=
  let n := String.length mount in
  if String.eqb (Js.lower (String.substring 0 n p)) (Js.lower mount) then
    let rest := Js.substring_from n p in
    if String.eqb rest "" then Some "/"
    else if Js.startsWith "//" rest then Some (Js.substring_from 1 rest)
    else if Js.startsWith "/" rest then Some rest
    else None
  else None.

(** [app.use(mount, h)]: [h] runs on the stripped path, and the path is
    restored when [h] passes control on. *)
Definition use (mount : string) (h : Middleware) : Middleware :=
  fun ctx =>
    match mount_strip mount (url (req ctx)) with
    | None => (ctx, Next)
    | Some u =>
        match h (set_url u ctx) with
        | (ctx', Next) => (set_url (url (req ctx)) ctx', Next)
        | r => r
        end
    end.

(** The global rate limiter (express-rate-limit): over the ceiling it
    answers 429 with the configured message through [res.send] and does not
    call [next()]. *)
Definition rateLimiter (env : Env) : Middleware :=
  fun ctx =>
    if rateLimited env then
      (res_send (breakerConfig env) (nowSend env)
         (Envelope "Too many requests" "Rate limit exceeded" None)
         (res_status 429 ctx), Ended)
    else (ctx, Next).

(** [onProxyReq] of [setupServiceProxy]. *)
Definition onProxyReq (now : Z) (rnd : string) (tgt : string) (r : Request) : ProxyReq :=
  {| target := tgt;
     proxy_x_request_id := requestIdOf now rnd r;
     proxy_x_user_id := id <$> user r;
     proxy_x_tenant_id := tenantId <$> user r |}.

(** The proxy middleware, up to the point where the request leaves the
    gateway. *)
Definition proxy (env : Env) (tgt : string) : Middleware :=
  fun ctx => (ctx, Forwarded (onProxyReq (nowProxy env) (rndProxy env) tgt (req ctx))).

(** [onError] of [setupServiceProxy]: the answer to a transport failure. *)
Definition onError (env : Env) (ctx : Ctx) : Ctx :=
  reject (breakerConfig env) (nowSend env) 503 "Service Unavailable"
         "Downstream service is not available" (isoStamp env) ctx.

(** [setupServiceProxy(path, target, authMiddleware)]. *)
Definition setupServiceProxy (env : Env) (mount tgt : string) (authMiddleware : Middleware)
    : Middleware :=
  use mount (andThen authMiddleware (proxy env tgt)).

Definition isGet (r : Request) : bool :=
  String.eqb (method r) "GET" || String.eqb (method r) "HEAD".

(** The health router (routes/health.ts): GET on [/], [/detailed],
    [/ready] and [/live] below the mount point; anything else falls
    through. *)
Definition healthRoutes (env : Env) : Middleware :=
  fun ctx =>
    let p := Js.lower (path (req ctx)) in
    if isGet (req ctx)
       && (String.eqb p "/" || String.eqb p "/detailed" || String.eqb p "/ready"
           || String.eqb p "/live" || String.eqb p "/detailed/" || String.eqb p "/ready/"
           || String.eqb p "/live/")
    then (res_json (breakerConfig env) (nowSend env) HealthReply ctx, Ended)
    else (ctx, Next).

(** [app.get('/', ...)]: the API description. *)
Definition apiInfo (env : Env) : Middleware :=
  fun ctx =>
    if isGet (req ctx) && String.eqb (path (req ctx)) "/"
    then (res_json (breakerConfig env) (nowSend env) (ApiInfo (isoStamp env)) ctx, Ended)
    else (ctx, Next).

(** The 404 handler, [app.use('*', ...)]. *)
Definition notFound (env : Env) : Middleware :=
  fun ctx =>
    (reject (breakerConfig env) (nowSend env) 404 "Not Found"
            ("Route " +:+ originalUrl (req ctx) +:+ " not found") (isoStamp env) ctx,
     Ended).

(** The layers [initializeMiddleware] registers, from the rate limiter on.
    The library layers registered before it (helmet, cors, body parsers,
    compression, morgan) are not part of the model: a request that one of
    them answers itself (cors answers every OPTIONS request) or refuses
    (a body parser passes its error on to the error handler) does not
    reach the rate limiter, nor anything below it. *)
Definition initializeMiddleware (env : Env) : list Middleware :=
  [ rateLimiter env;
    requestValidator (nowValidator env) (rndValidator env);
    use "/v1" (circuitBreaker (breakerConfig env) (nowBreaker env) (isoStamp env)
                              (nowSend env)) ].

(** The layers [initializeRoutes] registers. *)
Definition initializeRoutes (env : Env) : list Middleware :=
  [ use "/health" (healthRoutes env);
    setupServiceProxy env "/v1/auth" (auth (services env))
      (optionalAuth (breakerConfig env) (verifyToken env) (isoStamp env) (nowSend env));
    setupServiceProxy env "/v1/identities" (identity (services env))
      (jwtAuth (breakerConfig env) (verifyToken env) (isoStamp env) (nowSend env));
    setupServiceProxy env "/v1/credentials" (credential (services env))
      (jwtAuth (breakerConfig env) (verifyToken env) (isoStamp env) (nowSend env));
    setupServiceProxy env "/v1/blockchain" (blockchain (services env))
      (jwtAuth (breakerConfig env) (verifyToken env) (isoStamp env) (nowSend env));
    setupServiceProxy env "/v1/compliance" (compliance (services env))
      (jwtAuth (breakerConfig env) (verifyToken env) (isoStamp env) (nowSend env));
    apiInfo env ].

(** The 404 handler [initializeErrorHandling] registers. The global error
    handler registered after it (middleware/error-handler, not among the
    sources) only runs when a layer throws or passes an error on. *)
Definition initializeErrorHandling (env : Env) : list Middleware :=
  [ notFound env ].

(** The stack in the order [start] builds it. *)
Definition layers (env : Env) : list Middleware :=
  initializeMiddleware env ++ initializeRoutes env ++ initializeErrorHandling env.

(** An HTTP request as it reaches the gateway: method, path and the two
    headers the stack reads. *)
Record Inbound : Type := mkInbound {
  in_method : string;
  in_path : string;
  in_authorization : option string;
  in_x_request_id : option string
}.

(** The request and response objects Express creates for it. *)
Definition inbound (i : Inbound) (cs : gmap string CircuitState) : Ctx :=
  {| req := {| method := in_method i;
               originalUrl := in_path i;
               url := in_path i;
               authorization := in_authorization i;
               x_request_id := in_x_request_id i;
               user := None;
               req_tenantId := None |};
     res := freshResponse;
     circuits := cs |}.

(** The gateway handling one request that has reached the rate limiter,
    against the registry [cs]. *)
Definition handle (env : Env) (i : Inbound) (cs : gmap string CircuitState) : Ctx * Flow :=
  stack (layers env) (inbound i cs).

(** ** The breaker as a state machine over a run of the process *)

(** What happens to the registry while the process runs: a request reaches
    [circuitBreaker] with [req.path = path] at time [now], or the wrapped
    [res.send] of a request admitted earlier runs at time [now] with
    [res.statusCode = status]. *)
Inductive Event : Type :=
  | Admission (path : string) (now : Z) (stamp : string)
  | Sent (serviceName : string) (status : Z) (now : Z).

(** The registry, the services whose wrapper is installed on a response
    not sent yet (one entry per such response), and the clock. *)
Record Sys : Type := mkSys {
  registry : gmap string CircuitState;
  inflight : list string;
  clock : Z
}.

Definition initial : Sys := {| registry := ∅; inflight := []; clock := 0 |}.

(** The request and response objects of a request as [circuitBreaker]
    receives them. *)
Definition arriving (p : string) (cs : gmap string CircuitState) : Ctx :=
  {| req := {| method := "GET"; originalUrl := p; url := p; authorization := None;
               x_request_id := None; user := None; req_tenantId := None |};
     res := freshResponse;
     circuits := cs |}.

Fixpoint remove_first (s : string) (l : list string) : list string :=
  match l with
  | [] => []
  | x :: l' => if String.eqb s x then l' else x :: remove_first s l'
  end.

Definition tracked (r : Ctx * Flow) : list string :=
  match snd r with
  | Next => map (fun h => match h with TrackCircuit s => s end) (sendHooks (res (fst r)))
  | _ => []
  end.

(** One event; [None] when the event cannot happen (the clock would run
    backwards, or no admitted response of that service is outstanding). *)
Definition step (cfg : BreakerConfig) (ev : Event) (sys : Sys) : option Sys :=
  match ev with
  | Admission p now stamp =>
      if clock sys <=? now then
        let r := circuitBreaker cfg now stamp now (arriving p (registry sys)) in
        Some {| registry := circuits (fst r);
                inflight := tracked r ++ inflight sys;
                clock := now |}
      else None
  | Sent s status now =>
      if (clock sys <=? now) && existsb (String.eqb s) (inflight sys) then
        Some {| registry := runHook cfg now status (TrackCircuit s) (registry sys);
                inflight := remove_first s (inflight sys);
                clock := now |}
      else None
  end.

Fixpoint run (cfg : BreakerConfig) (evs : list Event) (sys : Sys) : option Sys :=
  match evs with
  | [] => Some sys
  | ev :: evs' =>
      match step cfg ev sys with
      | Some sys' => run cfg evs' sys'
      | None => None
      end
  end.

(** The states the process can be in. *)
Inductive reachable (cfg : BreakerConfig) : Sys -> Prop :=
  | reachable_initial : reachable cfg initial
  | reachable_step sys ev sys' :
      reachable cfg sys -> step cfg ev sys = Some sys' -> reachable cfg sys'.

(** Every circuit of the registry has a non-negative failure count. *)
Definition failures_nonneg (cs : gmap string CircuitState) : Prop :=
  forall s c, cs !! s = Some c -> 0 <= failures c.

(** A response the gateway produced itself with an error status. *)
Definition rejected (r : Ctx * Flow) : Prop :=
  snd r = Ended /\ 400 <= statusCode (res (fst r)).

(** ** Notions used in the statements *)

(** The response header and the request header both carry the identifier
    [rid]. *)
Definition carries (rid : string) (ctx : Ctx) : Prop :=
  res_x_request_id (res ctx) = Some rid
  /\ x_request_id (req ctx) = Some rid
  /\ Js.truthy (Some rid) = true.

(** A layer that leaves the identifier in place and, when it forwards,
    forwards it. *)
Definition keeps_id (h : Middleware) : Prop :=
  forall rid ctx,
    carries rid ctx ->
    carries rid (fst (h ctx))
    /\ forall p, snd (h ctx) = Forwarded p -> proxy_x_request_id p = rid.

(** The request and response as they leave [requestValidator]. *)
Definition validated (env : Env) (i : Inbound) (cs : gmap string CircuitState) : Ctx :=
  fst (requestValidator (nowValidator env) (rndValidator env) (inbound i cs)).

(** The admission check as the stack runs it. *)
Definition breakerLayer (env : Env) : Middleware :=
  use "/v1" (circuitBreaker (breakerConfig env) (nowBreaker env) (isoStamp env)
                            (nowSend env)).

(** The layers behind the circuit breaker. *)
Definition afterBreaker (env : Env) : list Middleware :=
  initializeRoutes env ++ initializeErrorHandling env.

(** The identifier [requestValidator] assigns to an inbound request. *)
Definition assignedId (env : Env) (i : Inbound) : string :=
  requestIdOf (nowValidator env) (rndValidator env) (req (inbound i ∅)).

(** The paths [initializeRoutes] mounts a service proxy on. *)
Definition proxiedMounts : list string :=
  ["/v1/auth"; "/v1/identities"; "/v1/credentials"; "/v1/blockchain"; "/v1/compliance"].

(** The proxied routes whose authentication middleware is [jwtAuth]. *)
Definition mandatoryMounts : list string :=
  ["/v1/identities"; "/v1/credentials"; "/v1/blockchain"; "/v1/compliance"].

(** The circuit an admitted request leaves behind: an OPEN circuit whose
    request was admitted has moved to HALF_OPEN. *)
Definition probed (c : CircuitState) : CircuitState :=
  match state c with
  | OPEN => set_state HALF_OPEN c
  | _ => c
  end.

(** The wrappers of [res.send] run on a response with status [status]. *)
Definition replay (cfg : BreakerConfig) (tsend status : Z) (hooks : list SendHook)
    (cs : gmap string CircuitState) : gmap string CircuitState :=
  fold_left (fun cs h => runHook cfg tsend status h cs) hooks cs.

(** A layer that installs no wrapper and touches the registry only by
    sending a response, which runs the wrappers installed before it. *)
Definition sends_once (cfg : BreakerConfig) (tsend : Z) (h : Middleware) : Prop :=
  forall ctx,
    sendHooks (res (fst (h ctx))) = sendHooks (res ctx)
    /\ circuits (fst (h ctx))
       = match snd (h ctx) with
         | Ended => replay cfg tsend (statusCode (res (fst (h ctx))))
                           (sendHooks (res ctx)) (circuits ctx)
         | _ => circuits ctx
         end.

(** ** [jwt.verify] (the jsonwebtoken package) *)

(** What [jwt.verify] establishes about a token string: whether it parses
    as a JWT, whether its signature matches the secret, and its claims. *)
Record Token : Type := mkToken {
  wellFormed : bool;
  signatureValid : bool;
  claims : JWTPayload
}.

(** [jwt.verify(token, secret)] at clock [clock] (in seconds, as [exp] is):
    a malformed token and a signature mismatch throw [JsonWebTokenError];
    only then is the expiry compared with the clock, and a token whose
    [exp] is not in the future throws [TokenExpiredError]. [parse] reads
    the token string. *)
Definition jwt_verify (parse : string -> Token) (clock : Z) (token : string) : VerifyResult :=
  let t := parse token in
  if negb (wellFormed t) then Throws JsonWebTokenError
  else if negb (signatureValid t) then Throws JsonWebTokenError
  else if exp (claims t) <=? clock then Throws TokenExpiredError
  else Verified (claims t).

(** ** Concrete inputs used in the examples below *)

Definition sampleServices : Services :=
  {| identity := "http://identity-service:3001";
     credential := "http://credential-service:3003";
     auth := "http://auth-service:3002";
     blockchain := "http://blockchain-adapter:3004";
     compliance := "http://compliance-service:3005" |}.

Definition samplePayload : JWTPayload :=
  {| sub := Some "user-1"; p_email := None; p_tenantId := Some "tenant-1";
     p_roles := None; p_tier := None; p_permissions := None;
     iat := 1000; exp := 1900 |}.

(** Token strings of the examples: [forged.jwt] carries a signature that
    does not match, every other string is well formed and signed with the
    secret; all carry [samplePayload], which expires at 1900. *)
Definition sampleParse (token : string) : Token :=
  {| wellFormed := true;
     signatureValid := negb (String.eqb token "forged.jwt");
     claims := samplePayload |}.

(** An environment with the default configuration. *)
Definition sampleEnv (limited : bool) (clockSeconds : Z) : Env :=
  {| breakerConfig := defaultBreakerConfig;
     services := sampleServices;
     rateLimited := limited;
     verifyToken := jwt_verify sampleParse clockSeconds;
     nowValidator := 2000000;
     rndValidator := "k3x9q2m1z";
     nowBreaker := 2000001;
     nowProxy := 2000002;
     rndProxy := "abcdefghi";
     nowSend := 2000003;
     isoStamp := "1970-01-01T00:33:20.003Z" |}.

Definition get (p : string) (authHeader requestId : option string) : Inbound :=
  {| in_method := "GET"; in_path := p;
     in_authorization := authHeader; in_x_request_id := requestId |}.

Definition openRegistry : gmap string CircuitState :=
  {[ "identities" := {| failures := 5; lastFailureTime := 0; state := OPEN |} ]}.

(** The admission check of a request for [/v1/identities/42] at the instant
    the default reset timeout (60000 ms) is reached. *)
Definition probeResult : Ctx * Flow :=
  circuitBreaker defaultBreakerConfig 60000 "1970-01-01T00:01:00.000Z" 60000
    (arriving "/v1/identities/42" openRegistry).

(** The admission check of a second request one millisecond later, no
    outcome having been recorded. *)
Definition secondResult : Ctx * Flow :=
  circuitBreaker defaultBreakerConfig 60001 "1970-01-01T00:01:00.001Z" 60001
    (arriving "/v1/identities/42" (circuits (fst probeResult))).

Definition closedRegistry : gmap string CircuitState :=
  {[ "identities" := {| failures := 4; lastFailureTime := 7; state := CLOSED |} ]}.

(** Seven requests for the service are admitted while its circuit is
    CLOSED; five of them end with status 500, which opens the circuit at
    the fifth; the other two end with status 200 while the circuit is OPEN;
    after the reset timeout one more request arrives and is admitted. *)
Definition decayTrace : list Event :=
  [ Admission "/v1/identities" 1 ""; Admission "/v1/identities" 2 "";
    Admission "/v1/identities" 3 ""; Admission "/v1/identities" 4 "";
    Admission "/v1/identities" 5 ""; Admission "/v1/identities" 6 "";
    Admission "/v1/identities" 7 "";
    Sent "identities" 500 10; Sent "identities" 500 11; Sent "identities" 500 12;
    Sent "identities" 500 13; Sent "identities" 500 14;
    Sent "identities" 200 15; Sent "identities" 200 16;
    Admission "/v1/identities" 60014 "" ].

Definition decayedSys : Sys :=
  {| registry := {[ "identities" :=
                      {| failures := 3; lastFailureTime := 14; state := HALF_OPEN |} ]};
     inflight := ["identities"];
     clock := 60014 |}.

Definition halfOpenRegistry : gmap string CircuitState :=
  {[ "identities" := {| failures := 5; lastFailureTime := 14; state := HALF_OPEN |} ]}.

Definition oneFailureRegistry : gmap string CircuitState :=
  {[ "identities" := {| failures := 1; lastFailureTime := 7; state := CLOSED |} ]}.

(** A request for a mandatory-auth route carrying the token [token]. *)
Definition bearer (token : string) : Ctx :=
  inbound (get "/v1/identities/42" (Some ("Bearer " +:+ token)) None) ∅.

Definition identitiesRegistry : gmap string CircuitState :=
  {[ "identities" := {| failures := 3; lastFailureTime := 1000; state := CLOSED |} ]}.

(** ** Role check (middleware/auth.ts, [requireRole]) *)

(** [Array.prototype.join] on strings. *)
Fixpoint array_join (sep : string) (l : list string) : string :=
  match l with
  | [] => ""
  | x :: l' =>
      match l' with
      | [] => x
      | _ => x +:+ sep +:+ array_join sep l'
      end
  end.

(** The argument of [requireRole]: one role name or an array of them. *)
Inductive RequiredRoles : Type :=
  | OneRole (role : string)
  | ManyRoles (roleNames : list string).

(** [Array.isArray(requiredRoles) ? requiredRoles : [requiredRoles]]. *)
Definition roleList (requiredRoles : RequiredRoles) : list string :=
  match requiredRoles with
  | OneRole role => [role]
  | ManyRoles roleNames => roleNames
  end.

(** [roles.some(role => user.roles.includes(role))]. *)
Definition hasRole (required : list string) (u : User) : bool :=
  existsb (fun role => existsb (String.eqb role) (roles u)) required.

(** [requireRole(requiredRoles)(req, res, next)]. *)
Definition requireRole (cfg : BreakerConfig) (requiredRoles : RequiredRoles)
    (stamp : string) (tsend : Z) : Middleware :=
  fun ctx =>
    match user (req ctx) with
    | None =>
        (reject cfg tsend 401 "Unauthorized" "Authentication required" stamp ctx, Ended)
    | Some u =>
        let required := roleList requiredRoles in
        if negb (hasRole required u) then
          (reject cfg tsend 403 "Forbidden"
                  ("Required roles: " +:+ array_join ", " required) stamp ctx, Ended)
        else (ctx, Next)
    end.

(** ** Runs of recorded failures *)

(** [recordFailure(serviceName)] called once at each of the times, in
    order. *)
Definition recordFailures (cfg : BreakerConfig) (serviceName : string) (times : list Z)
    (cs : gmap string CircuitState) : gmap string CircuitState :=
  fold_left (fun cs now => recordFailure cfg now serviceName cs) times cs.

(** A CLOSED circuit counts fewer failures than trip the breaker. *)
Definition closed_below_threshold (cfg : BreakerConfig) (cs : gmap string CircuitState)
    : Prop :=
  forall s c, cs !! s = Some c -> state c = CLOSED ->
              10 * failures c < errorThresholdPercentage cfg.

(** ** The route table *)

(** The calls of [setupServiceProxy] in [initializeRoutes]: mount point and
    target. *)
Definition routeTable (env : Env) : list (string * string) :=
  [ ("/v1/auth", auth (services env));
    ("/v1/identities", identity (services env));
    ("/v1/credentials", credential (services env));
    ("/v1/blockchain", blockchain (services env));
    ("/v1/compliance", compliance (services env)) ].

(** The mount points of [initializeRoutes]. *)
Definition routePrefixes : list string := "/health" :: proxiedMounts.

(** A layer that, run on a request satisfying [Inv], keeps [Inv] when it
    passes the request on and forwards only requests satisfying [Q]. *)
Definition guards (Inv : Ctx -> Prop) (Q : ProxyReq -> Prop) (h : Middleware) : Prop :=
  forall ctx,
    Inv ctx ->
    match snd (h ctx) with
    | Next => Inv (fst (h ctx))
    | Forwarded p => Q p
    | _ => True
    end.

(** The request as the route layers find it: path and [Authorization]
    header as received, no identity attached yet. *)
Definition as_received (i : Inbound) (ctx : Ctx) : Prop :=
  url (req ctx) = in_path i
  /\ authorization (req ctx) = in_authorization i
  /\ user (req ctx) = None.

(** What holds of a request the gateway forwards: it goes to the target of
    the route its path lies under, and on a mandatory-auth route it carries
    the subject and tenant of a token [jwt.verify] accepted. *)
Definition forwarded_properly (env : Env) (i : Inbound) (p : ProxyReq) : Prop :=
  exists m,
    In (m, target p) (routeTable env)
    /\ mount_strip m (in_path i) <> None
    /\ (In m mandatoryMounts ->
        exists hdr token decoded uid tid,
          in_authorization i = Some hdr
          /\ tokenOf hdr = Some token
          /\ verifyToken env token = Verified decoded
          /\ sub decoded = Some uid /\ uid <> ""
          /\ p_tenantId decoded = Some tid /\ tid <> ""
          /\ proxy_x_user_id p = Some uid
          /\ proxy_x_tenant_id p = Some tid).

(** ** Static file server (src/index.js) *)

Module StaticServer.

(** What the handler writes: status, [Content-Type] and [Location] headers,
    body. *)
Record Reply : Type := mkReply {
  status : Z;
  contentType : option string;
  location : option string;
  content : string
}.

(** The request handler. [file] is what [fs.readFile] yields for
    [index.html]: its content, or nothing on error. [req.url] is compared
    as it is, query string included. *)
Definition handler (file : option string) (url : string) : Reply :=
  if String.eqb url "/" || String.eqb url "/index.html" || String.eqb url "/index" then
    match file with
    | None =>
        {| status := 500; contentType := Some "text/html"; location := None;
           content := "<h1>Server Error</h1><p>Could not load the page</p>" |}
    | Some data =>
        {| status := 200; contentType := Some "text/html"; location := None;
           content := data |}
    end
  else if String.eqb url "/favicon.ico" then
    {| status := 204; contentType := None; location := None; content := "" |}
  else
    {| status := 302; contentType := None; location := Some "/"; content := "" |}.

End StaticServer.

(** ** Configuration (utils/config.ts) *)

Module Config.

(** [s.split(sep)] for a one-character separator. *)
Fixpoint string_split (sep : ascii) (s : string) : list string :=
  match s with
  | EmptyString => [EmptyString]
  | String c r =>
      if Ascii.eqb c sep then EmptyString :: string_split sep r
      else match string_split sep r with
           | x :: xs => String c x :: xs
           | [] => [String c EmptyString]
           end
  end.

(** [process.env.KEY || fallback]. *)
Definition envOr (env : gmap string string) (key fallback : string) : string :=
  match env !! key with
  | Some v => if Js.truthy (Some v) then v else fallback
  | None => fallback
  end.

Section Load.

(** JavaScript numbers are kept abstract: [parseInt s] is [parseInt(s, 10)]. *)
Context {Num : Type} (parseInt : string -> Num).

Record Jwt : Type := mkJwt { secret : string; expiresIn : string }.

Record RateLimit : Type := mkRateLimit { windowMs : Num; max : Num }.

Record ServiceUrls : Type := mkServiceUrls {
  identity : string;
  credential : string;
  auth : string;
  blockchain : string;
  compliance : string
}.

Record CircuitBreaker : Type := mkCircuitBreaker {
  timeout : Num;
  errorThresholdPercentage : Num;
  resetTimeoutMs : Num
}.

Record Config : Type := mkConfig {
  port : Num;
  nodeEnv : string;
  jwt : Jwt;
  redisUrl : string;
  rateLimit : RateLimit;
  allowedOrigins : list string;
  services : ServiceUrls;
  circuitBreaker : CircuitBreaker
}.

(** The object literal of [loadConfig], before validation. *)
Definition readConfig (env : gmap string string) : Config :=
  {| port := parseInt (envOr env "PORT" "8080");
     nodeEnv := envOr env "NODE_ENV" "development";
     jwt := {| secret := envOr env "JWT_SECRET" "super-secret-jwt-key";
               expiresIn := envOr env "JWT_EXPIRES_IN" "15m" |};
     redisUrl := envOr env "REDIS_URL" "redis://localhost:6379";
     rateLimit := {| windowMs := parseInt (envOr env "RATE_LIMIT_WINDOW" "900000");
                     max := parseInt (envOr env "RATE_LIMIT_MAX" "1000") |};
     allowedOrigins :=
       if Js.truthy (env !! "CORS_ORIGINS")
       then string_split "," (default "" (env !! "CORS_ORIGINS"))
       else ["http://localhost:3000"];
     services :=
       {| identity := envOr env "IDENTITY_SERVICE_URL" "http://identity-service:3001";
          credential := envOr env "CREDENTIAL_SERVICE_URL" "http://credential-service:3003";
          auth := envOr env "AUTH_SERVICE_URL" "http://auth-service:3002";
          blockchain := envOr env "BLOCKCHAIN_SERVICE_URL" "http://blockchain-adapter:3004";
          compliance := envOr env "COMPLIANCE_SERVICE_URL" "http://compliance-service:3005" |};
     circuitBreaker :=
       {| timeout := parseInt (envOr env "CIRCUIT_BREAKER_TIMEOUT" "5000");
          errorThresholdPercentage :=
            parseInt (envOr env "CIRCUIT_BREAKER_ERROR_THRESHOLD" "50");
          resetTimeoutMs := parseInt (envOr env "CIRCUIT_BREAKER_RESET_TIMEOUT" "60000") |} |}.

(** What [validateConfig] does: the warnings it logs, and the message of
    the error it throws, if it throws. *)
Record Validation : Type := mkValidation {
  warnings : list string;
  thrown : option string
}.

(** The [errors] and [warnings] arrays after the two checks. *)
Definition secretProblems (config : Config) : list string * list string :=
  let '(errors, warnings) :=
    if negb (Js.truthy (Some (secret (jwt config))))
       || String.eqb (secret (jwt config)) "super-secret-jwt-key"
    then
      if String.eqb (nodeEnv config) "production"
      then (["JWT_SECRET must be set in production"], [])
      else ([], ["Using default JWT_SECRET - change this for production"])
    else ([], []) in
  let errors :=
    if (String.length (secret (jwt config)) <? 32)%nat
    then (errors ++ ["JWT_SECRET must be at least 32 characters long"])%list
    else errors in
  (errors, warnings).

(** [validateConfig(config)]. The separators of the message are the two
    characters backslash and n, as the source writes them. *)
Definition validateConfig (config : Config) : Validation :=
  let '(errors, warnings) := secretProblems config in
  {| warnings := warnings;
     thrown :=
       if (0 <? List.length errors)%nat
       then Some ("Configuration errors:\n" +:+ array_join "\n" errors)
       else None |}.

(** [loadConfig()]: the configuration, or nothing when [validateConfig]
    throws. *)
Definition loadConfig (env : gmap string string) : option Config :=
  let config := readConfig env in
  match thrown (validateConfig config) with
  | Some _ => None
  | None => Some config
  end.

End Load.

End Config.

(** A string of characters of the class [\w] only. *)
Fixpoint all_word (s : string) : bool :=
  match s with
  | EmptyString => true
  | String c r => Js.is_word_char c && all_word r
  end.

(** A string that does not begin with a character of the class [\w]. *)
Definition no_word_ahead (s : string) : bool :=
  match s with
  | EmptyString => true
  | String c _ => negb (Js.is_word_char c)
  end.

(** The timestamps of a state of the process are in order: no circuit
    records a failure before time 0 or after the clock. *)
Definition times_in_order (sys : Sys) : Prop :=
  0 <= clock sys
  /\ forall s c, registry sys !! s = Some c ->
                 0 <= lastFailureTime c /\ lastFailureTime c <= clock sys.

(** The request with another [Authorization] header. *)
Definition set_authorization (hdr : option string) (ctx : Ctx) : Ctx :=
  set_req {| method := method (req ctx);
             originalUrl := originalUrl (req ctx);
             url := url (req ctx);
             authorization := hdr;
             x_request_id := x_request_id (req ctx);
             user := user (req ctx);
             req_tenantId := req_tenantId (req ctx) |} ctx.

(** What [jwtAuth] asks of a request before it calls [next()]: a header of
    one of the two schemes whose token [jwt.verify] accepts, with a
    non-empty subject and tenant. *)
Definition authenticates (verify : string -> VerifyResult) (hdr : option string)
    (decoded : JWTPayload) (uid tid : string) : Prop :=
  exists h token,
    hdr = Some h
    /\ tokenOf h = Some token
    /\ verify token = Verified decoded
    /\ sub decoded = Some uid /\ uid <> ""
    /\ p_tenantId decoded = Some tid /\ tid <> "".

(** The identity [jwtAuth] builds from a payload. *)
Definition identityOf (decoded : JWTPayload) (uid tid : string) : User :=
  {| id := uid;
     email := match p_email decoded with
              | Some e => if String.eqb e "" then "unknown@udsp.io" else e
              | None => "unknown@udsp.io"
              end;
     tenantId := tid;
     roles := default [] (p_roles decoded);
     tier := p_tier decoded;
     permissions := default [] (p_permissions decoded) |}.

(** A layer that, run on a response whose status is still 200, leaves it at
    200 when it passes the request on, answers with one of [codes] only,
    and does not throw. *)
Definition answers_with (codes : list Z) (h : Middleware) : Prop :=
  forall ctx,
    statusCode (res ctx) = 200 ->
    match snd (h ctx) with
    | Next => statusCode (res (fst (h ctx))) = 200
    | Ended => In (statusCode (res (fst (h ctx)))) codes
    | Threw => False
    | Forwarded _ => True
    end.

(** The status codes of the answers of the layers behind the rate
    limiter. *)
Definition answerCodes : list Z := [200; 401; 404; 500; 503].

(** The process after one admitted request for [identities] was answered
    with a 500 at time 7. *)
Definition oneFailureSys : Sys :=
  {| registry := oneFailureRegistry; inflight := []; clock := 7 |}.

(** ** The registries the gateway can have *)

(** Every circuit of the registry is as [getOrCreateCircuit] creates it. *)
Definition all_fresh (cs : gmap string CircuitState) : Prop :=
  forall s c, cs !! s = Some c -> c = newCircuit.

(** The registry is one object, private to circuit-breaker.ts, that the
    process starts empty and that only [circuitBreaker] and the wrappers it
    installs touch. It changes while the stack handles a request, and when
    the response of a request forwarded earlier is sent through [res.send],
    by [onError] or otherwise, with whatever status, against the registry
    as it is by then. *)
Inductive served : gmap string CircuitState -> Prop :=
  | served_start : served ∅
  | served_request env i cs :
      served cs -> served (circuits (fst (handle env i cs)))
  | served_response env i cs0 p cfg now code data cs :
      served cs0 ->
      snd (handle env i cs0) = Forwarded p ->
      served cs ->
      served (circuits (res_send cfg now data
                          (res_status code (set_circuits cs (fst (handle env i cs0)))))).

(** The registry after one request for [/v1/v1/v1]. *)
Definition servedRegistry : gmap string CircuitState := {[ "v1" := newCircuit ]}.

(** A registry in which the circuit of [v1] is OPEN since 2000000. *)
Definition blockedRegistry : gmap string CircuitState :=
  {[ "v1" := {| failures := 5; lastFailureTime := 2000000; state := OPEN |} ]}.

(** * Properties *)

(** ** Registry operations *)

Lemma set_circuits_same ctx : set_circuits (circuits ctx) ctx = ctx.
Proof. by destruct ctx. Qed.

Lemma getOrCreate_present s (cs : gmap string CircuitState) c :
  cs !! s = Some c -> getOrCreateCircuit s cs = (cs, c).
Proof. intros H. unfold getOrCreateCircuit. by rewrite H. Qed.

Lemma getOrCreate_absent s (cs : gmap string CircuitState) :
  cs !! s = None -> getOrCreateCircuit s cs = (<[s := newCircuit]> cs, newCircuit).
Proof. intros H. unfold getOrCreateCircuit. by rewrite H. Qed.

Lemma circuitOf_lookup s (cs : gmap string CircuitState) :
  circuitOf s cs = default newCircuit (cs !! s).
Proof. unfold circuitOf, getOrCreateCircuit. by destruct (cs !! s). Qed.

Lemma circuitOf_present s (cs : gmap string CircuitState) c :
  cs !! s = Some c -> circuitOf s cs = c.
Proof. intros H. by rewrite circuitOf_lookup, H. Qed.

Lemma circuitOf_insert s c (cs : gmap string CircuitState) :
  circuitOf s (<[s := c]> cs) = c.
Proof. by rewrite circuitOf_lookup, lookup_insert_eq. Qed.

Lemma circuitOf_insert_ne s s' c (cs : gmap string CircuitState) :
  s <> s' -> circuitOf s' (<[s := c]> cs) = circuitOf s' cs.
Proof. intros H. by rewrite !circuitOf_lookup, lookup_insert_ne. Qed.

(** A phase other than CLOSED belongs to a stored circuit. *)
Lemma circuitOf_stored s (cs : gmap string CircuitState) :
  state (circuitOf s cs) <> CLOSED -> cs !! s = Some (circuitOf s cs).
Proof.
  rewrite circuitOf_lookup. destruct (cs !! s) as [c|]; simpl; [done|].
  intros H. by destruct H.
Qed.

Lemma recordFailure_insert cfg now s (cs : gmap string CircuitState) :
  recordFailure cfg now s cs = <[s := failed cfg now (circuitOf s cs)]> cs.
Proof.
  unfold recordFailure, circuitOf, getOrCreateCircuit.
  destruct (cs !! s); simpl; [done|]. by rewrite insert_insert_eq.
Qed.

Lemma recordSuccess_insert s (cs : gmap string CircuitState) :
  recordSuccess s cs = <[s := succeeded (circuitOf s cs)]> cs.
Proof.
  unfold recordSuccess, circuitOf, getOrCreateCircuit.
  destruct (cs !! s); simpl; [done|]. by rewrite insert_insert_eq.
Qed.

Lemma circuitOf_recordFailure cfg now s cs :
  circuitOf s (recordFailure cfg now s cs) = failed cfg now (circuitOf s cs).
Proof. by rewrite recordFailure_insert, circuitOf_insert. Qed.

Lemma circuitOf_recordSuccess s cs :
  circuitOf s (recordSuccess s cs) = succeeded (circuitOf s cs).
Proof. by rewrite recordSuccess_insert, circuitOf_insert. Qed.

Lemma circuitOf_recordFailure_ne cfg now s s' cs :
  s <> s' -> circuitOf s' (recordFailure cfg now s cs) = circuitOf s' cs.
Proof. intros H. by rewrite recordFailure_insert, circuitOf_insert_ne. Qed.

Lemma circuitOf_recordSuccess_ne s s' cs :
  s <> s' -> circuitOf s' (recordSuccess s cs) = circuitOf s' cs.
Proof. intros H. by rewrite recordSuccess_insert, circuitOf_insert_ne. Qed.

(** The comparison of the two ratios, in integers. *)
Lemma trips_iff cfg c :
  Qle_bool (thresholdRate cfg) (failureRate c) = true
  <-> errorThresholdPercentage cfg <= 10 * failures c.
Proof.
  rewrite Qle_bool_iff. unfold thresholdRate, failureRate, Qle. simpl. lia.
Qed.

Lemma failed_failures cfg now c : failures (failed cfg now c) = failures c + 1.
Proof. unfold failed. by case_match. Qed.

Lemma failed_lastFailureTime cfg now c : lastFailureTime (failed cfg now c) = now.
Proof. unfold failed. by case_match. Qed.

Lemma failed_state cfg now c :
  state (failed cfg now c)
  = if Qle_bool (thresholdRate cfg) (failures c + 1 # 10) then OPEN else state c.
Proof. unfold failed, failureRate. simpl. by case_match. Qed.

Lemma succeeded_failures_nonneg c : 0 <= failures (succeeded c).
Proof. unfold succeeded. destruct (state c); simpl; lia. Qed.

(** ** The admission check *)

(** The three ways through [circuitBreaker] for a request whose path names
    a service. *)
Lemma circuitBreaker_rejects cfg now stamp tsend ctx s :
  getServiceFromPath (path (req ctx)) = Some s ->
  state (circuitOf s (circuits ctx)) = OPEN ->
  now - lastFailureTime (circuitOf s (circuits ctx)) < resetTimeoutMs cfg ->
  circuitBreaker cfg now stamp tsend ctx
  = (res_json cfg tsend (Envelope "Service Unavailable" "Circuit breaker is OPEN" (Some stamp))
       (res_status 503 ctx), Ended).
Proof.
  intros Hs Hopen Hlt. unfold circuitBreaker. rewrite Hs.
  assert (Hst : circuits ctx !! s = Some (circuitOf s (circuits ctx))).
  { apply circuitOf_stored. by rewrite Hopen. }
  rewrite (getOrCreate_present _ _ _ Hst), Hopen, set_circuits_same.
  by apply Z.ltb_lt in Hlt as ->.
Qed.

Lemma circuitBreaker_probes cfg now stamp tsend ctx s :
  getServiceFromPath (path (req ctx)) = Some s ->
  state (circuitOf s (circuits ctx)) = OPEN ->
  resetTimeoutMs cfg <= now - lastFailureTime (circuitOf s (circuits ctx)) ->
  circuitBreaker cfg now stamp tsend ctx
  = (wrap_send (TrackCircuit s)
       (set_circuits (<[s := set_state HALF_OPEN (circuitOf s (circuits ctx))]> (circuits ctx))
          ctx), Next).
Proof.
  intros Hs Hopen Hge. unfold circuitBreaker. rewrite Hs.
  assert (Hst : circuits ctx !! s = Some (circuitOf s (circuits ctx))).
  { apply circuitOf_stored. by rewrite Hopen. }
  rewrite (getOrCreate_present _ _ _ Hst), Hopen.
  apply Z.ltb_ge in Hge as ->. by destruct ctx.
Qed.

Lemma circuitBreaker_passes cfg now stamp tsend ctx s :
  getServiceFromPath (path (req ctx)) = Some s ->
  state (circuitOf s (circuits ctx)) <> OPEN ->
  circuitBreaker cfg now stamp tsend ctx
  = (wrap_send (TrackCircuit s)
       (set_circuits (<[s := circuitOf s (circuits ctx)]> (circuits ctx)) ctx), Next).
Proof.
  intros Hs Hn. unfold circuitBreaker. rewrite Hs.
  unfold circuitOf in *. unfold getOrCreateCircuit in *.
  destruct (circuits ctx !! s) as [c|] eqn:E; simpl in *.
  - rewrite (insert_id _ _ _ E), set_circuits_same. by destruct (state c).
  - done.
Qed.

Lemma circuitBreaker_no_service cfg now stamp tsend ctx :
  getServiceFromPath (path (req ctx)) = None ->
  circuitBreaker cfg now stamp tsend ctx = (ctx, Next).
Proof. intros Hs. unfold circuitBreaker. by rewrite Hs. Qed.

Lemma res_send_no_hooks cfg now data ctx :
  sendHooks (res ctx) = [] -> circuits (res_send cfg now data ctx) = circuits ctx.
Proof. intros H. unfold res_send. simpl. by rewrite H. Qed.

Lemma stack_stops (h : Middleware) (hs : list Middleware) ctx :
  snd (h ctx) <> Next -> stack (h :: hs) ctx = h ctx.
Proof.
  intros H. simpl. unfold andThen. destruct (h ctx) as [ctx' f]. simpl in H.
  by destruct f.
Qed.

(** The effect of an admission check on the circuit of any service, when no
    wrapper is installed on the response yet. *)
Lemma circuitBreaker_circuitOf cfg now stamp tsend ctx s' :
  sendHooks (res ctx) = [] ->
  circuitOf s' (circuits (fst (circuitBreaker cfg now stamp tsend ctx)))
  = if bool_decide (getServiceFromPath (path (req ctx)) = Some s')
       && bool_decide (state (circuitOf s' (circuits ctx)) = OPEN)
       && (resetTimeoutMs cfg <=? now - lastFailureTime (circuitOf s' (circuits ctx)))
    then set_state HALF_OPEN (circuitOf s' (circuits ctx))
    else circuitOf s' (circuits ctx).
Proof.
  intros Hh.
  destruct (getServiceFromPath (path (req ctx))) as [s|] eqn:Hs.
  2: { rewrite circuitBreaker_no_service by done. by rewrite bool_decide_eq_false_2. }
  destruct (decide (state (circuitOf s (circuits ctx)) = OPEN)) as [Ho|Hn].
  - destruct (Z.ltb_spec (now - lastFailureTime (circuitOf s (circuits ctx)))
                         (resetTimeoutMs cfg)) as [Hlt|Hge].
    + rewrite (circuitBreaker_rejects _ _ _ _ _ _ Hs Ho Hlt). cbn [fst].
      unfold res_json. rewrite res_send_no_hooks by done. cbn.
      case_bool_decide as E1; [|done]. simplify_eq.
      rewrite bool_decide_eq_true_2 by done. simpl.
      by apply Z.leb_gt in Hlt as ->.
    + rewrite (circuitBreaker_probes _ _ _ _ _ _ Hs Ho Hge). simpl.
      case_bool_decide as E1.
      * simplify_eq. rewrite bool_decide_eq_true_2 by done.
        apply Z.leb_le in Hge as ->. simpl. by rewrite circuitOf_insert.
      * simpl. apply circuitOf_insert_ne. congruence.
  - rewrite (circuitBreaker_passes _ _ _ _ _ _ Hs Hn). simpl.
    case_bool_decide as E1.
    + simplify_eq. rewrite bool_decide_eq_false_2 by done. simpl.
      by rewrite circuitOf_insert.
    + simpl. apply circuitOf_insert_ne. congruence.
Qed.

(** ** Claims about the circuit breaker *)

(** C1, as stated, fails: after the probe moved the circuit to HALF_OPEN, a
    further admission check for the same service, with no outcome recorded
    in between, is admitted as well, not rejected. *)
Lemma half_open_admits_second_request :
  snd probeResult = Next
  /\ circuits (fst probeResult) !! "identities"
     = Some {| failures := 5; lastFailureTime := 0; state := HALF_OPEN |}
  /\ snd secondResult = Next
  /\ snd secondResult <> Ended
  /\ circuits (fst secondResult) !! "identities"
     = Some {| failures := 5; lastFailureTime := 0; state := HALF_OPEN |}.
Proof. vm_compute. repeat split; congruence. Qed.

(** C1 (amended). For a service whose circuit is OPEN and whose reset
    timeout has elapsed since [lastFailureTime], the next admission check
    admits the request and moves the circuit to HALF_OPEN; while the circuit
    is HALF_OPEN every further admission check for the service is admitted
    too and leaves the registry as it is. *)
Theorem probe_then_half_open_admits cfg now stamp tsend ctx s :
  getServiceFromPath (path (req ctx)) = Some s ->
  state (circuitOf s (circuits ctx)) = OPEN ->
  resetTimeoutMs cfg <= now - lastFailureTime (circuitOf s (circuits ctx)) ->
  snd (circuitBreaker cfg now stamp tsend ctx) = Next
  /\ circuitOf s (circuits (fst (circuitBreaker cfg now stamp tsend ctx)))
     = set_state HALF_OPEN (circuitOf s (circuits ctx))
  /\ forall now' stamp' tsend' ctx',
       getServiceFromPath (path (req ctx')) = Some s ->
       state (circuitOf s (circuits ctx')) = HALF_OPEN ->
       snd (circuitBreaker cfg now' stamp' tsend' ctx') = Next
       /\ circuits (fst (circuitBreaker cfg now' stamp' tsend' ctx')) = circuits ctx'.
Proof.
  intros Hs Ho Hge. rewrite (circuitBreaker_probes _ _ _ _ _ _ Hs Ho Hge). simpl.
  split; [done|]. split; [apply circuitOf_insert|].
  intros now' stamp' tsend' ctx' Hs' Hh.
  rewrite (circuitBreaker_passes _ _ _ _ _ _ Hs') by (rewrite Hh; done). simpl.
  split; [done|]. apply insert_id, circuitOf_stored. by rewrite Hh.
Qed.

Lemma probe_then_half_open_admits_witness :
  snd probeResult = Next
  /\ circuitOf "identities" (circuits (fst probeResult))
     = set_state HALF_OPEN (circuitOf "identities" openRegistry)
  /\ snd secondResult = Next.
Proof.
  destruct (probe_then_half_open_admits defaultBreakerConfig 60000
              "1970-01-01T00:01:00.000Z" 60000
              (arriving "/v1/identities/42" openRegistry) "identities")
    as (H1 & H2 & H3).
  - reflexivity.
  - reflexivity.
  - vm_compute. discriminate.
  - split; [exact H1|]. split; [exact H2|].
    apply (H3 60001 "1970-01-01T00:01:00.001Z" 60001
              (arriving "/v1/identities/42" (circuits (fst probeResult)))).
    + reflexivity.
    + reflexivity.
Defined.

(** C5, as stated, fails at the boundary: when exactly the reset timeout has
    elapsed since [lastFailureTime] (the elapsed time has not exceeded it),
    the request is not rejected; the circuit moves to HALF_OPEN and the
    request is admitted. *)
Lemma open_at_exact_timeout_is_admitted :
  60000 - lastFailureTime (circuitOf "identities" openRegistry)
    = resetTimeoutMs defaultBreakerConfig
  /\ ~ (resetTimeoutMs defaultBreakerConfig
          < 60000 - lastFailureTime (circuitOf "identities" openRegistry))
  /\ snd probeResult = Next
  /\ statusCode (res (fst probeResult)) <> 503
  /\ state (circuitOf "identities" (circuits (fst probeResult))) = HALF_OPEN.
Proof. vm_compute. repeat split; congruence. Qed.

(** C5 (amended). An admission check while the circuit of the service is
    OPEN: if the time elapsed since [lastFailureTime] is strictly less than
    the reset timeout, the request is answered 503 with the envelope
    [{error: 'Service Unavailable', message: 'Circuit breaker is OPEN',
    timestamp}], [next()] is not called, so that no later layer (the proxy
    among them) runs, and the registry is unchanged; otherwise (the elapsed
    time is at least the reset timeout) the circuit moves from OPEN to
    HALF_OPEN and the request is admitted. *)
Theorem open_admission_check cfg now stamp tsend ctx s :
  getServiceFromPath (path (req ctx)) = Some s ->
  state (circuitOf s (circuits ctx)) = OPEN ->
  (now - lastFailureTime (circuitOf s (circuits ctx)) < resetTimeoutMs cfg ->
     snd (circuitBreaker cfg now stamp tsend ctx) = Ended
     /\ statusCode (res (fst (circuitBreaker cfg now stamp tsend ctx))) = 503
     /\ body (res (fst (circuitBreaker cfg now stamp tsend ctx)))
        = Some (Envelope "Service Unavailable" "Circuit breaker is OPEN" (Some stamp))
     /\ (forall later, stack (circuitBreaker cfg now stamp tsend :: later) ctx
                       = circuitBreaker cfg now stamp tsend ctx)
     /\ (sendHooks (res ctx) = [] ->
         circuits (fst (circuitBreaker cfg now stamp tsend ctx)) = circuits ctx))
  /\ (resetTimeoutMs cfg <= now - lastFailureTime (circuitOf s (circuits ctx)) ->
     snd (circuitBreaker cfg now stamp tsend ctx) = Next
     /\ circuitOf s (circuits (fst (circuitBreaker cfg now stamp tsend ctx)))
        = set_state HALF_OPEN (circuitOf s (circuits ctx))).
Proof.
  intros Hs Ho. split.
  - intros Hlt. pose proof (circuitBreaker_rejects cfg now stamp tsend ctx s Hs Ho Hlt) as E.
    repeat split; try (by rewrite E).
    + intros later. apply stack_stops. by rewrite E.
    + intros Hh. rewrite E. cbn [fst]. unfold res_json. by rewrite res_send_no_hooks.
  - intros Hge. rewrite (circuitBreaker_probes _ _ _ _ _ _ Hs Ho Hge).
    split; [done|]. apply circuitOf_insert.
Qed.

Lemma open_admission_check_witness :
  (snd (circuitBreaker defaultBreakerConfig 59999 "1970-01-01T00:00:59.999Z" 59999
          (arriving "/v1/identities/42" openRegistry)) = Ended
   /\ statusCode (res (fst (circuitBreaker defaultBreakerConfig 59999
          "1970-01-01T00:00:59.999Z" 59999
          (arriving "/v1/identities/42" openRegistry)))) = 503)
  /\ snd probeResult = Next.
Proof.
  destruct (open_admission_check defaultBreakerConfig 59999 "1970-01-01T00:00:59.999Z"
              59999 (arriving "/v1/identities/42" openRegistry) "identities")
    as [Hreject _]; [reflexivity | reflexivity |].
  destruct (open_admission_check defaultBreakerConfig 60000 "1970-01-01T00:01:00.000Z"
              60000 (arriving "/v1/identities/42" openRegistry) "identities")
    as [_ Hprobe]; [reflexivity | reflexivity |].
  split.
  - destruct Hreject as (H1 & H2 & _); [vm_compute; reflexivity|]. by split.
  - apply Hprobe. vm_compute. discriminate.
Defined.

(** C6. Recording a failure for a service whose circuit is CLOSED increments
    the failure count and opens the circuit exactly when the new count over
    10 is at least [errorThresholdPercentage] over 100; below that the
    circuit stays CLOSED; and every admission check while the circuit is
    CLOSED admits the request. *)
Theorem closed_failure_opens_at_threshold cfg now s cs :
  state (circuitOf s cs) = CLOSED ->
  failures (circuitOf s (recordFailure cfg now s cs)) = failures (circuitOf s cs) + 1
  /\ (state (circuitOf s (recordFailure cfg now s cs)) = OPEN
      <-> (errorThresholdPercentage cfg # 100
           <= failures (circuitOf s (recordFailure cfg now s cs)) # 10)%Q)
  /\ (~ (errorThresholdPercentage cfg # 100
         <= failures (circuitOf s (recordFailure cfg now s cs)) # 10)%Q
      -> state (circuitOf s (recordFailure cfg now s cs)) = CLOSED)
  /\ forall now' stamp tsend ctx,
       getServiceFromPath (path (req ctx)) = Some s ->
       circuits ctx = cs ->
       snd (circuitBreaker cfg now' stamp tsend ctx) = Next.
Proof.
  intros Hc. rewrite circuitOf_recordFailure, failed_failures, failed_state, Hc.
  split; [done|].
  fold (thresholdRate cfg).
  destruct (Qle_bool (thresholdRate cfg) (failures (circuitOf s cs) + 1 # 10)) eqn:E.
  - apply Qle_bool_iff in E. repeat split; try done.
    intros now' stamp tsend ctx Hs <-.
    by rewrite (circuitBreaker_passes _ _ _ _ _ _ Hs) by (rewrite Hc; done).
  - assert (~ (thresholdRate cfg <= failures (circuitOf s cs) + 1 # 10)%Q) as Hn.
    { rewrite <- Qle_bool_iff. by rewrite E. }
    repeat split; try done.
    intros now' stamp tsend ctx Hs <-.
    by rewrite (circuitBreaker_passes _ _ _ _ _ _ Hs) by (rewrite Hc; done).
Qed.

Lemma closed_failure_opens_at_threshold_witness :
  failures (circuitOf "identities"
              (recordFailure defaultBreakerConfig 9 "identities" closedRegistry)) = 5
  /\ state (circuitOf "identities"
              (recordFailure defaultBreakerConfig 9 "identities" closedRegistry)) = OPEN.
Proof.
  destruct (closed_failure_opens_at_threshold defaultBreakerConfig 9 "identities"
              closedRegistry) as (H1 & H2 & _); [reflexivity|].
  split; [exact H1|]. apply H2. vm_compute. discriminate.
Defined.

(** ** Runs of the process *)

Lemma run_reachable cfg evs sys sys' :
  reachable cfg sys -> run cfg evs sys = Some sys' -> reachable cfg sys'.
Proof.
  revert sys. induction evs as [|ev evs IH]; intros sys Hr Hrun; simpl in Hrun.
  - by simplify_eq.
  - destruct (step cfg ev sys) as [sys1|] eqn:E; [|done].
    eapply IH; [|exact Hrun]. by eapply reachable_step.
Qed.

(** C7, as stated, fails: this run reaches a HALF_OPEN circuit with failure
    count 3, and recording a failure (status 500) for it leaves it
    HALF_OPEN, with count 4 below the threshold of 5, instead of returning
    it to OPEN; the next admission check is admitted. *)
Lemma failed_probe_can_stay_half_open :
  run defaultBreakerConfig decayTrace initial = Some decayedSys
  /\ reachable defaultBreakerConfig decayedSys
  /\ state (circuitOf "identities" (registry decayedSys)) = HALF_OPEN
  /\ step defaultBreakerConfig (Sent "identities" 500 60020) decayedSys
     = Some {| registry := {[ "identities" :=
                 {| failures := 4; lastFailureTime := 60020; state := HALF_OPEN |} ]};
               inflight := [];
               clock := 60020 |}
  /\ state (circuitOf "identities"
              (recordFailure defaultBreakerConfig 60020 "identities" (registry decayedSys)))
     <> OPEN
  /\ snd (circuitBreaker defaultBreakerConfig 60021 "" 60021
            (arriving "/v1/identities"
               (recordFailure defaultBreakerConfig 60020 "identities"
                  (registry decayedSys)))) = Next.
Proof.
  assert (H : run defaultBreakerConfig decayTrace initial = Some decayedSys)
    by (vm_compute; reflexivity).
  split; [exact H|]. split.
  { eapply run_reachable; [apply reachable_initial | exact H]. }
  vm_compute. repeat split; congruence.
Qed.

Lemma runHook_success cfg now status s cs :
  status < 500 -> runHook cfg now status (TrackCircuit s) cs = recordSuccess s cs.
Proof. intros H. unfold runHook. by apply Z.leb_gt in H as ->. Qed.

Lemma runHook_failure cfg now status s cs :
  500 <= status -> runHook cfg now status (TrackCircuit s) cs = recordFailure cfg now s cs.
Proof. intros H. unfold runHook. by apply Z.leb_le in H as ->. Qed.

(** C7 (amended). For every circuit in HALF_OPEN phase: recording a success
    (response status below 500) moves it to CLOSED with the failure count
    reset to zero; recording a failure (status 500 or more) increments the
    failure count, sets [lastFailureTime], and returns the circuit to OPEN
    exactly when the new count over 10 reaches [errorThresholdPercentage]
    over 100, in which case admission checks before the reset timeout are
    rejected; below that ratio the circuit stays HALF_OPEN. *)
Theorem half_open_outcomes cfg now status s cs :
  state (circuitOf s cs) = HALF_OPEN ->
  (status < 500 ->
     circuitOf s (runHook cfg now status (TrackCircuit s) cs)
     = {| failures := 0;
          lastFailureTime := lastFailureTime (circuitOf s cs);
          state := CLOSED |})
  /\ (500 <= status ->
     failures (circuitOf s (runHook cfg now status (TrackCircuit s) cs))
       = failures (circuitOf s cs) + 1
     /\ lastFailureTime (circuitOf s (runHook cfg now status (TrackCircuit s) cs)) = now
     /\ ((errorThresholdPercentage cfg # 100 <= failures (circuitOf s cs) + 1 # 10)%Q ->
         state (circuitOf s (runHook cfg now status (TrackCircuit s) cs)) = OPEN
         /\ forall now' stamp tsend ctx,
              getServiceFromPath (path (req ctx)) = Some s ->
              circuits ctx = runHook cfg now status (TrackCircuit s) cs ->
              now' - now < resetTimeoutMs cfg ->
              snd (circuitBreaker cfg now' stamp tsend ctx) = Ended)
     /\ (~ (errorThresholdPercentage cfg # 100 <= failures (circuitOf s cs) + 1 # 10)%Q ->
         state (circuitOf s (runHook cfg now status (TrackCircuit s) cs)) = HALF_OPEN)).
Proof.
  intros Hh. split.
  - intros Hlt. rewrite runHook_success, circuitOf_recordSuccess by done.
    unfold succeeded. by rewrite Hh.
  - intros Hge. rewrite runHook_failure by done.
    rewrite circuitOf_recordFailure, failed_failures, failed_lastFailureTime, failed_state.
    fold (thresholdRate cfg). split; [done|]. split; [done|]. split.
    + intros Hle. apply Qle_bool_iff in Hle. rewrite Hle. split; [done|].
      intros now' stamp tsend ctx Hs Hc Hlt.
      rewrite (circuitBreaker_rejects _ _ _ _ _ _ Hs); [done| |].
      * by rewrite Hc, circuitOf_recordFailure, failed_state, Hle.
      * by rewrite Hc, circuitOf_recordFailure, failed_lastFailureTime.
    + intros Hn. rewrite <- Qle_bool_iff in Hn. apply not_true_is_false in Hn.
      by rewrite Hn.
Qed.

Lemma half_open_outcomes_witness :
  circuitOf "identities" (runHook defaultBreakerConfig 70000 200 (TrackCircuit "identities")
                            halfOpenRegistry)
    = {| failures := 0; lastFailureTime := 14; state := CLOSED |}
  /\ state (circuitOf "identities"
              (runHook defaultBreakerConfig 70000 502 (TrackCircuit "identities")
                 halfOpenRegistry)) = OPEN.
Proof.
  split.
  - apply (half_open_outcomes defaultBreakerConfig 70000 200 "identities" halfOpenRegistry);
      [reflexivity | lia].
  - destruct (half_open_outcomes defaultBreakerConfig 70000 502 "identities"
                halfOpenRegistry) as [_ H]; [reflexivity|].
    destruct H as (_ & _ & H & _); [lia|].
    apply H. vm_compute. discriminate.
Defined.

(** ** Non-negative failure counts *)

Lemma failures_nonneg_insert s c (cs : gmap string CircuitState) :
  failures_nonneg cs -> 0 <= failures c -> failures_nonneg (<[s := c]> cs).
Proof.
  intros Hcs Hc s' c'. destruct (decide (s = s')) as [->|Hne].
  - rewrite lookup_insert_eq. intros [= <-]. exact Hc.
  - rewrite lookup_insert_ne by done. apply Hcs.
Qed.

Lemma failures_nonneg_circuitOf s cs :
  failures_nonneg cs -> 0 <= failures (circuitOf s cs).
Proof.
  intros Hcs. rewrite circuitOf_lookup.
  destruct (cs !! s) as [c|] eqn:E; simpl; [by eapply Hcs | done].
Qed.

Lemma failures_nonneg_recordSuccess s cs :
  failures_nonneg cs -> failures_nonneg (recordSuccess s cs).
Proof.
  intros Hcs. rewrite recordSuccess_insert.
  apply failures_nonneg_insert; [done | apply succeeded_failures_nonneg].
Qed.

Lemma failures_nonneg_recordFailure cfg now s cs :
  failures_nonneg cs -> failures_nonneg (recordFailure cfg now s cs).
Proof.
  intros Hcs. rewrite recordFailure_insert.
  apply failures_nonneg_insert; [done|].
  rewrite failed_failures. pose proof (failures_nonneg_circuitOf s cs Hcs). lia.
Qed.

Lemma failures_nonneg_runHook cfg now status h cs :
  failures_nonneg cs -> failures_nonneg (runHook cfg now status h cs).
Proof.
  intros Hcs. destruct h as [s]. unfold runHook. case_match.
  - by apply failures_nonneg_recordFailure.
  - by apply failures_nonneg_recordSuccess.
Qed.

Lemma failures_nonneg_res_send cfg now data ctx :
  failures_nonneg (circuits ctx) -> failures_nonneg (circuits (res_send cfg now data ctx)).
Proof.
  unfold res_send. cbn [circuits].
  generalize (circuits ctx). induction (sendHooks (res ctx)) as [|h hs IH]; intros cs Hcs.
  - exact Hcs.
  - simpl. apply IH. by apply failures_nonneg_runHook.
Qed.

Lemma failures_nonneg_circuitBreaker cfg now stamp tsend ctx :
  failures_nonneg (circuits ctx) ->
  failures_nonneg (circuits (fst (circuitBreaker cfg now stamp tsend ctx))).
Proof.
  intros Hcs.
  destruct (getServiceFromPath (path (req ctx))) as [s|] eqn:Hs.
  2: { by rewrite circuitBreaker_no_service. }
  pose proof (failures_nonneg_circuitOf s _ Hcs) as Hc.
  destruct (decide (state (circuitOf s (circuits ctx)) = OPEN)) as [Ho|Hn].
  - destruct (Z.lt_ge_cases (now - lastFailureTime (circuitOf s (circuits ctx)))
                            (resetTimeoutMs cfg)) as [Hlt|Hge].
    + rewrite (circuitBreaker_rejects _ _ _ _ _ _ Hs Ho Hlt). cbn [fst].
      by apply failures_nonneg_res_send.
    + rewrite (circuitBreaker_probes _ _ _ _ _ _ Hs Ho Hge). cbn.
      by apply failures_nonneg_insert.
  - rewrite (circuitBreaker_passes _ _ _ _ _ _ Hs Hn). cbn.
    by apply failures_nonneg_insert.
Qed.

Lemma failures_nonneg_step cfg ev sys sys' :
  step cfg ev sys = Some sys' ->
  failures_nonneg (registry sys) -> failures_nonneg (registry sys').
Proof.
  destruct ev as [p now stamp | s status now]; simpl; intros Hstep Hcs.
  - case_match; simplify_eq. cbn [registry].
    by apply (failures_nonneg_circuitBreaker cfg now stamp now (arriving p (registry sys))).
  - case_match; simplify_eq. cbn [registry].
    by apply (failures_nonneg_runHook cfg now status (TrackCircuit s)).
Qed.

Lemma iter_recordSuccess_nonneg n s cs :
  0 <= failures (circuitOf s cs) ->
  0 <= failures (circuitOf s (Nat.iter n (recordSuccess s) cs)).
Proof.
  intros H. induction n as [|n IH]; simpl; [done|].
  rewrite circuitOf_recordSuccess. apply succeeded_failures_nonneg.
Qed.

(** C8. For a circuit in CLOSED phase, recording a success sets the failure
    count to [max(0, failures - 1)]; recording successes any number of times
    never drives the count below 0; and a non-negative failure count is
    preserved by each operation on the registry (recording a success,
    recording a failure, an admission check), hence holds in every state
    the process reaches. *)
Theorem failure_count_never_negative cfg :
  (forall s cs,
     state (circuitOf s cs) = CLOSED ->
     circuitOf s (recordSuccess s cs)
     = set_failures (Z.max 0 (failures (circuitOf s cs) - 1)) (circuitOf s cs))
  /\ (forall n s cs,
        0 <= failures (circuitOf s cs) ->
        0 <= failures (circuitOf s (Nat.iter n (recordSuccess s) cs)))
  /\ (forall s cs, failures_nonneg cs -> failures_nonneg (recordSuccess s cs))
  /\ (forall now s cs, failures_nonneg cs -> failures_nonneg (recordFailure cfg now s cs))
  /\ (forall now stamp tsend ctx,
        failures_nonneg (circuits ctx) ->
        failures_nonneg (circuits (fst (circuitBreaker cfg now stamp tsend ctx))))
  /\ (forall sys, reachable cfg sys -> failures_nonneg (registry sys)).
Proof.
  split; [|split; [|split; [|split; [|split]]]].
  - intros s cs Hc. rewrite circuitOf_recordSuccess. unfold succeeded. by rewrite Hc.
  - intros n s cs. apply iter_recordSuccess_nonneg.
  - intros s cs. apply failures_nonneg_recordSuccess.
  - intros now s cs. apply failures_nonneg_recordFailure.
  - intros now stamp tsend ctx. apply failures_nonneg_circuitBreaker.
  - intros sys Hr. induction Hr as [|sys ev sys' _ IH Hstep].
    + intros s c. unfold initial. cbn [registry]. by rewrite lookup_empty.
    + by eapply failures_nonneg_step.
Qed.

Lemma failure_count_never_negative_witness :
  circuitOf "identities" (recordSuccess "identities" oneFailureRegistry)
    = {| failures := 0; lastFailureTime := 7; state := CLOSED |}
  /\ 0 <= failures (circuitOf "identities"
                      (Nat.iter 2 (recordSuccess "identities") oneFailureRegistry))
  /\ failures_nonneg (registry decayedSys).
Proof.
  destruct (failure_count_never_negative defaultBreakerConfig)
    as (H1 & H2 & _ & _ & _ & H6).
  split; [|split].
  - apply (H1 "identities" oneFailureRegistry). reflexivity.
  - apply (H2 2%nat "identities" oneFailureRegistry). vm_compute. discriminate.
  - apply H6. eapply run_reachable; [apply reachable_initial|].
    instantiate (1 := decayTrace). vm_compute. reflexivity.
Defined.

(** ** The OPEN phase *)

Lemma open_recordSuccess s s' cs :
  state (circuitOf s cs) = OPEN -> state (circuitOf s (recordSuccess s' cs)) = OPEN.
Proof.
  intros Ho. destruct (decide (s' = s)) as [->|Hne].
  - rewrite circuitOf_recordSuccess. unfold succeeded. by rewrite Ho.
  - by rewrite circuitOf_recordSuccess_ne.
Qed.

Lemma open_recordFailure cfg now s s' cs :
  state (circuitOf s cs) = OPEN -> state (circuitOf s (recordFailure cfg now s' cs)) = OPEN.
Proof.
  intros Ho. destruct (decide (s' = s)) as [->|Hne].
  - rewrite circuitOf_recordFailure, failed_state, Ho. by case_match.
  - by rewrite circuitOf_recordFailure_ne.
Qed.

(** C10. For a circuit in OPEN phase, recording an outcome never changes
    the phase: recording a success only decrements the failure count,
    floored at zero, and recording a failure leaves the circuit OPEN; the
    only event after which the circuit is no longer OPEN is an admission
    check for that service once the reset timeout has elapsed, and such a
    check leaves the circuit HALF_OPEN. *)
Theorem open_phase_left_only_by_probe cfg s cs :
  state (circuitOf s cs) = OPEN ->
  circuitOf s (recordSuccess s cs)
    = {| failures := Z.max 0 (failures (circuitOf s cs) - 1);
         lastFailureTime := lastFailureTime (circuitOf s cs);
         state := OPEN |}
  /\ (forall now, state (circuitOf s (recordFailure cfg now s cs)) = OPEN)
  /\ (forall sys ev sys',
        registry sys = cs ->
        step cfg ev sys = Some sys' ->
        state (circuitOf s (registry sys')) = OPEN
        \/ (state (circuitOf s (registry sys')) = HALF_OPEN
            /\ exists p now stamp,
                 ev = Admission p now stamp
                 /\ getServiceFromPath p = Some s
                 /\ resetTimeoutMs cfg <= now - lastFailureTime (circuitOf s cs)))
  /\ (forall now stamp tsend ctx,
        getServiceFromPath (path (req ctx)) = Some s ->
        circuits ctx = cs ->
        resetTimeoutMs cfg <= now - lastFailureTime (circuitOf s cs) ->
        state (circuitOf s (circuits (fst (circuitBreaker cfg now stamp tsend ctx))))
        = HALF_OPEN).
Proof.
  intros Ho. split; [|split; [|split]]; cycle 3.
  { intros now stamp tsend ctx Hs <- Hge.
    rewrite (circuitBreaker_probes _ _ _ _ _ _ Hs Ho Hge). cbn.
    by rewrite circuitOf_insert. }
  - rewrite circuitOf_recordSuccess. unfold succeeded, set_failures. by rewrite Ho.
  - intros now. by apply open_recordFailure.
  - intros sys ev sys' <- Hstep.
    destruct ev as [p now stamp | s' status now]; simpl in Hstep.
    + destruct (clock sys <=? now); [|done]. simplify_eq. cbn [registry].
      rewrite circuitBreaker_circuitOf by done. cbn [arriving req circuits path url].
      rewrite Ho. case_bool_decide as Hp; cbn [andb].
      * rewrite bool_decide_eq_true_2 by done. cbn [andb].
        destruct (Z.leb_spec (resetTimeoutMs cfg)
                    (now - lastFailureTime (circuitOf s (registry sys)))) as [Hge|Hlt].
        -- right. split; [done|]. by exists p, now, stamp.
        -- by left.
      * by left.
    + destruct (_ && _); [|done]. simplify_eq. cbn [registry]. left.
      unfold runHook. case_match.
      * by apply open_recordFailure.
      * by apply open_recordSuccess.
Qed.

Lemma open_phase_left_only_by_probe_witness :
  circuitOf "identities" (recordSuccess "identities" openRegistry)
    = {| failures := 4; lastFailureTime := 0; state := OPEN |}
  /\ state (circuitOf "identities"
              (recordFailure defaultBreakerConfig 100 "identities" openRegistry)) = OPEN
  /\ (state (circuitOf "identities" (circuits (fst probeResult))) = OPEN
      \/ (state (circuitOf "identities" (circuits (fst probeResult))) = HALF_OPEN
          /\ exists p now stamp,
               Admission "/v1/identities/42" 60000 "1970-01-01T00:01:00.000Z"
                 = Admission p now stamp
               /\ getServiceFromPath p = Some "identities"
               /\ resetTimeoutMs defaultBreakerConfig
                  <= now - lastFailureTime (circuitOf "identities" openRegistry))).
Proof.
  destruct (open_phase_left_only_by_probe defaultBreakerConfig "identities" openRegistry)
    as (H1 & H2 & H3 & _); [reflexivity|].
  split; [exact H1|]. split; [apply H2|].
  apply (H3 {| registry := openRegistry; inflight := []; clock := 0 |}
            (Admission "/v1/identities/42" 60000 "1970-01-01T00:01:00.000Z")
            {| registry := circuits (fst probeResult);
               inflight := ["identities"]; clock := 60000 |}).
  - reflexivity.
  - vm_compute. reflexivity.
Defined.

(** ** Authentication *)

Lemma tokenOf_truthy hdr token : tokenOf hdr = Some token -> Js.truthy (Some hdr) = true.
Proof. destruct hdr; [discriminate | done]. Qed.

Lemma reject_body cfg tsend code e m stamp ctx :
  body (res (reject cfg tsend code e m stamp ctx)) = Some (Envelope e m (Some stamp)).
Proof. done. Qed.

Lemma reject_statusCode cfg tsend code e m stamp ctx :
  statusCode (res (reject cfg tsend code e m stamp ctx)) = code.
Proof. done. Qed.

Section Authentication.

Context (cfg : BreakerConfig) (verify : string -> VerifyResult).
Context (stamp : string) (tsend : Z).

(** [jwtAuth] catches whatever [jwt.verify] throws: it never throws itself
    and never forwards. *)
Lemma jwtAuth_flow ctx :
  snd (jwtAuth cfg verify stamp tsend ctx) = Next
  \/ snd (jwtAuth cfg verify stamp tsend ctx) = Ended.
Proof. unfold jwtAuth. repeat case_match; auto. Qed.

(** With a header present, [optionalAuth] is [jwtAuth]: its [catch] never
    runs. *)
Lemma optionalAuth_with_header ctx :
  Js.truthy (authorization (req ctx)) = true ->
  optionalAuth cfg verify stamp tsend ctx = jwtAuth cfg verify stamp tsend ctx.
Proof.
  intros H. unfold optionalAuth. rewrite H.
  destruct (jwtAuth_flow ctx) as [E|E];
    destruct (jwtAuth cfg verify stamp tsend ctx) as [ctx' f]; simpl in E; by subst.
Qed.

(** Without a header, [optionalAuth] passes the request on untouched. *)
Lemma optionalAuth_without_header ctx :
  Js.truthy (authorization (req ctx)) = false ->
  optionalAuth cfg verify stamp tsend ctx = (ctx, Next).
Proof. intros H. unfold optionalAuth. by rewrite H. Qed.

(** What [jwtAuth] answers when [jwt.verify] throws. *)
Lemma jwtAuth_on_throw ctx hdr token e :
  authorization (req ctx) = Some hdr ->
  tokenOf hdr = Some token ->
  verify token = Throws e ->
  jwtAuth cfg verify stamp tsend ctx
  = if instanceof_JsonWebTokenError e
    then (reject cfg tsend 401 "Unauthorized" "Invalid token" stamp ctx, Ended)
    else (reject cfg tsend 500 "Internal Server Error" "Authentication service error"
                 stamp ctx, Ended).
Proof.
  intros Hh Ht Hv. unfold jwtAuth.
  rewrite Hh, (tokenOf_truthy _ _ Ht). cbn [negb from_option Datatypes.id]. rewrite Ht, Hv.
  by destruct e.
Qed.

(** The branch of [jwtAuth] that answers 'Token expired' is unreachable:
    whatever the request and whatever [jwt.verify] does, that message is
    never sent. *)
Lemma jwtAuth_never_reports_expiry ctx error' stamp' :
  snd (jwtAuth cfg verify stamp tsend ctx) = Ended ->
  body (res (fst (jwtAuth cfg verify stamp tsend ctx)))
  <> Some (Envelope error' "Token expired" stamp').
Proof.
  unfold jwtAuth.
  repeat case_match; cbn [fst snd]; intros ?; rewrite ?reject_body; try discriminate.
  match goal with
  | E : instanceof_JsonWebTokenError ?e = false |- _ => by destruct e
  end.
Qed.

End Authentication.

(** C3, as stated, fails: at clock 2000 the token [forged.jwt] has its [exp]
    claim (1900) in the past and a signature that does not verify;
    [jwtAuth] answers 401 with message 'Invalid token', not 'Token
    expired'. *)
Lemma expired_forged_token_reported_invalid :
  exp (claims (sampleParse "forged.jwt")) < 2000
  /\ signatureValid (sampleParse "forged.jwt") = false
  /\ snd (jwtAuth defaultBreakerConfig (jwt_verify sampleParse 2000)
            "1970-01-01T00:33:20.003Z" 2000003 (bearer "forged.jwt")) = Ended
  /\ statusCode (res (fst (jwtAuth defaultBreakerConfig (jwt_verify sampleParse 2000)
            "1970-01-01T00:33:20.003Z" 2000003 (bearer "forged.jwt")))) = 401
  /\ body (res (fst (jwtAuth defaultBreakerConfig (jwt_verify sampleParse 2000)
            "1970-01-01T00:33:20.003Z" 2000003 (bearer "forged.jwt"))))
     = Some (Envelope "Unauthorized" "Invalid token" (Some "1970-01-01T00:33:20.003Z"))
  /\ body (res (fst (jwtAuth defaultBreakerConfig (jwt_verify sampleParse 2000)
            "1970-01-01T00:33:20.003Z" 2000003 (bearer "forged.jwt"))))
     <> Some (Envelope "Unauthorized" "Token expired" (Some "1970-01-01T00:33:20.003Z")).
Proof. vm_compute. repeat split; congruence. Qed.

(** The same answer is given to an expired token whose signature does
    verify: the test for [JsonWebTokenError] comes first and
    [TokenExpiredError] is an instance of it. *)
Lemma expired_signed_token_reported_invalid :
  signatureValid (sampleParse "signed.jwt") = true
  /\ jwt_verify sampleParse 2000 "signed.jwt" = Throws TokenExpiredError
  /\ body (res (fst (jwtAuth defaultBreakerConfig (jwt_verify sampleParse 2000)
            "1970-01-01T00:33:20.003Z" 2000003 (bearer "signed.jwt"))))
     = Some (Envelope "Unauthorized" "Invalid token" (Some "1970-01-01T00:33:20.003Z")).
Proof. vm_compute. repeat split; congruence. Qed.

(** C3 (amended). For every token whose [exp] claim is in the past, presented
    under either scheme, [jwtAuth] ends the request with status 401 and
    error 'Unauthorized' and does not call [next()]; when the token is
    malformed or its signature does not verify, the message is 'Invalid
    token', whether or not the token has expired. *)
Theorem expired_token_rejected cfg parse clock stamp tsend ctx hdr token :
  authorization (req ctx) = Some hdr ->
  tokenOf hdr = Some token ->
  exp (claims (parse token)) < clock ->
  snd (jwtAuth cfg (jwt_verify parse clock) stamp tsend ctx) = Ended
  /\ statusCode (res (fst (jwtAuth cfg (jwt_verify parse clock) stamp tsend ctx))) = 401
  /\ (exists message,
        body (res (fst (jwtAuth cfg (jwt_verify parse clock) stamp tsend ctx)))
        = Some (Envelope "Unauthorized" message (Some stamp)))
  /\ (wellFormed (parse token) = false \/ signatureValid (parse token) = false ->
      body (res (fst (jwtAuth cfg (jwt_verify parse clock) stamp tsend ctx)))
      = Some (Envelope "Unauthorized" "Invalid token" (Some stamp))).
Proof.
  intros Hh Ht Hexp.
  assert (exists e, jwt_verify parse clock token = Throws e
                    /\ instanceof_JsonWebTokenError e = true
                    /\ (wellFormed (parse token) = false
                        \/ signatureValid (parse token) = false
                        -> e = JsonWebTokenError)) as (e & Hv & He & _).
  { unfold jwt_verify.
    destruct (wellFormed (parse token)); cbn [negb];
      [|exists JsonWebTokenError; by repeat split].
    destruct (signatureValid (parse token)); cbn [negb];
      [|exists JsonWebTokenError; by repeat split].
    apply Z.lt_le_incl, Z.leb_le in Hexp as ->.
    exists TokenExpiredError. repeat split; try done. by intros [|]. }
  rewrite (jwtAuth_on_throw _ _ _ _ _ _ _ _ Hh Ht Hv), He. cbn [fst snd].
  rewrite reject_body, reject_statusCode. repeat split; try done. by eexists.
Qed.

Lemma expired_token_rejected_witness :
  snd (jwtAuth defaultBreakerConfig (jwt_verify sampleParse 2000)
         "1970-01-01T00:33:20.003Z" 2000003 (bearer "forged.jwt")) = Ended
  /\ statusCode (res (fst (jwtAuth defaultBreakerConfig (jwt_verify sampleParse 2000)
         "1970-01-01T00:33:20.003Z" 2000003 (bearer "forged.jwt")))) = 401
  /\ body (res (fst (jwtAuth defaultBreakerConfig (jwt_verify sampleParse 2000)
         "1970-01-01T00:33:20.003Z" 2000003 (bearer "forged.jwt"))))
     = Some (Envelope "Unauthorized" "Invalid token" (Some "1970-01-01T00:33:20.003Z")).
Proof.
  destruct (expired_token_rejected defaultBreakerConfig sampleParse 2000
              "1970-01-01T00:33:20.003Z" 2000003 (bearer "forged.jwt")
              "Bearer forged.jwt" "forged.jwt") as (H1 & H2 & _ & H4).
  - reflexivity.
  - reflexivity.
  - vm_compute. reflexivity.
  - split; [exact H1|]. split; [exact H2|]. apply H4. right. reflexivity.
Defined.

(** C4: the code does not do what the claim says for a header that fails
    validation. On the optional-auth route [/v1/auth], a request whose
    [Authorization] header has an unknown scheme is answered 401 by
    [optionalAuth], which does not call [next()]; the gateway as a whole
    answers 401 and does not forward the request. A request without the
    header passes through with no identity. *)
Theorem optionalAuth_answers_401_on_bad_header :
  snd (optionalAuth defaultBreakerConfig (jwt_verify sampleParse 1000)
         "1970-01-01T00:33:20.003Z" 2000003
         (inbound (get "/v1/auth/login" (Some "Basic dXNlcjpwdw==") None) ∅)) = Ended
  /\ statusCode (res (fst (optionalAuth defaultBreakerConfig (jwt_verify sampleParse 1000)
         "1970-01-01T00:33:20.003Z" 2000003
         (inbound (get "/v1/auth/login" (Some "Basic dXNlcjpwdw==") None) ∅)))) = 401
  /\ body (res (fst (optionalAuth defaultBreakerConfig (jwt_verify sampleParse 1000)
         "1970-01-01T00:33:20.003Z" 2000003
         (inbound (get "/v1/auth/login" (Some "Basic dXNlcjpwdw==") None) ∅))))
     = Some (Envelope "Unauthorized" "Invalid authorization header format"
               (Some "1970-01-01T00:33:20.003Z"))
  /\ snd (handle (sampleEnv false 1000)
            (get "/v1/auth/login" (Some "Basic dXNlcjpwdw==") None) ∅) = Ended
  /\ statusCode (res (fst (handle (sampleEnv false 1000)
            (get "/v1/auth/login" (Some "Basic dXNlcjpwdw==") None) ∅))) = 401
  /\ snd (handle (sampleEnv false 1000)
            (get "/v1/auth/login" (Some "Bearer forged.jwt") None) ∅) = Ended
  /\ (exists p, snd (handle (sampleEnv false 1000) (get "/v1/auth/login" None None) ∅)
                = Forwarded p /\ proxy_x_user_id p = None).
Proof.
  vm_compute. repeat split; try congruence. eexists. split; reflexivity.
Qed.

(** ** The request identifier through the stack *)

Lemma carries_res_send cfg now data rid ctx :
  carries rid ctx -> carries rid (res_send cfg now data ctx).
Proof. by intros (? & ? & ?). Qed.

Lemma carries_reject cfg tsend code e m stamp rid ctx :
  carries rid ctx -> carries rid (reject cfg tsend code e m stamp ctx).
Proof. by intros (? & ? & ?). Qed.

Lemma keeps_id_circuitBreaker cfg now stamp tsend :
  keeps_id (circuitBreaker cfg now stamp tsend).
Proof.
  intros rid ctx (H1 & H2 & H3). unfold circuitBreaker.
  repeat case_match; cbn; by repeat split.
Qed.

Lemma keeps_id_jwtAuth cfg verify stamp tsend : keeps_id (jwtAuth cfg verify stamp tsend).
Proof.
  intros rid ctx (H1 & H2 & H3). unfold jwtAuth.
  repeat case_match; cbn; by repeat split.
Qed.

Lemma keeps_id_optionalAuth cfg verify stamp tsend :
  keeps_id (optionalAuth cfg verify stamp tsend).
Proof.
  intros rid ctx Hc. destruct (Js.truthy (authorization (req ctx))) eqn:E.
  - rewrite optionalAuth_with_header by done. by apply keeps_id_jwtAuth.
  - rewrite optionalAuth_without_header by done. by split.
Qed.

Lemma keeps_id_proxy env tgt : keeps_id (proxy env tgt).
Proof.
  intros rid ctx (H1 & H2 & H3). split; [done|].
  intros p [= <-]. cbn. unfold requestIdOf. by rewrite H2, H3.
Qed.

Lemma keeps_id_healthRoutes env : keeps_id (healthRoutes env).
Proof.
  intros rid ctx (H1 & H2 & H3). unfold healthRoutes. case_match; cbn; by repeat split.
Qed.

Lemma keeps_id_apiInfo env : keeps_id (apiInfo env).
Proof.
  intros rid ctx (H1 & H2 & H3). unfold apiInfo. case_match; cbn; by repeat split.
Qed.

Lemma keeps_id_notFound env : keeps_id (notFound env).
Proof. intros rid ctx (H1 & H2 & H3). cbn. by repeat split. Qed.

Lemma keeps_id_andThen h1 h2 : keeps_id h1 -> keeps_id h2 -> keeps_id (andThen h1 h2).
Proof.
  intros K1 K2 rid ctx Hc. unfold andThen.
  destruct (K1 rid ctx Hc) as [Hc1 Hp1].
  destruct (h1 ctx) as [ctx1 f1]; cbn [fst snd] in *.
  destruct f1; try by split.
  by apply K2.
Qed.

Lemma keeps_id_use mount h : keeps_id h -> keeps_id (use mount h).
Proof.
  intros K rid ctx Hc. unfold use.
  destruct (mount_strip mount (url (req ctx))) as [u|]; [|by split].
  assert (carries rid (set_url u ctx)) as Hc' by (destruct Hc as (? & ? & ?); by repeat split).
  destruct (K rid _ Hc') as [Hc1 Hp1].
  destruct (h (set_url u ctx)) as [ctx1 f1]; cbn [fst snd] in *.
  destruct Hc1 as (? & ? & ?). destruct f1; by repeat split.
Qed.

Lemma keeps_id_stack hs : Forall keeps_id hs -> keeps_id (stack hs).
Proof.
  induction 1 as [|h hs Hh _ IH]; simpl.
  - intros rid ctx Hc. by split.
  - by apply keeps_id_andThen.
Qed.

Lemma freshRequestId_truthy now rnd : Js.truthy (Some (freshRequestId now rnd)) = true.
Proof. done. Qed.

Lemma requestIdOf_truthy now rnd r : Js.truthy (Some (requestIdOf now rnd r)) = true.
Proof.
  unfold requestIdOf. destruct (x_request_id r) as [v|]; [|done].
  by destruct (Js.truthy (Some v)) eqn:E.
Qed.

Lemma handle_limited env i cs :
  rateLimited env = true ->
  handle env i cs
  = (res_send (breakerConfig env) (nowSend env)
       (Envelope "Too many requests" "Rate limit exceeded" None)
       (res_status 429 (inbound i cs)), Ended).
Proof.
  intros H. unfold handle, layers. cbn [initializeMiddleware app stack].
  unfold andThen at 1. unfold rateLimiter. by rewrite H.
Qed.

Lemma handle_passes_limiter env i cs :
  rateLimited env = false ->
  handle env i cs = stack (breakerLayer env :: afterBreaker env) (validated env i cs).
Proof.
  intros H. unfold handle, layers. cbn [initializeMiddleware app stack].
  unfold andThen at 1. unfold rateLimiter. by rewrite H.
Qed.

Create HintDb layers discriminated.

#[local] Hint Constructors Forall : layers.

#[local] Hint Resolve keeps_id_use keeps_id_andThen keeps_id_circuitBreaker
  keeps_id_jwtAuth keeps_id_optionalAuth keeps_id_proxy keeps_id_healthRoutes
  keeps_id_apiInfo keeps_id_notFound : layers.

Lemma keeps_id_routes env : keeps_id (stack (breakerLayer env :: afterBreaker env)).
Proof.
  apply keeps_id_stack.
  unfold breakerLayer, afterBreaker, initializeRoutes, initializeErrorHandling,
    setupServiceProxy. cbn [app].
  auto 20 with layers nocore.
Qed.

(** C9, as stated, fails: a request over the rate limit is answered 429 by
    the rate limiter, which runs before [requestValidator]; no identifier
    is assigned, and the inbound [X-Request-ID] is not set on the
    response. *)
Lemma rate_limited_request_gets_no_id :
  snd (handle (sampleEnv true 1000) (get "/v1/identities/42" None (Some "abc-123")) ∅)
    = Ended
  /\ statusCode (res (fst (handle (sampleEnv true 1000)
                             (get "/v1/identities/42" None (Some "abc-123")) ∅))) = 429
  /\ res_x_request_id (res (fst (handle (sampleEnv true 1000)
                             (get "/v1/identities/42" None (Some "abc-123")) ∅))) = None
  /\ res_x_request_id (res (fst (handle (sampleEnv true 1000)
                             (get "/v1/identities/42" None None) ∅))) = None
  /\ x_request_id (req (fst (handle (sampleEnv true 1000)
                             (get "/v1/identities/42" None None) ∅))) = None.
Proof. vm_compute. repeat split; congruence. Qed.

(** C9 (amended). Every request that passes the rate limiter, whether it is
    then forwarded or answered by the gateway at any later stage, is
    assigned a request identifier: the inbound [X-Request-ID] header value
    when the header is present and not empty, otherwise a fresh identifier
    [req_<unixMillis>_<randomSuffix>]; that identifier is set on the
    response's [X-Request-ID] header and on the request, and it is the
    [X-Request-ID] header of the forwarded downstream request. *)
Theorem request_id_assigned env i cs :
  rateLimited env = false ->
  (forall v, in_x_request_id i = Some v -> v <> "" -> assignedId env i = v)
  /\ (in_x_request_id i = None \/ in_x_request_id i = Some "" ->
      assignedId env i
      = "req_" +:+ Js.show_int (nowValidator env) +:+ "_" +:+ rndValidator env)
  /\ res_x_request_id (res (fst (handle env i cs))) = Some (assignedId env i)
  /\ x_request_id (req (fst (handle env i cs))) = Some (assignedId env i)
  /\ forall p, snd (handle env i cs) = Forwarded p ->
               proxy_x_request_id p = assignedId env i.
Proof.
  intros Hrl. split; [|split].
  - intros v Hv Hne. unfold assignedId, requestIdOf. cbn. rewrite Hv.
    destruct v; [done|done].
  - intros [H|H]; unfold assignedId, requestIdOf; cbn; by rewrite H.
  - rewrite (handle_passes_limiter _ _ _ Hrl).
    destruct (keeps_id_routes env (assignedId env i) (validated env i cs))
      as [(H1 & H2 & _) H3].
    + unfold carries, assignedId. cbn. repeat split. apply requestIdOf_truthy.
    + split; [exact H1 | split; [exact H2 | exact H3]].
Qed.

Lemma request_id_assigned_witness :
  res_x_request_id (res (fst (handle (sampleEnv false 1000)
                                (get "/v1/auth/login" None None) ∅)))
    = Some "req_2000000_k3x9q2m1z"
  /\ res_x_request_id (res (fst (handle (sampleEnv false 1000)
                                   (get "/v1/identities/42" None (Some "abc-123")) ∅)))
     = Some "abc-123".
Proof.
  split.
  - destruct (request_id_assigned (sampleEnv false 1000) (get "/v1/auth/login" None None) ∅)
      as (_ & H2 & H3 & _); [reflexivity|].
    rewrite H3, H2; [reflexivity | left; reflexivity].
  - destruct (request_id_assigned (sampleEnv false 1000)
                (get "/v1/identities/42" None (Some "abc-123")) ∅)
      as (H1 & _ & H3 & _); [reflexivity|].
    rewrite H3, (H1 "abc-123"); [reflexivity | reflexivity | discriminate].
Defined.

(** ** Responses and the registry *)

Lemma sends_once_jwtAuth cfg verify stamp tsend :
  sends_once cfg tsend (jwtAuth cfg verify stamp tsend).
Proof. intros ctx. unfold jwtAuth. repeat case_match; by split. Qed.

Lemma sends_once_optionalAuth cfg verify stamp tsend :
  sends_once cfg tsend (optionalAuth cfg verify stamp tsend).
Proof.
  intros ctx. destruct (Js.truthy (authorization (req ctx))) eqn:E.
  - rewrite optionalAuth_with_header by done. apply sends_once_jwtAuth.
  - rewrite optionalAuth_without_header by done. by split.
Qed.

Lemma sends_once_proxy env tgt : sends_once (breakerConfig env) (nowSend env) (proxy env tgt).
Proof. intros ctx. by split. Qed.

Lemma sends_once_healthRoutes env :
  sends_once (breakerConfig env) (nowSend env) (healthRoutes env).
Proof. intros ctx. unfold healthRoutes. case_match; by split. Qed.

Lemma sends_once_apiInfo env : sends_once (breakerConfig env) (nowSend env) (apiInfo env).
Proof. intros ctx. unfold apiInfo. case_match; by split. Qed.

Lemma sends_once_notFound env : sends_once (breakerConfig env) (nowSend env) (notFound env).
Proof. intros ctx. by split. Qed.

Lemma sends_once_andThen cfg tsend h1 h2 :
  sends_once cfg tsend h1 -> sends_once cfg tsend h2 -> sends_once cfg tsend (andThen h1 h2).
Proof.
  intros S1 S2 ctx. unfold andThen.
  destruct (S1 ctx) as [Hh1 Hc1].
  destruct (h1 ctx) as [ctx1 f1]; cbn [fst snd] in *.
  destruct f1; try by split.
  destruct (S2 ctx1) as [Hh2 Hc2]. rewrite Hh2, Hc2, Hh1, Hc1. by split.
Qed.

Lemma sends_once_use cfg tsend mount h :
  sends_once cfg tsend h -> sends_once cfg tsend (use mount h).
Proof.
  intros S ctx. unfold use.
  destruct (mount_strip mount (url (req ctx))) as [u|]; [|by split].
  destruct (S (set_url u ctx)) as [Hh Hc].
  destruct (h (set_url u ctx)) as [ctx1 f1]; cbn [fst snd] in *.
  destruct f1; by split.
Qed.

Lemma sends_once_stack cfg tsend hs :
  Forall (sends_once cfg tsend) hs -> sends_once cfg tsend (stack hs).
Proof.
  induction 1 as [|h hs Hh _ IH]; simpl.
  - intros ctx. by split.
  - by apply sends_once_andThen.
Qed.

#[local] Hint Resolve sends_once_use sends_once_andThen sends_once_jwtAuth
  sends_once_optionalAuth sends_once_proxy sends_once_healthRoutes sends_once_apiInfo
  sends_once_notFound : layers.

Lemma sends_once_afterBreaker env :
  sends_once (breakerConfig env) (nowSend env) (stack (afterBreaker env)).
Proof.
  apply sends_once_stack.
  unfold afterBreaker, initializeRoutes, initializeErrorHandling, setupServiceProxy.
  cbn [app].
  auto 20 with layers nocore.
Qed.

(** The admission check as the stack runs it, on a response without
    wrappers: either it installs nothing and leaves the registry alone, or
    it admits the request for a service and installs that service's
    wrapper. *)
Lemma breakerLayer_cases env ctx :
  sendHooks (res ctx) = [] ->
  (sendHooks (res (fst (breakerLayer env ctx))) = []
   /\ circuits (fst (breakerLayer env ctx)) = circuits ctx)
  \/ (exists u s,
        mount_strip "/v1" (url (req ctx)) = Some u
        /\ getServiceFromPath u = Some s
        /\ snd (breakerLayer env ctx) = Next
        /\ sendHooks (res (fst (breakerLayer env ctx))) = [TrackCircuit s]
        /\ circuits (fst (breakerLayer env ctx))
           = <[s := probed (circuitOf s (circuits ctx))]> (circuits ctx)).
Proof.
  intros Hh. unfold breakerLayer, use.
  destruct (mount_strip "/v1" (url (req ctx))) as [u|] eqn:Hm; [|by left].
  destruct (getServiceFromPath u) as [s|] eqn:Hs.
  2: { rewrite circuitBreaker_no_service by done. by left. }
  assert (Hs' : getServiceFromPath (path (req (set_url u ctx))) = Some s) by done.
  destruct (decide (state (circuitOf s (circuits ctx)) = OPEN)) as [Ho|Hn].
  - destruct (Z.lt_ge_cases
                (nowBreaker env - lastFailureTime (circuitOf s (circuits ctx)))
                (resetTimeoutMs (breakerConfig env))) as [Hlt|Hge].
    + rewrite (circuitBreaker_rejects _ _ _ _ _ _ Hs' Ho Hlt). left.
      cbn [fst]. unfold res_json. rewrite res_send_no_hooks by done. by split.
    + rewrite (circuitBreaker_probes _ _ _ _ _ _ Hs' Ho Hge). right.
      exists u, s. cbn. rewrite Hh. unfold probed. cbn in Ho. rewrite Ho.
      by repeat split.
  - rewrite (circuitBreaker_passes _ _ _ _ _ _ Hs' Hn). right.
    exists u, s. cbn. rewrite Hh. unfold probed.
    cbn in Hn. destruct (state (circuitOf s (circuits ctx))); by repeat split.
Qed.

Lemma lower_ascii_slash a : Js.lower_ascii a = "/"%char -> a = "/"%char.
Proof.
  destruct a as [b0 b1 b2 b3 b4 b5 b6 b7].
  destruct b0, b1, b2, b3, b4, b5, b6, b7; vm_compute; congruence.
Qed.

Lemma mount_strip_prefix m p u :
  mount_strip m p = Some u -> Js.lower (String.substring 0 (String.length m) p) = Js.lower m.
Proof.
  unfold mount_strip. destruct (String.eqb _ _) eqn:E; [|done].
  intros _. by apply String.eqb_eq.
Qed.

(** Below the [/v1] mount point a path of a proxied route reads [/auth...],
    [/identities...] and so on, in which the expression of
    [getServiceFromPath] finds no service. *)
Lemma proxied_path_names_no_service m p :
  In m proxiedMounts ->
  mount_strip m p <> None ->
  exists u, mount_strip "/v1" p = Some u /\ getServiceFromPath u = None.
Proof.
  intros Hin Hm.
  destruct (mount_strip m p) as [u'|] eqn:E; [clear Hm|done].
  apply mount_strip_prefix in E.
  destruct p as [|a0 [|a1 [|a2 [|a3 [|a4 p']]]]];
    cbn in Hin;
    try (destruct Hin as [<-|[<-|[<-|[<-|[<-|[]]]]]]; cbn in E; discriminate).
  assert (Js.lower_ascii a0 = "/"%char /\ Js.lower_ascii a1 = "v"%char
          /\ Js.lower_ascii a2 = "1"%char /\ a3 = "/"%char
          /\ Js.lower_ascii a4 <> "v"%char /\ Js.lower_ascii a4 <> "/"%char)
    as (H0 & H1 & H2 & -> & H4 & H4').
  { destruct Hin as [<-|[<-|[<-|[<-|[<-|[]]]]]]; cbn in E;
      injection E as E0 E1 E2 E3 E4 _;
      (repeat split; [done | done | done | by apply lower_ascii_slash | | ]);
      rewrite E4; discriminate. }
  exists (String "/" (String a4 p')).
  unfold mount_strip. cbn [String.length String.substring Js.lower].
  rewrite H0, H1, H2. clear E Hin H0 H1 H2.
  destruct a4 as [b0 b1 b2 b3 b4 b5 b6 b7].
  destruct b0, b1, b2, b3, b4, b5, b6, b7;
    try (exfalso; apply H4; reflexivity);
    try (exfalso; apply H4'; reflexivity);
    (split; vm_compute; reflexivity).
Qed.

(** What handling one request does to the registry. *)
Lemma handle_registry env i cs :
  (sendHooks (res (fst (handle env i cs))) = []
   /\ circuits (fst (handle env i cs)) = cs)
  \/ (exists u s,
        rateLimited env = false
        /\ mount_strip "/v1" (in_path i) = Some u
        /\ getServiceFromPath u = Some s
        /\ sendHooks (res (fst (handle env i cs))) = [TrackCircuit s]
        /\ circuits (fst (handle env i cs))
           = match snd (handle env i cs) with
             | Ended =>
                 runHook (breakerConfig env) (nowSend env)
                   (statusCode (res (fst (handle env i cs)))) (TrackCircuit s)
                   (<[s := probed (circuitOf s cs)]> cs)
             | _ => <[s := probed (circuitOf s cs)]> cs
             end).
Proof.
  destruct (rateLimited env) eqn:Hrl.
  { rewrite handle_limited by done. left. cbn [fst]. by rewrite res_send_no_hooks. }
  rewrite handle_passes_limiter by done. cbn [stack]. unfold andThen.
  destruct (breakerLayer_cases env (validated env i cs) eq_refl)
    as [[Hh Hc] | (u & s & Hm & Hs & Hn & Hh & Hc)].
  - destruct (breakerLayer env (validated env i cs)) as [ctx1 f1]; cbn [fst snd] in *.
    destruct (sends_once_afterBreaker env ctx1) as [Hh2 Hc2].
    left. destruct f1; cbn [fst snd]; try by split.
    rewrite Hh2, Hc2, Hh, Hc. by destruct (snd _).
  - destruct (breakerLayer env (validated env i cs)) as [ctx1 f1]; cbn [fst snd] in *.
    subst f1. destruct (sends_once_afterBreaker env ctx1) as [Hh2 Hc2].
    right. exists u, s. rewrite Hh2, Hc2, Hh, Hc. by repeat split.
Qed.

(** ** Mandatory-auth routes *)

Lemma lower_length s : String.length (Js.lower s) = String.length s.
Proof. induction s as [|c s IH]; simpl; [done | by rewrite IH]. Qed.

Lemma lower_substring n s :
  Js.lower (String.substring 0 n s) = String.substring 0 n (Js.lower s).
Proof.
  revert s. induction n as [|n IH]; intros [|c s]; simpl; try done.
  by rewrite IH.
Qed.

Lemma mount_strip_lower_prefix m p u :
  mount_strip m p = Some u -> String.prefix (Js.lower m) (Js.lower p) = true.
Proof.
  intros H. apply mount_strip_prefix in H.
  apply String.prefix_correct. by rewrite lower_length, <- lower_substring.
Qed.

Lemma prefix_cons a b s t :
  String.prefix (String a s) (String b t) = true <-> a = b /\ String.prefix s t = true.
Proof.
  simpl. destruct (ascii_dec a b) as [->|Hne]; split.
  - by intros ->.
  - by intros [_ ->].
  - discriminate.
  - by intros [-> _].
Qed.

(** Two prefixes of one string: one is a prefix of the other. *)
Lemma prefix_comparable a b q :
  String.prefix a q = true -> String.prefix b q = true ->
  String.prefix a b = true \/ String.prefix b a = true.
Proof.
  revert b q. induction a as [|x a IH]; intros b q Ha Hb; [left; by destruct b|].
  destruct b as [|y b]; [by right|].
  destruct q as [|z q]; [simpl in Ha; discriminate|].
  apply prefix_cons in Ha as [-> Ha]. apply prefix_cons in Hb as [-> Hb].
  destruct (IH b q Ha Hb) as [H|H]; [left|right]; by apply prefix_cons.
Qed.

(** A request path lies below at most one of two mount points neither of
    which continues the other. *)
Lemma mount_exclusive m m' p :
  mount_strip m p <> None ->
  String.prefix (Js.lower m) (Js.lower m') = false ->
  String.prefix (Js.lower m') (Js.lower m) = false ->
  mount_strip m' p = None.
Proof.
  intros Hm H1 H2.
  destruct (mount_strip m p) as [u|] eqn:E; [clear Hm|done].
  destruct (mount_strip m' p) as [u'|] eqn:E'; [|done].
  apply mount_strip_lower_prefix in E, E'.
  destruct (prefix_comparable _ _ _ E E'); congruence.
Qed.

Lemma use_skip mount h ctx :
  mount_strip mount (url (req ctx)) = None -> use mount h ctx = (ctx, Next).
Proof. intros H. unfold use. by rewrite H. Qed.

Lemma jwtAuth_no_header cfg verify stamp tsend ctx :
  Js.truthy (authorization (req ctx)) = false ->
  jwtAuth cfg verify stamp tsend ctx
  = (reject cfg tsend 401 "Unauthorized" "Authorization header is required" stamp ctx,
     Ended).
Proof. intros H. unfold jwtAuth. by rewrite H. Qed.

(** Behind the circuit breaker, a request to a mandatory-auth route that
    carries no [Authorization] header is answered 401 by [jwtAuth]; the
    proxy does not run. *)
Lemma afterBreaker_mandatory env ctx m :
  In m mandatoryMounts ->
  mount_strip m (url (req ctx)) <> None ->
  Js.truthy (authorization (req ctx)) = false ->
  exists u,
    mount_strip m (url (req ctx)) = Some u
    /\ stack (afterBreaker env) ctx
       = (reject (breakerConfig env) (nowSend env) 401 "Unauthorized"
                 "Authorization header is required" (isoStamp env) (set_url u ctx),
          Ended).
Proof.
  intros Hin Hm Hauth.
  destruct (mount_strip m (url (req ctx))) as [u|] eqn:E; [|done].
  exists u. split; [done|].
  assert (forall m', String.prefix (Js.lower m) (Js.lower m') = false ->
                     String.prefix (Js.lower m') (Js.lower m) = false ->
                     mount_strip m' (url (req ctx)) = None) as Hex.
  { intros m'. apply mount_exclusive. by rewrite E. }
  unfold afterBreaker, initializeRoutes, initializeErrorHandling, setupServiceProxy.
  cbn [app stack].
  cbn in Hin. destruct Hin as [<-|[<-|[<-|[<-|[]]]]];
    repeat (unfold andThen at 1;
            first [ rewrite use_skip by (apply Hex; reflexivity)
                  | unfold use at 1; rewrite E; unfold andThen at 1;
                    rewrite jwtAuth_no_header by done ]);
    reflexivity.
Qed.

Lemma breakerLayer_no_service env ctx u :
  mount_strip "/v1" (url (req ctx)) = Some u ->
  getServiceFromPath u = None ->
  breakerLayer env ctx = (ctx, Next).
Proof.
  intros Hm Hs. unfold breakerLayer, use. rewrite Hm.
  rewrite circuitBreaker_no_service by done.
  by destruct ctx as [[] ? ?].
Qed.

Lemma handle_mandatory_no_header env i cs m :
  rateLimited env = false ->
  In m mandatoryMounts ->
  mount_strip m (in_path i) <> None ->
  Js.truthy (in_authorization i) = false ->
  exists u,
    handle env i cs
    = (reject (breakerConfig env) (nowSend env) 401 "Unauthorized"
              "Authorization header is required" (isoStamp env)
              (set_url u (validated env i cs)),
       Ended).
Proof.
  intros Hrl Hin Hm Hauth.
  rewrite handle_passes_limiter by done. cbn [stack]. unfold andThen at 1.
  destruct (proxied_path_names_no_service m (in_path i)) as (u0 & Hu0 & Hn0);
    [cbn in *; tauto | done |].
  rewrite (breakerLayer_no_service env (validated env i cs) u0) by done.
  destruct (afterBreaker_mandatory env (validated env i cs) m Hin Hm Hauth) as (u & _ & ->).
  by exists u.
Qed.

(** ** Requests the breaker tracks *)

(** A request whose path, below the [/v1] mount point, names a service lies
    under none of the routes: the stack answers it with the 404 of
    [initializeErrorHandling]. *)
Lemma tracked_matches_no_route env ctx u s :
  mount_strip "/v1" (url (req ctx)) = Some u ->
  getServiceFromPath u = Some s ->
  stack (afterBreaker env) ctx = notFound env ctx.
Proof.
  intros Hm Hs.
  assert (Hprox : forall m, In m proxiedMounts -> mount_strip m (url (req ctx)) = None).
  { intros m Hin. destruct (mount_strip m (url (req ctx))) as [u1|] eqn:E; [|done].
    exfalso.
    destruct (proxied_path_names_no_service m (url (req ctx)) Hin) as (u' & Hu' & Hn);
      [by rewrite E|].
    congruence. }
  assert (Hhealth : mount_strip "/health" (url (req ctx)) = None).
  { apply (mount_exclusive "/v1"); [by rewrite Hm | done | done]. }
  assert (Hroot : String.eqb (path (req ctx)) "/" = false).
  { apply String.eqb_neq. intros E. unfold path in E. rewrite E in Hm.
    vm_compute in Hm. discriminate. }
  unfold afterBreaker, initializeRoutes, initializeErrorHandling, setupServiceProxy.
  cbn [app stack].
  repeat (unfold andThen at 1;
          rewrite use_skip by (first [exact Hhealth | apply Hprox; cbn; tauto])).
  unfold andThen at 1. unfold apiInfo. rewrite Hroot, andb_false_r.
  by unfold andThen, notFound.
Qed.

(** What the stack does with such a request when the circuit of the
    service is not OPEN: the circuit breaker admits it and wraps
    [res.send], and the 404 is sent through the wrapper, which records a
    success. *)
Lemma handle_tracked env i cs u s :
  rateLimited env = false ->
  mount_strip "/v1" (in_path i) = Some u ->
  getServiceFromPath u = Some s ->
  state (circuitOf s cs) <> OPEN ->
  snd (handle env i cs) = Ended
  /\ statusCode (res (fst (handle env i cs))) = 404
  /\ circuits (fst (handle env i cs)) = recordSuccess s (<[s := circuitOf s cs]> cs).
Proof.
  intros Hrl Hm Hs Hn.
  assert (E : handle env i cs
              = notFound env
                  (set_url (in_path i)
                     (wrap_send (TrackCircuit s)
                        (set_circuits (<[s := circuitOf s cs]> cs)
                           (set_url u (validated env i cs)))))).
  { rewrite handle_passes_limiter by done. cbn [stack]. unfold andThen at 1.
    unfold breakerLayer, use.
    change (url (req (validated env i cs))) with (in_path i). rewrite Hm.
    rewrite (circuitBreaker_passes _ _ _ _ (set_url u (validated env i cs)) s) by done.
    by rewrite (tracked_matches_no_route env _ u s) by done. }
  rewrite E. split; [done|]. split; [done|].
  unfold notFound, reject, res_json, res_send. cbn. done.
Qed.

Lemma succeeded_newCircuit : succeeded newCircuit = newCircuit.
Proof. reflexivity. Qed.

Lemma all_fresh_circuitOf cs s : all_fresh cs -> circuitOf s cs = newCircuit.
Proof.
  intros H. rewrite circuitOf_lookup.
  destruct (cs !! s) as [c|] eqn:E; [|done]. by apply H in E as ->.
Qed.

Lemma all_fresh_insert cs s : all_fresh cs -> all_fresh (<[s := newCircuit]> cs).
Proof.
  intros H s' c. destruct (decide (s = s')) as [->|Hne].
  - rewrite lookup_insert_eq. by intros [= <-].
  - rewrite lookup_insert_ne by done. apply H.
Qed.

(** The registry after a request, when every circuit is as it was
    created: unchanged, or the same with a circuit as it is created added
    under one more name. *)
Lemma handle_all_fresh env i cs :
  all_fresh cs ->
  (sendHooks (res (fst (handle env i cs))) = [] /\ circuits (fst (handle env i cs)) = cs)
  \/ (exists s,
        snd (handle env i cs) = Ended
        /\ circuits (fst (handle env i cs)) = <[s := newCircuit]> cs).
Proof.
  intros Hf.
  destruct (handle_registry env i cs) as [H | (u & s & Hrl & Hm & Hs & _)]; [by left|].
  right. exists s.
  destruct (handle_tracked env i cs u s Hrl Hm Hs) as (He & _ & Hc).
  { by rewrite all_fresh_circuitOf. }
  split; [exact He|].
  rewrite Hc, recordSuccess_insert, circuitOf_insert, all_fresh_circuitOf by done.
  by rewrite succeeded_newCircuit, insert_insert_eq.
Qed.

(** Every circuit of a registry the gateway can have is as it was created:
    no failure is ever recorded. *)
Lemma served_all_fresh cs : served cs -> all_fresh cs.
Proof.
  induction 1 as [|env i cs _ IH|env i cs0 p cfg now code data cs _ IH0 Hfw _ IH].
  - intros s c. by rewrite lookup_empty.
  - destruct (handle_all_fresh env i cs IH) as [[_ ->]|(s & _ & ->)]; [done|].
    by apply all_fresh_insert.
  - destruct (handle_all_fresh env i cs0 IH0) as [[Hh _]|(s & He & _)];
      [|by rewrite He in Hfw].
    by rewrite res_send_no_hooks.
Qed.

(** The circuit breaker leaves the request as it is. *)
Lemma breakerLayer_url env ctx :
  snd (breakerLayer env ctx) = Next ->
  url (req (fst (breakerLayer env ctx))) = url (req ctx).
Proof.
  unfold breakerLayer, use.
  destruct (mount_strip "/v1" (url (req ctx))) as [u|]; [|done].
  unfold circuitBreaker.
  destruct (getServiceFromPath (path (req (set_url u ctx)))) as [s|]; [|done].
  destruct (getOrCreateCircuit s (circuits (set_url u ctx))) as [cs c].
  destruct (state c); try done.
  by destruct (_ <? _).
Qed.

(** The only answer sent through a wrapper is the 404 of a path under no
    route. *)
Lemma tracked_answer env i cs s :
  sendHooks (res (fst (handle env i cs))) = [TrackCircuit s] ->
  snd (handle env i cs) = Ended /\ statusCode (res (fst (handle env i cs))) = 404.
Proof.
  destruct (rateLimited env) eqn:Hrl.
  { rewrite handle_limited by done. by cbn. }
  rewrite handle_passes_limiter by done. cbn [stack]. unfold andThen.
  pose proof (breakerLayer_url env (validated env i cs)) as Hurl.
  destruct (breakerLayer_cases env (validated env i cs) eq_refl)
    as [[Hh _] | (u & s' & Hm & Hs & Hn & _)].
  - destruct (breakerLayer env (validated env i cs)) as [ctx1 f1]; cbn [fst snd] in *.
    destruct (sends_once_afterBreaker env ctx1) as [Hh2 _].
    destruct f1; cbn [fst]; rewrite ?Hh2, Hh; done.
  - destruct (breakerLayer env (validated env i cs)) as [ctx1 f1]; cbn [fst snd] in *.
    subst f1. intros _.
    rewrite (tracked_matches_no_route env ctx1 u s'); [done | by rewrite Hurl | done].
Qed.

(** ** Claim about rejections *)


Lemma servedRegistry_served : served servedRegistry.
Proof.
  assert (E : circuits (fst (handle (sampleEnv false 1000) (get "/v1/v1/v1" None None) ∅))
              = servedRegistry) by (vm_compute; reflexivity).
  rewrite <- E. apply served_request, served_start.
Qed.


(** * Further properties of the code *)

(** ** Service names *)

Lemma take_word_split q :
  q = Js.take_word q +:+ Js.substring_from (String.length (Js.take_word q)) q
  /\ all_word (Js.take_word q) = true
  /\ no_word_ahead (Js.substring_from (String.length (Js.take_word q)) q) = true.
Proof.
  induction q as [|c q (IH1 & IH2 & IH3)]; [done|].
  cbn [Js.take_word]. destruct (Js.is_word_char c) eqn:E.
  - cbn [String.length Js.substring_from all_word append]. rewrite E.
    split; [exact (f_equal (String c) IH1) | by split].
  - cbn. by rewrite E.
Qed.

Lemma take_word_append s rest :
  all_word s = true -> no_word_ahead rest = true -> Js.take_word (s +:+ rest) = s.
Proof.
  intros Hs Hr. induction s as [|c s IH]; simpl in *.
  - destruct rest as [|c r]; [done|]. simpl in *.
    by destruct (Js.is_word_char c).
  - apply andb_true_iff in Hs as [-> Hs]. by rewrite IH.
Qed.

Lemma prefix_decompose a p :
  String.prefix a p = true -> p = a +:+ Js.substring_from (String.length a) p.
Proof.
  revert p. induction a as [|x a IH]; intros p H; [done|].
  destruct p as [|y p]; [simpl in H; discriminate|].
  apply prefix_cons in H as [-> H]. exact (f_equal (String y) (IH p H)).
Qed.

Lemma prefix_append a q : String.prefix a (a +:+ q) = true.
Proof.
  induction a as [|x a IH]; [by destruct q|].
  apply prefix_cons. by split.
Qed.

Lemma substring_from_append a q : Js.substring_from (String.length a) (a +:+ q) = q.
Proof. induction a as [|x a IH]; [done | exact IH]. Qed.

(** [getServiceFromPath] returns a name exactly for the paths that read
    [/v1/<name>] followed by the end or by a character outside [\w]; the
    name is not empty and made of [A-Za-z0-9_], and it is the longest such
    run. *)
Theorem getServiceFromPath_spec p s :
  getServiceFromPath p = Some s
  <-> s <> ""
      /\ all_word s = true
      /\ exists rest, p = "/v1/" +:+ s +:+ rest /\ no_word_ahead rest = true.
Proof.
  unfold getServiceFromPath, Js.startsWith. split.
  - destruct (String.prefix "/v1/" p) eqn:E; [|done].
    apply prefix_decompose in E. cbn [String.length] in E.
    destruct (take_word_split (Js.substring_from 4 p)) as (H1 & H2 & H3).
    destruct (String.eqb_spec (Js.take_word (Js.substring_from 4 p)) "") as [E0|N0];
      [done|].
    intros [= <-]. split; [done|]. split; [done|].
    exists (Js.substring_from (String.length (Js.take_word (Js.substring_from 4 p)))
              (Js.substring_from 4 p)).
    split; [|exact H3]. exact (eq_trans E (f_equal (String.append "/v1/") H1)).
  - intros (Hne & Hw & rest & -> & Hr).
    rewrite prefix_append.
    change 4%nat with (String.length "/v1/"). rewrite substring_from_append.
    rewrite take_word_append by done.
    by destruct (String.eqb_spec s "").
Qed.

(** ** The registry *)

(** [getOrCreateCircuit] returns the circuit stored under the name after
    the call; a missing circuit is created CLOSED with no failures; a second
    call changes nothing; the circuits of other services are not touched. *)
Theorem getOrCreateCircuit_stable s (cs : gmap string CircuitState) :
  fst (getOrCreateCircuit s cs) !! s = Some (snd (getOrCreateCircuit s cs))
  /\ getOrCreateCircuit s (fst (getOrCreateCircuit s cs)) = getOrCreateCircuit s cs
  /\ (cs !! s = None ->
      snd (getOrCreateCircuit s cs)
      = {| failures := 0; lastFailureTime := 0; state := CLOSED |})
  /\ (forall c, cs !! s = Some c -> getOrCreateCircuit s cs = (cs, c))
  /\ (forall s', s' <> s -> fst (getOrCreateCircuit s cs) !! s' = cs !! s').
Proof.
  unfold getOrCreateCircuit. destruct (cs !! s) as [c|] eqn:E; cbn [fst snd].
  - rewrite E. repeat split; try done. by intros c' [= ->].
  - rewrite lookup_insert_eq. repeat split; try done.
    intros s' Hne. by rewrite lookup_insert_ne.
Qed.

(** The circuits of different services are independent: recording an
    outcome for one service, or checking the admission of a request for
    it, leaves the circuit of every other service as it was. *)
Theorem services_are_isolated cfg now stamp tsend s s' (cs : gmap string CircuitState) ctx :
  s <> s' ->
  recordFailure cfg now s cs !! s' = cs !! s'
  /\ recordSuccess s cs !! s' = cs !! s'
  /\ (getServiceFromPath (path (req ctx)) = Some s ->
      sendHooks (res ctx) = [] ->
      circuits (fst (circuitBreaker cfg now stamp tsend ctx)) !! s' = circuits ctx !! s').
Proof.
  intros Hne. split; [|split].
  - by rewrite recordFailure_insert, lookup_insert_ne.
  - by rewrite recordSuccess_insert, lookup_insert_ne.
  - intros Hs Hh.
    destruct (decide (state (circuitOf s (circuits ctx)) = OPEN)) as [Ho|Hn].
    + destruct (Z.lt_ge_cases (now - lastFailureTime (circuitOf s (circuits ctx)))
                              (resetTimeoutMs cfg)) as [Hlt|Hge].
      * rewrite (circuitBreaker_rejects _ _ _ _ _ _ Hs Ho Hlt). cbn [fst].
        unfold res_json. by rewrite res_send_no_hooks.
      * rewrite (circuitBreaker_probes _ _ _ _ _ _ Hs Ho Hge). cbn.
        by rewrite lookup_insert_ne.
    + rewrite (circuitBreaker_passes _ _ _ _ _ _ Hs Hn). cbn.
      by rewrite lookup_insert_ne.
Qed.

Lemma services_are_isolated_witness :
  recordFailure defaultBreakerConfig 9 "auth" closedRegistry !! "identities"
    = closedRegistry !! "identities"
  /\ circuits (fst (circuitBreaker defaultBreakerConfig 60000 "" 60000
                      (arriving "/v1/auth/login" openRegistry))) !! "identities"
     = openRegistry !! "identities".
Proof.
  split.
  - destruct (services_are_isolated defaultBreakerConfig 9 "" 9 "auth" "identities"
                closedRegistry (arriving "/" closedRegistry)) as (H & _ & _);
      [discriminate | exact H].
  - destruct (services_are_isolated defaultBreakerConfig 60000 "" 60000 "auth"
                "identities" openRegistry (arriving "/v1/auth/login" openRegistry))
      as (_ & _ & H); [discriminate|].
    apply H; reflexivity.
Defined.

Lemma getServiceFromPath_spec_witness :
  getServiceFromPath "/v1/blockchain-adapter/tx" = Some "blockchain".
Proof.
  apply (getServiceFromPath_spec "/v1/blockchain-adapter/tx" "blockchain").
  split; [discriminate|]. split; [reflexivity|].
  exists "-adapter/tx". split; reflexivity.
Defined.

Lemma getOrCreateCircuit_stable_witness :
  snd (getOrCreateCircuit "auth" closedRegistry)
    = {| failures := 0; lastFailureTime := 0; state := CLOSED |}
  /\ fst (getOrCreateCircuit "auth" closedRegistry) !! "identities"
     = closedRegistry !! "identities".
Proof.
  destruct (getOrCreateCircuit_stable "auth" closedRegistry) as (_ & _ & H3 & _ & H5).
  split; [apply H3; reflexivity | apply H5; discriminate].
Defined.

(** ** Where circuits come from *)

Lemma dom_recordFailure cfg now s (cs : gmap string CircuitState) :
  dom (recordFailure cfg now s cs) = {[s]} ∪ dom cs.
Proof. rewrite recordFailure_insert. apply dom_insert_L. Qed.

Lemma dom_recordSuccess s (cs : gmap string CircuitState) :
  dom (recordSuccess s cs) = {[s]} ∪ dom cs.
Proof. rewrite recordSuccess_insert. apply dom_insert_L. Qed.

Lemma dom_runHook cfg now status s (cs : gmap string CircuitState) :
  dom (runHook cfg now status (TrackCircuit s) cs) = {[s]} ∪ dom cs.
Proof.
  unfold runHook. case_match; [apply dom_recordFailure | apply dom_recordSuccess].
Qed.

(** An admission check on a response without wrappers: the registry keeps
    its circuits, and the service it tracks has one. *)
Lemma dom_admission cfg now stamp tsend p (cs : gmap string CircuitState) :
  dom cs ⊆ dom (circuits (fst (circuitBreaker cfg now stamp tsend (arriving p cs))))
  /\ forall s, In s (tracked (circuitBreaker cfg now stamp tsend (arriving p cs))) ->
               s ∈ dom (circuits (fst (circuitBreaker cfg now stamp tsend (arriving p cs)))).
Proof.
  destruct (getServiceFromPath p) as [s|] eqn:Hs.
  2: { rewrite circuitBreaker_no_service by done. split; [done|]. by intros s []. }
  assert (Hs' : getServiceFromPath (path (req (arriving p cs))) = Some s) by done.
  destruct (decide (state (circuitOf s cs) = OPEN)) as [Ho|Hn].
  - destruct (Z.lt_ge_cases (now - lastFailureTime (circuitOf s cs)) (resetTimeoutMs cfg))
      as [Hlt|Hge].
    + rewrite (circuitBreaker_rejects _ _ _ _ _ _ Hs' Ho Hlt). split; [done|]. by intros s' [].
    + rewrite (circuitBreaker_probes _ _ _ _ _ _ Hs' Ho Hge). cbn.
      rewrite dom_insert_L. split; [set_solver|]. intros s' [<-|[]]. set_solver.
  - rewrite (circuitBreaker_passes _ _ _ _ _ _ Hs' Hn). cbn.
    rewrite dom_insert_L. split; [set_solver|]. intros s' [<-|[]]. set_solver.
Qed.

Lemma In_remove_first s x l : In x (remove_first s l) -> In x l.
Proof.
  induction l as [|y l IH]; simpl; [done|].
  destruct (String.eqb s y); simpl; tauto.
Qed.

Lemma existsb_eqb_In s l : existsb (String.eqb s) l = true -> In s l.
Proof.
  intros H. apply existsb_exists in H as (x & Hx & E).
  by apply String.eqb_eq in E as ->.
Qed.

(** Along every run of the process a response's wrapper finds the circuit
    of its service in the registry, so that circuits are created by
    admission checks only: recording an outcome leaves the set of services
    in the registry as it is, and no event ever removes a circuit. *)
Theorem circuits_created_at_admission_only cfg sys :
  reachable cfg sys ->
  (forall s, In s (inflight sys) -> s ∈ dom (registry sys))
  /\ forall ev sys',
       step cfg ev sys = Some sys' ->
       dom (registry sys) ⊆ dom (registry sys')
       /\ forall s status now,
            ev = Sent s status now -> dom (registry sys') = dom (registry sys).
Proof.
  intros Hr.
  assert (Hinv : forall s, In s (inflight sys) -> s ∈ dom (registry sys)).
  { induction Hr as [|sys ev sys' _ IH Hstep]; [by intros s []|].
    destruct ev as [p now stamp | s0 status now]; simpl in Hstep.
    - destruct (clock sys <=? now); [|done]. simplify_eq. cbn [registry inflight].
      destruct (dom_admission cfg now stamp now p (registry sys)) as [Hsub Htr].
      intros s Hin. apply in_app_or in Hin as [Hin|Hin]; [by apply Htr|].
      apply Hsub. by apply IH.
    - destruct (_ && _); [|done]. simplify_eq. cbn [registry inflight].
      intros s Hin.
      pose proof (dom_runHook cfg now status s0 (registry sys)) as Hd.
      unfold runHook in Hd. rewrite Hd. apply In_remove_first in Hin.
      apply IH in Hin. set_solver. }
  split; [exact Hinv|].
  intros ev sys' Hstep.
  destruct ev as [p now stamp | s0 status now]; simpl in Hstep.
  - destruct (clock sys <=? now); [|done]. simplify_eq. cbn [registry].
    split; [apply dom_admission | discriminate].
  - destruct (clock sys <=? now); [|done]. cbn [andb] in Hstep.
    destruct (existsb (String.eqb s0) (inflight sys)) eqn:E; [|done].
    simplify_eq. cbn [registry].
    pose proof (dom_runHook cfg now status s0 (registry sys)) as Hd.
    unfold runHook in Hd. rewrite Hd.
    apply existsb_eqb_In, Hinv in E.
    split; [set_solver|]. intros s status' now' _. set_solver.
Qed.

Lemma circuits_created_at_admission_only_witness :
  "identities" ∈ dom (registry decayedSys).
Proof.
  apply (circuits_created_at_admission_only defaultBreakerConfig decayedSys).
  - eapply run_reachable; [apply reachable_initial|].
    instantiate (1 := decayTrace). vm_compute. reflexivity.
  - cbn. tauto.
Defined.

(** ** Counting failures *)

Lemma Qle_bool_trip cfg x :
  Qle_bool (thresholdRate cfg) (x # 10) = (errorThresholdPercentage cfg <=? 10 * x).
Proof.
  destruct (Z.leb_spec (errorThresholdPercentage cfg) (10 * x)) as [H|H].
  - apply Qle_bool_iff. unfold thresholdRate, Qle. simpl. lia.
  - apply not_true_is_false. rewrite Qle_bool_iff. unfold thresholdRate, Qle. simpl. lia.
Qed.

Lemma recordFailures_snoc cfg s times now cs :
  recordFailures cfg s (times ++ [now]) cs
  = recordFailure cfg now s (recordFailures cfg s times cs).
Proof. unfold recordFailures. by rewrite fold_left_app. Qed.

Lemma circuit_eq (c1 c2 : CircuitState) :
  failures c1 = failures c2 -> lastFailureTime c1 = lastFailureTime c2 ->
  state c1 = state c2 -> c1 = c2.
Proof. destruct c1, c2. cbn. by intros -> -> ->. Qed.

Lemma recordFailures_circuit cfg s times cs :
  circuitOf s (recordFailures cfg s times cs)
  = {| failures := failures (circuitOf s cs) + Z.of_nat (length times);
       lastFailureTime := default (lastFailureTime (circuitOf s cs)) (last times);
       state := if negb (Nat.eqb (length times) 0)
                   && (errorThresholdPercentage cfg
                       <=? 10 * (failures (circuitOf s cs) + Z.of_nat (length times)))
                then OPEN else state (circuitOf s cs) |}.
Proof.
  induction times as [|now times IH] using rev_ind.
  - cbn. rewrite Z.add_0_r. by destruct (circuitOf s cs).
  - rewrite recordFailures_snoc, circuitOf_recordFailure.
    rewrite last_snoc, length_app. cbn [length default from_option Datatypes.id].
    replace (Nat.eqb (length times + 1) 0) with false
      by (symmetry; apply Nat.eqb_neq; lia).
    cbn [negb andb].
    apply circuit_eq; cbn [failures lastFailureTime state].
    + rewrite failed_failures, IH. cbn [failures]. lia.
    + by rewrite failed_lastFailureTime.
    + rewrite failed_state, Qle_bool_trip, IH. cbn [failures state].
      replace (failures (circuitOf s cs) + Z.of_nat (length times + 1))
        with (failures (circuitOf s cs) + Z.of_nat (length times) + 1) by lia.
      destruct (Z.leb_spec (errorThresholdPercentage cfg)
                  (10 * (failures (circuitOf s cs) + Z.of_nat (length times) + 1)));
        [done|].
      destruct (Z.leb_spec (errorThresholdPercentage cfg)
                  (10 * (failures (circuitOf s cs) + Z.of_nat (length times))));
        [lia|].
      by rewrite andb_false_r.
Qed.

(** After n >= 1 failures recorded in a row for a service, its failure
    count has grown by n, the last of them is its [lastFailureTime], and
    its circuit is OPEN exactly when ten times the new count reaches
    [errorThresholdPercentage] (otherwise the phase is as before); so a
    service without a circuit is opened by the n-th failure in a row
    exactly when [errorThresholdPercentage <= 10 n]. *)
Theorem failures_in_a_row cfg s times cs :
  times <> [] ->
  failures (circuitOf s (recordFailures cfg s times cs))
    = failures (circuitOf s cs) + Z.of_nat (length times)
  /\ Some (lastFailureTime (circuitOf s (recordFailures cfg s times cs))) = last times
  /\ state (circuitOf s (recordFailures cfg s times cs))
     = (if errorThresholdPercentage cfg
           <=? 10 * (failures (circuitOf s cs) + Z.of_nat (length times))
        then OPEN else state (circuitOf s cs))
  /\ (cs !! s = None ->
      (state (circuitOf s (recordFailures cfg s times cs)) = OPEN
       <-> errorThresholdPercentage cfg <= 10 * Z.of_nat (length times))).
Proof.
  intros Hne. rewrite recordFailures_circuit. cbn [failures lastFailureTime state].
  destruct times as [|t ts] using rev_ind; [done|]. clear IHts.
  rewrite last_snoc, length_app. cbn [length default from_option Datatypes.id].
  replace (Nat.eqb (length ts + 1) 0) with false by (symmetry; apply Nat.eqb_neq; lia).
  cbn [negb andb]. split; [done|]. split; [done|]. split; [done|].
  intros Hnone.
  assert (Hf : failures (circuitOf s cs) = 0) by (by rewrite circuitOf_lookup, Hnone).
  assert (Hs : state (circuitOf s cs) = CLOSED) by (by rewrite circuitOf_lookup, Hnone).
  rewrite Hf, Hs, Z.add_0_l.
  destruct (Z.leb_spec (errorThresholdPercentage cfg) (10 * Z.of_nat (length ts + 1)));
    split; intros; (done || lia).
Qed.

Lemma failures_in_a_row_witness :
  failures (circuitOf "identities"
              (recordFailures defaultBreakerConfig "identities" [1; 2; 3; 4; 5] ∅)) = 5
  /\ state (circuitOf "identities"
              (recordFailures defaultBreakerConfig "identities" [1; 2; 3; 4; 5] ∅)) = OPEN.
Proof.
  destruct (failures_in_a_row defaultBreakerConfig "identities" [1; 2; 3; 4; 5] ∅)
    as (H1 & _ & _ & H4); [discriminate|].
  split; [exact H1|]. apply H4; [reflexivity | vm_compute; discriminate].
Defined.

(** Below the threshold one success takes back one failure: a failure that
    does not open a CLOSED circuit, followed by a success, leaves the
    circuit as it was but for [lastFailureTime]. *)
Theorem success_takes_back_failure cfg now s cs :
  state (circuitOf s cs) = CLOSED ->
  0 <= failures (circuitOf s cs) ->
  10 * (failures (circuitOf s cs) + 1) < errorThresholdPercentage cfg ->
  circuitOf s (recordSuccess s (recordFailure cfg now s cs))
  = set_lastFailureTime now (circuitOf s cs).
Proof.
  intros Hc Hf Hlt.
  rewrite circuitOf_recordSuccess, circuitOf_recordFailure.
  assert (Hs : state (failed cfg now (circuitOf s cs)) = CLOSED).
  { rewrite failed_state, Qle_bool_trip. by apply Z.leb_gt in Hlt as ->. }
  apply circuit_eq.
  - unfold succeeded. rewrite Hs. cbn. rewrite failed_failures.
    destruct (circuitOf s cs); cbn in *. lia.
  - unfold succeeded. rewrite Hs. cbn. rewrite failed_lastFailureTime.
    by destruct (circuitOf s cs).
  - unfold succeeded. rewrite Hs. cbn. rewrite Hs.
    destruct (circuitOf s cs); cbn in *. done.
Qed.

Lemma success_takes_back_failure_witness :
  circuitOf "identities"
    (recordSuccess "identities"
       (recordFailure defaultBreakerConfig 9 "identities" oneFailureRegistry))
  = {| failures := 1; lastFailureTime := 9; state := CLOSED |}.
Proof.
  apply (success_takes_back_failure defaultBreakerConfig 9 "identities" oneFailureRegistry).
  - reflexivity.
  - vm_compute. discriminate.
  - vm_compute. reflexivity.
Defined.

(** ** Invariants of the registry *)

(** What an admission check does to the registry. *)
Lemma admission_registry cfg now stamp tsend p (cs : gmap string CircuitState) :
  circuits (fst (circuitBreaker cfg now stamp tsend (arriving p cs))) = cs
  \/ exists s, circuits (fst (circuitBreaker cfg now stamp tsend (arriving p cs)))
               = <[s := probed (circuitOf s cs)]> cs.
Proof.
  destruct (getServiceFromPath p) as [s|] eqn:Hs.
  2: { rewrite circuitBreaker_no_service by done. by left. }
  assert (Hs' : getServiceFromPath (path (req (arriving p cs))) = Some s) by done.
  destruct (decide (state (circuitOf s cs) = OPEN)) as [Ho|Hn].
  - destruct (Z.lt_ge_cases (now - lastFailureTime (circuitOf s cs)) (resetTimeoutMs cfg))
      as [Hlt|Hge].
    + rewrite (circuitBreaker_rejects _ _ _ _ _ _ Hs' Ho Hlt). by left.
    + rewrite (circuitBreaker_probes _ _ _ _ _ _ Hs' Ho Hge). right. exists s.
      cbn. unfold probed. by rewrite Ho.
  - rewrite (circuitBreaker_passes _ _ _ _ _ _ Hs' Hn). right. exists s.
    cbn. unfold probed. by destruct (state (circuitOf s cs)).
Qed.

(** A property of circuits, relative to the clock, that holds of a new
    circuit and is kept by the passing of time, by the probe and by both
    outcomes, holds of every circuit of every state of the process. *)
Lemma reachable_circuits cfg (P : Z -> CircuitState -> Prop) :
  (forall t, 0 <= t -> P t newCircuit) ->
  (forall t t' c, t <= t' -> P t c -> P t' c) ->
  (forall t c, P t c -> state c = OPEN -> P t (set_state HALF_OPEN c)) ->
  (forall t c, P t c -> P t (failed cfg t c)) ->
  (forall t c, P t c -> P t (succeeded c)) ->
  forall sys, reachable cfg sys ->
    0 <= clock sys /\ forall s c, registry sys !! s = Some c -> P (clock sys) c.
Proof.
  intros Hnew Hmono Hprobe Hfail Hsucc sys Hr.
  induction Hr as [|sys ev sys' Hr [IH0 IH] Hstep].
  - split; [done|]. intros s c. unfold initial. cbn. by rewrite lookup_empty.
  - assert (Hof : forall s t, clock sys <= t -> P t (circuitOf s (registry sys))).
    { intros s t Ht. rewrite circuitOf_lookup.
      destruct (registry sys !! s) as [c|] eqn:E; cbn.
      - apply (Hmono (clock sys)); [done|]. by apply (IH s).
      - apply Hnew. lia. }
    destruct ev as [p now stamp|s0 status now]; cbn [step] in Hstep.
    + destruct (Z.leb_spec (clock sys) now) as [Hle|]; [|done]. simplify_eq. cbn.
      split; [lia|]. intros s c.
      destruct (admission_registry cfg now stamp now p (registry sys)) as [->|[s1 ->]].
      * intros E. apply (Hmono (clock sys)); [done|]. by apply (IH s).
      * destruct (decide (s1 = s)) as [->|Hne].
        -- rewrite lookup_insert_eq. intros [= <-]. unfold probed.
           destruct (state (circuitOf s (registry sys))) eqn:Es; try by apply Hof.
           apply Hprobe; [by apply Hof | done].
        -- rewrite lookup_insert_ne by done. intros E.
           apply (Hmono (clock sys)); [done|]. by apply (IH s).
    + destruct (Z.leb_spec (clock sys) now) as [Hle|]; [|done].
      destruct (existsb _ _); [|done]. cbn in Hstep. simplify_eq. cbn [clock registry].
      split; [lia|]. intros s c.
      destruct (500 <=? status).
      * rewrite recordFailure_insert.
        destruct (decide (s0 = s)) as [->|Hne].
        -- rewrite lookup_insert_eq. intros [= <-]. apply Hfail. by apply Hof.
        -- rewrite lookup_insert_ne by done. intros E.
           apply (Hmono (clock sys)); [done|]. by apply (IH s).
      * rewrite recordSuccess_insert.
        destruct (decide (s0 = s)) as [->|Hne].
        -- rewrite lookup_insert_eq. intros [= <-]. apply Hsucc. by apply Hof.
        -- rewrite lookup_insert_ne by done. intros E.
           apply (Hmono (clock sys)); [done|]. by apply (IH s).
Qed.

(** With a positive threshold, a CLOSED circuit never holds a failure
    count that reaches the threshold: in every state of the process,
    [10 * failures < errorThresholdPercentage] for every CLOSED circuit. *)
Theorem closed_circuits_below_threshold cfg sys :
  0 < errorThresholdPercentage cfg ->
  reachable cfg sys ->
  closed_below_threshold cfg (registry sys).
Proof.
  intros Hpos Hr s c Hc.
  apply (reachable_circuits cfg
           (fun _ c => state c = CLOSED -> 10 * failures c < errorThresholdPercentage cfg))
    with (sys := sys) (s := s); [| | | | |exact Hr|exact Hc].
  - intros t _ _. cbn. lia.
  - intros t t' c' _ H. exact H.
  - intros t c' _ _ H. by destruct c'.
  - intros t c' H. rewrite failed_state, failed_failures, Qle_bool_trip.
    destruct (Z.leb_spec (errorThresholdPercentage cfg) (10 * (failures c' + 1)));
      [done | lia].
  - intros t c' H. unfold succeeded. destruct c' as [f l []]; cbn in *; intros; try done.
    specialize (H eq_refl). lia.
Qed.

Lemma decayedSys_reachable : reachable defaultBreakerConfig decayedSys.
Proof.
  apply (run_reachable _ decayTrace initial); [apply reachable_initial|].
  vm_compute. reflexivity.
Qed.

Lemma oneFailureSys_reachable : reachable defaultBreakerConfig oneFailureSys.
Proof.
  apply (run_reachable _ [Admission "/v1/identities" 1 ""; Sent "identities" 500 7] initial);
    [apply reachable_initial|].
  vm_compute. reflexivity.
Qed.

Lemma closed_circuits_below_threshold_witness :
  10 * failures {| failures := 1; lastFailureTime := 7; state := CLOSED |}
  < errorThresholdPercentage defaultBreakerConfig.
Proof.
  apply (closed_circuits_below_threshold defaultBreakerConfig oneFailureSys eq_refl
           oneFailureSys_reachable "identities");
    reflexivity.
Defined.

(** Time stamps stay in order: in every state of the process the clock is
    not negative and every circuit's [lastFailureTime] lies between 0 and
    the clock, so the age [now - lastFailureTime] an admission check
    computes is never negative. *)
Theorem failure_times_in_order cfg sys :
  reachable cfg sys -> times_in_order sys.
Proof.
  intros Hr.
  apply (reachable_circuits cfg
           (fun t c => 0 <= lastFailureTime c /\ lastFailureTime c <= t));
    [| | | | |exact Hr].
  - intros t Ht. cbn. lia.
  - intros t t' c ? [? ?]. lia.
  - intros t c [? ?] _. by destruct c.
  - intros t c [? ?]. rewrite failed_lastFailureTime. lia.
  - intros t c [? ?]. unfold succeeded. by destruct c as [f l []].
Qed.

Lemma failure_times_in_order_witness :
  0 <= clock decayedSys
  /\ 0 <= lastFailureTime {| failures := 3; lastFailureTime := 14; state := HALF_OPEN |}
     <= clock decayedSys.
Proof.
  destruct (failure_times_in_order defaultBreakerConfig decayedSys decayedSys_reachable)
    as [H0 H].
  split; [exact H0|]. apply (H "identities"). reflexivity.
Defined.

(** ** Authentication *)

Lemma truthy_Some (o : option string) :
  Js.truthy o = true <-> exists v, o = Some v /\ v <> "".
Proof.
  destruct o as [v|]; cbn.
  - rewrite negb_true_iff, String.eqb_neq. split; [by exists v | by intros (? & [= <-] & ?)].
  - split; [done | by intros (? & ? & ?)].
Qed.

(** [jwtAuth] when it calls [next()]: exactly for a request that
    authenticates, and then it attaches the identity of the payload. *)
Lemma jwtAuth_next cfg verify stamp tsend ctx :
  snd (jwtAuth cfg verify stamp tsend ctx) = Next ->
  exists decoded uid tid,
    authenticates verify (authorization (req ctx)) decoded uid tid
    /\ fst (jwtAuth cfg verify stamp tsend ctx) = set_user (identityOf decoded uid tid) ctx.
Proof.
  unfold jwtAuth.
  destruct (Js.truthy (authorization (req ctx))) eqn:Hh; [|done]. cbn [negb].
  apply truthy_Some in Hh as (h & Hh & _). rewrite Hh. cbn [default from_option Datatypes.id].
  destruct (tokenOf h) as [token|] eqn:Ht; [|done].
  destruct (verify token) as [decoded|e] eqn:Hv.
  2: { by repeat case_match. }
  destruct (Js.truthy (sub decoded)) eqn:Hs; [|done].
  destruct (Js.truthy (p_tenantId decoded)) eqn:Hten; [|done].
  cbn [negb orb fst snd]. intros _.
  apply truthy_Some in Hs as (uid & Hs & Hu).
  apply truthy_Some in Hten as (tid & Hten & Hti).
  exists decoded, uid, tid. split.
  - exists h, token. by repeat split.
  - unfold identityOf. rewrite Hs, Hten. cbn [default from_option Datatypes.id].
    destruct (p_email decoded) as [e|]; [|done]. cbn.
    by destruct (String.eqb e "").
Qed.

Lemma jwtAuth_authenticates cfg verify stamp tsend ctx decoded uid tid :
  authenticates verify (authorization (req ctx)) decoded uid tid ->
  jwtAuth cfg verify stamp tsend ctx = (set_user (identityOf decoded uid tid) ctx, Next).
Proof.
  intros (h & token & Hh & Ht & Hv & Hs & Hu & Hten & Hti).
  assert (Js.truthy (Some h) = true) as Hth by (by eapply tokenOf_truthy).
  assert (Js.truthy (Some uid) = true) as Htu
    by (apply truthy_Some; by exists uid).
  assert (Js.truthy (Some tid) = true) as Htt
    by (apply truthy_Some; by exists tid).
  unfold jwtAuth. rewrite Hh, Hth. cbn [negb default from_option Datatypes.id].
  rewrite Ht, Hv, Hs, Hten, Htu, Htt. cbn [negb orb default from_option Datatypes.id].
  unfold identityOf. destruct (p_email decoded) as [e|]; [|done]. cbn.
  by destruct (String.eqb e "").
Qed.

(** The token of a header: [tokenOf] yields [t] exactly for the headers
    [Bearer t] and [Service t]. *)
Theorem tokenOf_spec hdr t :
  tokenOf hdr = Some t <-> hdr = "Bearer " +:+ t \/ hdr = "Service " +:+ t.
Proof.
  unfold tokenOf, Js.startsWith. split.
  - destruct (String.prefix "Bearer " hdr) eqn:E1.
    + intros [= <-]. left. by apply (prefix_decompose "Bearer ").
    + destruct (String.prefix "Service " hdr) eqn:E2; [|done].
      intros [= <-]. right. by apply (prefix_decompose "Service ").
  - intros [-> | ->].
    + rewrite (prefix_append "Bearer " t).
      change 7%nat with (String.length "Bearer ").
      by rewrite (substring_from_append "Bearer " t).
    + assert (String.prefix "Bearer " ("Service " +:+ t) = false) as -> by done.
      rewrite (prefix_append "Service " t).
      change 8%nat with (String.length "Service ").
      by rewrite (substring_from_append "Service " t).
Qed.

(** [jwtAuth] calls [next()] for exactly the requests that carry a header
    [Bearer t] or [Service t] whose token [jwt.verify] accepts with a
    non-empty [sub] and [tenantId]; every other request is answered. *)
Theorem jwtAuth_admits_iff cfg verify stamp tsend ctx :
  snd (jwtAuth cfg verify stamp tsend ctx) = Next
  <-> exists decoded uid tid, authenticates verify (authorization (req ctx)) decoded uid tid.
Proof.
  split.
  - intros H. apply jwtAuth_next in H as (d & u & t & H & _). by exists d, u, t.
  - intros (d & u & t & H). by rewrite (jwtAuth_authenticates _ _ _ _ _ _ _ _ H).
Qed.

(** An admitted request carries the identity of its token: when
    [jwtAuth] calls [next()], the payload [jwt.verify] returned for the
    token of the header has a non-empty [sub] and [tenantId], and
    [req.user] is built from that payload: its [sub] as id, its [tenantId],
    its email, or [unknown@udsp.io] when it has none or an empty one, its
    roles and permissions, or none when it names none, and its tier;
    [req.tenantId] is that tenant; nothing is sent, and the registry and
    the rest of the request are as before. *)
Theorem jwtAuth_attaches_identity cfg verify stamp tsend ctx :
  snd (jwtAuth cfg verify stamp tsend ctx) = Next ->
  exists hdr token decoded uid tid,
    authorization (req ctx) = Some hdr
    /\ tokenOf hdr = Some token
    /\ verify token = Verified decoded
    /\ sub decoded = Some uid /\ uid <> ""
    /\ p_tenantId decoded = Some tid /\ tid <> ""
    /\ user (req (fst (jwtAuth cfg verify stamp tsend ctx)))
       = Some {| id := uid;
                 email := match p_email decoded with
                          | Some e => if String.eqb e "" then "unknown@udsp.io" else e
                          | None => "unknown@udsp.io"
                          end;
                 tenantId := tid;
                 roles := default [] (p_roles decoded);
                 tier := p_tier decoded;
                 permissions := default [] (p_permissions decoded) |}
    /\ req_tenantId (req (fst (jwtAuth cfg verify stamp tsend ctx))) = Some tid
    /\ res (fst (jwtAuth cfg verify stamp tsend ctx)) = res ctx
    /\ circuits (fst (jwtAuth cfg verify stamp tsend ctx)) = circuits ctx
    /\ method (req (fst (jwtAuth cfg verify stamp tsend ctx))) = method (req ctx)
    /\ url (req (fst (jwtAuth cfg verify stamp tsend ctx))) = url (req ctx)
    /\ originalUrl (req (fst (jwtAuth cfg verify stamp tsend ctx))) = originalUrl (req ctx)
    /\ authorization (req (fst (jwtAuth cfg verify stamp tsend ctx)))
       = authorization (req ctx)
    /\ x_request_id (req (fst (jwtAuth cfg verify stamp tsend ctx)))
       = x_request_id (req ctx).
Proof.
  intros H. apply jwtAuth_next in H as (d & uid & tid & Ha & ->).
  destruct Ha as (h & token & Hh & Ht & Hv & Hs & Hu & Hten & Hti).
  exists h, token, d, uid, tid. by repeat split.
Qed.

Lemma jwtAuth_attaches_identity_witness :
  user (req (fst (jwtAuth defaultBreakerConfig (jwt_verify sampleParse 1000) "" 0
                    (bearer "good.jwt"))))
  = Some {| id := "user-1"; email := "unknown@udsp.io"; tenantId := "tenant-1";
            roles := []; tier := None; permissions := [] |}.
Proof.
  destruct (jwtAuth_attaches_identity defaultBreakerConfig (jwt_verify sampleParse 1000)
              "" 0 (bearer "good.jwt"))
    as (hdr & token & d & uid & tid & Hh & Ht & Hv & Hs & _ & Hten & _ & Hu & _);
    [vm_compute; reflexivity|].
  injection Hh as <-. vm_compute in Ht. injection Ht as <-.
  vm_compute in Hv. injection Hv as <-.
  injection Hs as <-. injection Hten as <-. exact Hu.
Defined.

Lemma tokenOf_spec_witness :
  tokenOf "Service abc" = Some "abc" /\ tokenOf "Bearer abc" = Some "abc".
Proof.
  split; apply (tokenOf_spec _ "abc"); [by right | by left].
Defined.

Lemma jwtAuth_admits_iff_witness :
  snd (jwtAuth defaultBreakerConfig (jwt_verify sampleParse 1000) "" 0 (bearer "good.jwt"))
  = Next.
Proof.
  apply (jwtAuth_admits_iff defaultBreakerConfig (jwt_verify sampleParse 1000) "" 0
           (bearer "good.jwt")).
  exists samplePayload, "user-1", "tenant-1", "Bearer good.jwt", "good.jwt".
  vm_compute. repeat split; congruence.
Defined.

Lemma tokenOf_Bearer t : tokenOf ("Bearer " +:+ t) = Some t.
Proof.
  unfold tokenOf, Js.startsWith. rewrite (prefix_append "Bearer " t).
  change 7%nat with (String.length "Bearer ").
  by rewrite (substring_from_append "Bearer " t).
Qed.

Lemma tokenOf_Service t : tokenOf ("Service " +:+ t) = Some t.
Proof.
  unfold tokenOf, Js.startsWith.
  assert (String.prefix "Bearer " ("Service " +:+ t) = false) as -> by done.
  rewrite (prefix_append "Service " t).
  change 8%nat with (String.length "Service ").
  by rewrite (substring_from_append "Service " t).
Qed.

(** The two schemes are treated alike: the same token under [Service]
    and under [Bearer] is verified against the same secret and leads to
    the same outcome, the same response and the same identity. *)
Theorem jwtAuth_ignores_scheme cfg verify stamp tsend ctx t :
  snd (jwtAuth cfg verify stamp tsend (set_authorization (Some ("Service " +:+ t)) ctx))
  = snd (jwtAuth cfg verify stamp tsend (set_authorization (Some ("Bearer " +:+ t)) ctx))
  /\ res (fst (jwtAuth cfg verify stamp tsend
                 (set_authorization (Some ("Service " +:+ t)) ctx)))
     = res (fst (jwtAuth cfg verify stamp tsend
                   (set_authorization (Some ("Bearer " +:+ t)) ctx)))
  /\ user (req (fst (jwtAuth cfg verify stamp tsend
                       (set_authorization (Some ("Service " +:+ t)) ctx))))
     = user (req (fst (jwtAuth cfg verify stamp tsend
                         (set_authorization (Some ("Bearer " +:+ t)) ctx))))
  /\ circuits (fst (jwtAuth cfg verify stamp tsend
                      (set_authorization (Some ("Service " +:+ t)) ctx)))
     = circuits (fst (jwtAuth cfg verify stamp tsend
                        (set_authorization (Some ("Bearer " +:+ t)) ctx))).
Proof.
  unfold jwtAuth. cbn [set_authorization set_req req authorization].
  assert (Js.truthy (Some ("Service " +:+ t)) = true) as -> by done.
  assert (Js.truthy (Some ("Bearer " +:+ t)) = true) as -> by done.
  cbn [negb default from_option Datatypes.id].
  rewrite tokenOf_Bearer, tokenOf_Service.
  destruct (verify t) as [decoded|e].
  - by destruct (negb (Js.truthy (sub decoded)) || negb (Js.truthy (p_tenantId decoded))).
  - by destruct e.
Qed.

(** What [jwtAuth] answers when it does not call [next()]: an envelope
    stamped with the time, under status 401, or 500; it is 500 exactly
    when [jwt.verify] throws an error that is not one of the jsonwebtoken
    package; the request gets no identity. *)
Theorem jwtAuth_rejection_status cfg verify stamp tsend ctx :
  snd (jwtAuth cfg verify stamp tsend ctx) = Ended ->
  (exists e m, body (res (fst (jwtAuth cfg verify stamp tsend ctx)))
               = Some (Envelope e m (Some stamp)))
  /\ (statusCode (res (fst (jwtAuth cfg verify stamp tsend ctx))) = 401
      \/ statusCode (res (fst (jwtAuth cfg verify stamp tsend ctx))) = 500)
  /\ (statusCode (res (fst (jwtAuth cfg verify stamp tsend ctx))) = 500
      <-> exists h token,
            authorization (req ctx) = Some h /\ h <> ""
            /\ tokenOf h = Some token /\ verify token = Throws OtherError)
  /\ user (req (fst (jwtAuth cfg verify stamp tsend ctx))) = user (req ctx).
Proof.
  unfold jwtAuth.
  destruct (Js.truthy (authorization (req ctx))) eqn:Hh; cbn [negb].
  2: { intros _. split; [by eexists _, _|]. split; [by left|]. split; [|done].
       split; [done|]. intros (h & token & Ha & Hne & _).
       rewrite Ha in Hh. cbn in Hh. apply negb_false_iff, String.eqb_eq in Hh. done. }
  apply truthy_Some in Hh as (h & Hh & Hne). rewrite Hh.
  cbn [default from_option Datatypes.id].
  destruct (tokenOf h) as [token|] eqn:Ht.
  2: { intros _. split; [by eexists _, _|]. split; [by left|]. split; [|done].
       split; [done|]. intros (h' & token & [= <-] & _ & Ht' & _). congruence. }
  destruct (verify token) as [decoded|e] eqn:Hv.
  - destruct (negb (Js.truthy (sub decoded)) || negb (Js.truthy (p_tenantId decoded)));
      [|done].
    intros _. split; [by eexists _, _|]. split; [by left|]. split; [|done].
    split; [done|]. intros (h' & token' & [= <-] & _ & Ht' & Hv'). congruence.
  - intros _. destruct e; cbn.
    1-3: split; [by eexists _, _|]; split; [by left|]; split; [|done];
         split; [done|]; intros (h' & token' & [= <-] & _ & Ht' & Hv'); congruence.
    split; [by eexists _, _|]. split; [by right|]. split; [|done].
    split; [|done]. intros _. by exists h, token.
Qed.

Lemma jwtAuth_rejection_status_witness :
  statusCode (res (fst (jwtAuth defaultBreakerConfig (jwt_verify sampleParse 1000) "" 0
                          (bearer "forged.jwt")))) = 401
  \/ statusCode (res (fst (jwtAuth defaultBreakerConfig (jwt_verify sampleParse 1000) "" 0
                             (bearer "forged.jwt")))) = 500.
Proof.
  apply (jwtAuth_rejection_status defaultBreakerConfig (jwt_verify sampleParse 1000) "" 0
           (bearer "forged.jwt")).
  vm_compute. reflexivity.
Defined.

(** ** Role check *)

Lemma hasRole_In required u :
  hasRole required u = true <-> exists role, In role required /\ In role (roles u).
Proof.
  unfold hasRole. rewrite existsb_exists. split.
  - intros (role & Hin & H). apply existsb_exists in H as (r & Hr & E).
    apply String.eqb_eq in E as <-. by exists role.
  - intros (role & Hin & Hu). exists role. split; [done|].
    apply existsb_exists. exists role. split; [done | apply String.eqb_refl].
Qed.

(** [requireRole] calls [next()], leaving the request as it is, exactly
    when the request carries an identity that has one of the required
    roles; without identity it answers 401, with an identity that has none
    of the roles 403. *)
Theorem requireRole_spec cfg requiredRoles stamp tsend ctx :
  (snd (requireRole cfg requiredRoles stamp tsend ctx) = Next
   <-> exists u role, user (req ctx) = Some u
                      /\ In role (roleList requiredRoles) /\ In role (roles u))
  /\ (snd (requireRole cfg requiredRoles stamp tsend ctx) = Next
      \/ snd (requireRole cfg requiredRoles stamp tsend ctx) = Ended
         /\ statusCode (res (fst (requireRole cfg requiredRoles stamp tsend ctx)))
            = match user (req ctx) with Some _ => 403 | None => 401 end)
  /\ (snd (requireRole cfg requiredRoles stamp tsend ctx) = Next ->
      fst (requireRole cfg requiredRoles stamp tsend ctx) = ctx).
Proof.
  unfold requireRole. destruct (user (req ctx)) as [u|] eqn:Hu.
  - destruct (hasRole (roleList requiredRoles) u) eqn:Hr; cbn [negb fst snd].
    + split; [|split; [by left | done]]. split; [|done]. intros _.
      apply hasRole_In in Hr as (role & H1 & H2). by exists u, role.
    + split; [|split; [by right | done]]. split; [done|].
      intros (u' & role & [= <-] & H1 & H2).
      assert (hasRole (roleList requiredRoles) u = true)
        by (apply hasRole_In; by exists role).
      congruence.
  - cbn [fst snd]. split; [|split; [by right | done]]. split; [done|].
    by intros (u' & role & ? & _).
Qed.

(** An empty list of required roles admits nobody: [requireRole([])]
    answers every request, identified or not. *)
Theorem requireRole_empty_list_rejects cfg stamp tsend ctx :
  snd (requireRole cfg (ManyRoles []) stamp tsend ctx) = Ended
  /\ 401 <= statusCode (res (fst (requireRole cfg (ManyRoles []) stamp tsend ctx))) <= 403.
Proof. unfold requireRole. destruct (user (req ctx)); cbn; split; (done || lia). Qed.

(** [jwtAuth] followed by [requireRole]: the request passes both exactly
    when it authenticates with a token whose [roles] claim names one of
    the required roles; a token without [roles] claim never passes. *)
Theorem jwtAuth_then_requireRole cfg verify requiredRoles stamp tsend ctx :
  snd (andThen (jwtAuth cfg verify stamp tsend)
               (requireRole cfg requiredRoles stamp tsend) ctx) = Next
  <-> exists decoded uid tid granted role,
        authenticates verify (authorization (req ctx)) decoded uid tid
        /\ p_roles decoded = Some granted
        /\ In role (roleList requiredRoles) /\ In role granted.
Proof.
  unfold andThen.
  destruct (jwtAuth cfg verify stamp tsend ctx) as [ctx' f] eqn:E.
  assert (Hf : snd (jwtAuth cfg verify stamp tsend ctx) = f) by (by rewrite E).
  assert (Hc : fst (jwtAuth cfg verify stamp tsend ctx) = ctx') by (by rewrite E).
  split.
  - destruct f; try done. intros Hn.
    apply jwtAuth_next in Hf as (d & uid & tid & Ha & Hfst).
    rewrite Hc in Hfst. subst ctx'.
    unfold requireRole in Hn. cbn [set_user set_req req user] in Hn.
    destruct (hasRole _ _) eqn:Hr; [|done].
    apply hasRole_In in Hr as (role & H1 & H2). cbn in H2.
    destruct (p_roles d) as [granted|] eqn:Hg; [|done].
    by exists d, uid, tid, granted, role.
  - intros (d & uid & tid & granted & role & Ha & Hg & H1 & H2).
    pose proof (jwtAuth_authenticates cfg verify stamp tsend ctx d uid tid Ha) as E'.
    rewrite E in E'. injection E' as -> ->.
    unfold requireRole. cbn [set_user set_req req user].
    assert (hasRole (roleList requiredRoles) (identityOf d uid tid) = true) as ->; [|done].
    apply hasRole_In. exists role. split; [done|]. cbn. by rewrite Hg.
Qed.

(** ** Request identifiers *)

(** [requestValidator] is idempotent: run again, at any later time and
    with any other random suffix, it keeps the identifier it assigned
    and changes nothing. *)
Theorem requestValidator_idempotent now rnd now' rnd' ctx :
  requestValidator now' rnd' (fst (requestValidator now rnd ctx))
  = requestValidator now rnd ctx.
Proof.
  unfold requestValidator. cbn [fst].
  assert (E : requestIdOf now' rnd'
                (req (res_set_request_id (requestIdOf now rnd (req ctx))
                        (set_x_request_id (requestIdOf now rnd (req ctx)) ctx)))
              = requestIdOf now rnd (req ctx)).
  { unfold requestIdOf at 1. cbn [res_set_request_id set_x_request_id set_res set_req req
                                    x_request_id].
    by rewrite requestIdOf_truthy. }
  rewrite E. by destruct ctx as [[] [] ?].
Qed.

(** ** The stack as a whole *)

Lemma stack_app hs1 hs2 ctx :
  stack (hs1 ++ hs2) ctx = andThen (stack hs1) (stack hs2) ctx.
Proof.
  revert ctx. induction hs1 as [|h hs1 IH]; intros ctx; cbn [app stack].
  - done.
  - unfold andThen in *. destruct (h ctx) as [ctx1 []]; try done.
Qed.

Lemma answers_with_andThen codes h1 h2 :
  answers_with codes h1 -> answers_with codes h2 -> answers_with codes (andThen h1 h2).
Proof.
  intros A1 A2 ctx H. unfold andThen. specialize (A1 ctx H).
  destruct (h1 ctx) as [ctx1 []]; cbn [fst snd] in *; try done.
  by apply A2.
Qed.

Lemma answers_with_stack codes hs :
  Forall (answers_with codes) hs -> answers_with codes (stack hs).
Proof.
  induction 1 as [|h hs Hh _ IH]; cbn [stack].
  - by intros ctx H.
  - by apply answers_with_andThen.
Qed.

Lemma answers_with_use codes mount h :
  answers_with codes h -> answers_with codes (use mount h).
Proof.
  intros A ctx H. unfold use.
  destruct (mount_strip mount (url (req ctx))) as [u|]; [|done].
  specialize (A (set_url u ctx) H).
  by destruct (h (set_url u ctx)) as [ctx1 []].
Qed.

Lemma answers_with_circuitBreaker cfg now stamp tsend :
  answers_with answerCodes (circuitBreaker cfg now stamp tsend).
Proof.
  intros ctx H. unfold circuitBreaker.
  destruct (getServiceFromPath (path (req ctx))) as [s|]; [|done].
  destruct (getOrCreateCircuit s (circuits ctx)) as [cs c].
  destruct (state c); try done.
  destruct (_ <? _); cbn; first [done | tauto].
Qed.

Lemma answers_with_jwtAuth cfg verify stamp tsend :
  answers_with answerCodes (jwtAuth cfg verify stamp tsend).
Proof.
  intros ctx H. unfold jwtAuth. repeat case_match; cbn; first [done | tauto].
Qed.

Lemma answers_with_optionalAuth cfg verify stamp tsend :
  answers_with answerCodes (optionalAuth cfg verify stamp tsend).
Proof.
  intros ctx H. destruct (Js.truthy (authorization (req ctx))) eqn:E.
  - rewrite optionalAuth_with_header by done. by apply answers_with_jwtAuth.
  - by rewrite optionalAuth_without_header.
Qed.

Lemma answers_with_proxy env tgt : answers_with answerCodes (proxy env tgt).
Proof. by intros ctx H. Qed.

Lemma answers_with_healthRoutes env : answers_with answerCodes (healthRoutes env).
Proof. intros ctx H. unfold healthRoutes. destruct (_ && _); cbn; rewrite ?H; first [done | tauto]. Qed.

Lemma answers_with_apiInfo env : answers_with answerCodes (apiInfo env).
Proof. intros ctx H. unfold apiInfo. destruct (_ && _); cbn; rewrite ?H; first [done | tauto]. Qed.

Lemma answers_with_notFound env : answers_with answerCodes (notFound env).
Proof. intros ctx H. cbn. tauto. Qed.

#[local] Hint Resolve answers_with_use answers_with_andThen
  answers_with_circuitBreaker answers_with_jwtAuth
  answers_with_optionalAuth answers_with_proxy answers_with_healthRoutes
  answers_with_apiInfo answers_with_notFound : layers.

Lemma answers_with_routes env :
  answers_with answerCodes (stack (breakerLayer env :: afterBreaker env)).
Proof.
  apply answers_with_stack.
  unfold breakerLayer, afterBreaker, initializeRoutes, initializeErrorHandling,
    setupServiceProxy. cbn [app].
  auto 20 with layers nocore.
Qed.



(** ** What gets forwarded *)

Lemma guards_andThen Inv Q h1 h2 :
  guards Inv Q h1 -> guards Inv Q h2 -> guards Inv Q (andThen h1 h2).
Proof.
  intros G1 G2 ctx H. unfold andThen. specialize (G1 ctx H).
  destruct (h1 ctx) as [ctx1 []]; cbn [fst snd] in *; try done.
  by apply G2.
Qed.

Lemma guards_stack Inv Q hs : Forall (guards Inv Q) hs -> guards Inv Q (stack hs).
Proof.
  induction 1 as [|h hs Hh _ IH]; cbn [stack].
  - by intros ctx H.
  - by apply guards_andThen.
Qed.

Lemma optionalAuth_flow cfg verify stamp tsend ctx :
  snd (optionalAuth cfg verify stamp tsend ctx) = Next
  \/ snd (optionalAuth cfg verify stamp tsend ctx) = Ended.
Proof.
  destruct (Js.truthy (authorization (req ctx))) eqn:E.
  - rewrite optionalAuth_with_header by done. apply jwtAuth_flow.
  - rewrite optionalAuth_without_header by done. by left.
Qed.

Section Forwarding.

Context (env : Env) (i : Inbound).

Lemma guards_rateLimiter :
  guards (as_received i) (forwarded_properly env i) (rateLimiter env).
Proof. intros ctx H. unfold rateLimiter. by destruct (rateLimited env). Qed.

Lemma guards_requestValidator now rnd :
  guards (as_received i) (forwarded_properly env i) (requestValidator now rnd).
Proof. by intros ctx H. Qed.

Lemma guards_breaker cfg now stamp tsend :
  guards (as_received i) (forwarded_properly env i)
         (use "/v1" (circuitBreaker cfg now stamp tsend)).
Proof.
  intros ctx H. unfold use.
  destruct (mount_strip "/v1" (url (req ctx))) as [u|]; [|done].
  unfold circuitBreaker.
  destruct (getServiceFromPath (path (req (set_url u ctx)))) as [s|]; [|done].
  destruct (getOrCreateCircuit s (circuits (set_url u ctx))) as [cs c].
  destruct (state c); try done.
  by destruct (_ <? _).
Qed.

Lemma guards_health :
  guards (as_received i) (forwarded_properly env i) (use "/health" (healthRoutes env)).
Proof.
  intros ctx H. unfold use.
  destruct (mount_strip "/health" (url (req ctx))) as [u|]; [|done].
  unfold healthRoutes. by destruct (_ && _).
Qed.

Lemma guards_apiInfo : guards (as_received i) (forwarded_properly env i) (apiInfo env).
Proof. intros ctx H. unfold apiInfo. by destruct (_ && _). Qed.

Lemma guards_notFound : guards (as_received i) (forwarded_properly env i) (notFound env).
Proof. by intros ctx H. Qed.

(** A service proxy behind [optionalAuth]. *)
Lemma guards_optional m tgt :
  In (m, tgt) (routeTable env) -> ~ In m mandatoryMounts ->
  guards (as_received i) (forwarded_properly env i)
         (setupServiceProxy env m tgt
            (optionalAuth (breakerConfig env) (verifyToken env) (isoStamp env)
                          (nowSend env))).
Proof.
  intros Hin Hopt ctx (Hu & Ha & Hn). unfold setupServiceProxy, use.
  destruct (mount_strip m (url (req ctx))) as [u|] eqn:Hm; [|done].
  unfold andThen.
  destruct (optionalAuth_flow (breakerConfig env) (verifyToken env) (isoStamp env)
              (nowSend env) (set_url u ctx)) as [E|E];
    destruct (optionalAuth _ _ _ _ (set_url u ctx)) as [ctx1 f]; cbn [snd] in E; subst f;
    [|by cbn].
  cbn. exists m. split; [done|]. split; [by rewrite <- Hu, Hm | done].
Qed.

(** A service proxy behind [jwtAuth]. *)
Lemma guards_mandatory m tgt :
  In (m, tgt) (routeTable env) ->
  guards (as_received i) (forwarded_properly env i)
         (setupServiceProxy env m tgt
            (jwtAuth (breakerConfig env) (verifyToken env) (isoStamp env) (nowSend env))).
Proof.
  intros Hin ctx (Hu & Ha & Hn). unfold setupServiceProxy, use.
  destruct (mount_strip m (url (req ctx))) as [u|] eqn:Hm; [|done].
  unfold andThen.
  destruct (jwtAuth_flow (breakerConfig env) (verifyToken env) (isoStamp env)
              (nowSend env) (set_url u ctx)) as [F|F];
    destruct (jwtAuth _ _ _ _ (set_url u ctx)) as [ctx1 f] eqn:E; cbn [snd] in F; subst f;
    [|by cbn].
  assert (Hf : snd (jwtAuth (breakerConfig env) (verifyToken env) (isoStamp env)
                      (nowSend env) (set_url u ctx)) = Next) by (by rewrite E).
  apply jwtAuth_next in Hf as (d & uid & tid & Hauth & Hfst).
  rewrite E in Hfst. cbn [fst] in Hfst. subst ctx1. cbn.
  exists m. split; [done|]. split; [by rewrite <- Hu, Hm|]. intros _.
  destruct Hauth as (h & token & Hh & Ht & Hv & Hs & Hne & Hten & Hnt).
  cbn in Hh. rewrite Ha in Hh.
  by exists h, token, d, uid, tid.
Qed.

Lemma guards_layers :
  guards (as_received i) (forwarded_properly env i) (stack (layers env)).
Proof.
  apply guards_stack.
  unfold layers, initializeMiddleware, initializeRoutes, initializeErrorHandling.
  cbn [app].
  repeat first
    [ apply Forall_nil_2
    | apply Forall_cons_2
    | apply guards_rateLimiter | apply guards_requestValidator | apply guards_breaker
    | apply guards_health | apply guards_apiInfo | apply guards_notFound
    | apply guards_mandatory; cbn; tauto
    | apply guards_optional; [cbn; tauto | cbn; intuition discriminate] ].
Qed.

End Forwarding.

(** Whatever the gateway forwards, it forwards to the target of the
    route the request path lies under; and on a route behind [jwtAuth] only
    with a header whose token [jwt.verify] accepted, the outbound request
    carrying the token's subject and tenant as [X-User-ID] and
    [X-Tenant-ID]. *)
Theorem forwarded_requests_are_routed env i cs p :
  snd (handle env i cs) = Forwarded p -> forwarded_properly env i p.
Proof.
  intros H. pose proof (guards_layers env i (inbound i cs)) as G.
  fold (handle env i cs) in G. rewrite H in G. by apply G.
Qed.

Lemma forwarded_requests_are_routed_witness :
  forwarded_properly (sampleEnv false 1000)
    (get "/v1/identities/42" (Some "Bearer good.jwt") None)
    {| target := "http://identity-service:3001";
       proxy_x_request_id := "req_2000000_k3x9q2m1z";
       proxy_x_user_id := Some "user-1";
       proxy_x_tenant_id := Some "tenant-1" |}.
Proof.
  apply (forwarded_requests_are_routed (sampleEnv false 1000)
           (get "/v1/identities/42" (Some "Bearer good.jwt") None) ∅).
  vm_compute. reflexivity.
Defined.

Lemma routeTable_proxied env m tgt : In (m, tgt) (routeTable env) -> In m proxiedMounts.
Proof. cbn. intros H. repeat destruct H as [[= <- _]|H]; tauto. Qed.

(** The breaker does not see what happens downstream: a forwarded request
    carries no wrapper around [res.send] and has left the registry as it
    was, and when the proxy then fails to reach the service, the 503 that
    [onError] sends is recorded for no service. *)
Theorem transport_failure_is_not_recorded env i cs p :
  snd (handle env i cs) = Forwarded p ->
  sendHooks (res (fst (handle env i cs))) = []
  /\ circuits (fst (handle env i cs)) = cs
  /\ statusCode (res (onError env (fst (handle env i cs)))) = 503
  /\ circuits (onError env (fst (handle env i cs))) = cs.
Proof.
  intros H.
  assert (Hhooks : sendHooks (res (fst (handle env i cs))) = []
                   /\ circuits (fst (handle env i cs)) = cs).
  { destruct (handle_registry env i cs) as [Hr|(u & s & _ & Hu & Hs & _)]; [done|].
    exfalso.
    pose proof (guards_layers env i (inbound i cs)) as G.
    fold (handle env i cs) in G. rewrite H in G.
    destruct G as (m & Hin & Hm & _); [done|].
    destruct (proxied_path_names_no_service m (in_path i)) as (u' & Hu' & Hn);
      [by eapply routeTable_proxied | done |].
    congruence. }
  destruct Hhooks as [Hh Hc]. split; [done|]. split; [done|]. split; [done|].
  unfold onError, reject, res_json. rewrite res_send_no_hooks; [done|]. exact Hh.
Qed.

Lemma transport_failure_is_not_recorded_witness :
  circuits (onError (sampleEnv false 1000)
              (fst (handle (sampleEnv false 1000)
                      (get "/v1/identities/42" (Some "Bearer good.jwt") None)
                      identitiesRegistry)))
  = identitiesRegistry.
Proof.
  eapply (transport_failure_is_not_recorded (sampleEnv false 1000)
            (get "/v1/identities/42" (Some "Bearer good.jwt") None) identitiesRegistry).
  vm_compute. reflexivity.
Defined.

(** The mount points of [initializeRoutes] never compete: a request path
    lies under at most one of them, so the order in which the routes are
    registered decides nothing. *)
Theorem routes_are_exclusive m m' p :
  In m routePrefixes -> In m' routePrefixes -> m <> m' ->
  mount_strip m p <> None -> mount_strip m' p = None.
Proof.
  intros Hin Hin' Hne Hm.
  cbn in Hin, Hin'.
  repeat destruct Hin as [<-|Hin]; try done;
    repeat destruct Hin' as [<-|Hin']; try done;
    apply (mount_exclusive _ _ _ Hm); reflexivity.
Qed.

Lemma routes_are_exclusive_witness :
  mount_strip "/v1/identities" "/v1/auth/login" = None.
Proof.
  apply (routes_are_exclusive "/v1/auth" "/v1/identities" "/v1/auth/login").
  - cbn. tauto.
  - cbn. tauto.
  - discriminate.
  - vm_compute. discriminate.
Defined.

(** Behind the circuit breaker, a request to a route behind [jwtAuth]
    that authenticates reaches the proxy of that route with its identity
    attached. *)
Lemma afterBreaker_authenticated env ctx m tgt u d uid tid :
  In (m, tgt) (routeTable env) ->
  In m mandatoryMounts ->
  mount_strip m (url (req ctx)) = Some u ->
  authenticates (verifyToken env) (authorization (req ctx)) d uid tid ->
  stack (afterBreaker env) ctx
  = proxy env tgt (set_user (identityOf d uid tid) (set_url u ctx)).
Proof.
  intros Hin Hmand E Hauth.
  assert (forall m', String.prefix (Js.lower m) (Js.lower m') = false ->
                     String.prefix (Js.lower m') (Js.lower m) = false ->
                     mount_strip m' (url (req ctx)) = None) as Hex.
  { intros m'. apply mount_exclusive. by rewrite E. }
  pose proof (jwtAuth_authenticates (breakerConfig env) (verifyToken env) (isoStamp env)
                (nowSend env) (set_url u ctx) d uid tid Hauth) as Hj.
  unfold afterBreaker, initializeRoutes, initializeErrorHandling, setupServiceProxy.
  cbn [app stack].
  cbn in Hin.
  destruct Hin as [[= <- <-]|[[= <- <-]|[[= <- <-]|[[= <- <-]|[[= <- <-]|[]]]]]];
    [exfalso; cbn in Hmand; intuition discriminate|..];
    repeat (unfold andThen at 1;
            first [ rewrite use_skip by (apply Hex; reflexivity)
                  | unfold use at 1; rewrite E; unfold andThen at 1; rewrite Hj ]);
    reflexivity.
Qed.

(** A request with a good token gets through: when the rate limiter lets
    it pass, a request whose path lies under a route behind [jwtAuth] and
    whose header authenticates is forwarded to that route's target, with
    the identifier the validator assigned and the token's subject and
    tenant, whatever the state of the registry. *)
Theorem authenticated_request_is_forwarded env i cs m tgt d uid tid :
  rateLimited env = false ->
  In (m, tgt) (routeTable env) ->
  In m mandatoryMounts ->
  mount_strip m (in_path i) <> None ->
  authenticates (verifyToken env) (in_authorization i) d uid tid ->
  snd (handle env i cs)
  = Forwarded {| target := tgt;
                 proxy_x_request_id := assignedId env i;
                 proxy_x_user_id := Some uid;
                 proxy_x_tenant_id := Some tid |}.
Proof.
  intros Hrl Hin Hmand Hm Hauth.
  rewrite handle_passes_limiter by done. cbn [stack]. unfold andThen at 1.
  destruct (proxied_path_names_no_service m (in_path i)) as (u0 & Hu0 & Hn0);
    [by eapply routeTable_proxied | done |].
  rewrite (breakerLayer_no_service env (validated env i cs) u0) by done.
  destruct (mount_strip m (in_path i)) as [u|] eqn:E; [clear Hm|done].
  rewrite (afterBreaker_authenticated env (validated env i cs) m tgt u d uid tid)
    by done.
  unfold proxy, onProxyReq. cbn [snd]. f_equal. f_equal.
  unfold requestIdOf at 1.
  cbn [set_user set_url set_req req x_request_id validated requestValidator fst
       set_x_request_id res_set_request_id set_res].
  by rewrite requestIdOf_truthy.
Qed.

Lemma authenticated_request_is_forwarded_witness :
  snd (handle (sampleEnv false 1000)
         (get "/v1/identities/42" (Some "Service good.jwt") (Some "abc-123")) openRegistry)
  = Forwarded {| target := "http://identity-service:3001";
                 proxy_x_request_id := "abc-123";
                 proxy_x_user_id := Some "user-1";
                 proxy_x_tenant_id := Some "tenant-1" |}.
Proof.
  apply (authenticated_request_is_forwarded (sampleEnv false 1000)
           (get "/v1/identities/42" (Some "Service good.jwt") (Some "abc-123"))
           openRegistry "/v1/identities" "http://identity-service:3001"
           samplePayload "user-1" "tenant-1").
  - reflexivity.
  - cbn. tauto.
  - cbn. tauto.
  - vm_compute. discriminate.
  - exists "Service good.jwt", "good.jwt". vm_compute. repeat split; congruence.
Defined.

(** ** Configuration *)

Lemma envOr_truthy env key fallback :
  fallback <> "" -> Config.envOr env key fallback <> "".
Proof.
  intros H. unfold Config.envOr. destruct (env !! key) as [v|]; [|done].
  cbn. by destruct (String.eqb_spec v "").
Qed.

Lemma envOr_cases env key fallback :
  (exists v, env !! key = Some v /\ v <> "" /\ Config.envOr env key fallback = v)
  \/ ((env !! key = None \/ env !! key = Some "")
      /\ Config.envOr env key fallback = fallback).
Proof.
  unfold Config.envOr. destruct (env !! key) as [v|]; [|by right; split; [left|]].
  cbn. destruct (String.eqb_spec v "") as [->|Hne]; cbn.
  - right. split; [by right | done].
  - left. by exists v.
Qed.

(** The [errors] array is empty exactly for a secret of 32 characters or
    more, and then so is the [warnings] array. *)
Lemma secretProblems_errors {Num : Type} (config : Config.Config (Num := Num)) :
  (fst (Config.secretProblems config) = []
   <-> (32 <= String.length (Config.secret (Config.jwt config)))%nat)
  /\ ((32 <= String.length (Config.secret (Config.jwt config)))%nat ->
      snd (Config.secretProblems config) = []).
Proof.
  unfold Config.secretProblems.
  destruct (Nat.ltb_spec (String.length (Config.secret (Config.jwt config))) 32)
    as [Hlt|Hge].
  - split; [|lia]. split; [|lia].
    destruct (_ || _); [destruct (String.eqb _ "production")|]; cbn; discriminate.
  - assert (negb (Js.truthy (Some (Config.secret (Config.jwt config))))
            || String.eqb (Config.secret (Config.jwt config)) "super-secret-jwt-key"
            = false) as ->; [|done].
    apply orb_false_iff. split.
    + cbn. destruct (String.eqb_spec (Config.secret (Config.jwt config)) "") as [E|]; [|done].
      rewrite E in Hge. cbn in Hge. lia.
    + apply String.eqb_neq. intros E. rewrite E in Hge. cbn in Hge. lia.
Qed.

(** [validateConfig] accepts a configuration exactly when its JWT secret has
    at least 32 characters, and then it logs no warning: the check for the
    default secret never decides the outcome, because the default is
    shorter than that. *)
Theorem validateConfig_accepts_iff {Num : Type} (config : Config.Config (Num := Num)) :
  (Config.thrown (Config.validateConfig config) = None
   <-> (32 <= String.length (Config.secret (Config.jwt config)))%nat)
  /\ (Config.thrown (Config.validateConfig config) = None ->
      Config.warnings (Config.validateConfig config) = []).
Proof.
  destruct (secretProblems_errors config) as [Hiff Hw].
  unfold Config.validateConfig.
  destruct (Config.secretProblems config) as [errors warnings]; cbn [fst snd] in *.
  cbn [Config.thrown Config.warnings].
  assert (E : (if (0 <? length errors)%nat
               then Some ("Configuration errors:\n" +:+ array_join "\n" errors)
               else None) = None <-> errors = []).
  { destruct errors; cbn; split; done. }
  split.
  - by rewrite E.
  - intros H. apply Hw, Hiff, E, H.
Qed.

(** [loadConfig] returns a configuration exactly when the environment
    sets [JWT_SECRET] to a value of at least 32 characters; without it the
    default secret is rejected, in development as in production. *)
Theorem loadConfig_needs_secret {Num : Type} (parseInt : string -> Num)
    (env : gmap string string) :
  (exists config, Config.loadConfig parseInt env = Some config)
  <-> exists v, env !! "JWT_SECRET" = Some v /\ (32 <= String.length v)%nat.
Proof.
  destruct (secretProblems_errors (Config.readConfig parseInt env)) as [Hiff _].
  cbn [Config.readConfig Config.jwt Config.secret] in Hiff.
  assert (Hload : (exists config, Config.loadConfig parseInt env = Some config)
                  <-> fst (Config.secretProblems (Config.readConfig parseInt env)) = []).
  { unfold Config.loadConfig, Config.validateConfig.
    destruct (Config.secretProblems (Config.readConfig parseInt env)) as [errors warnings].
    cbn [Config.thrown fst].
    destruct errors; cbn; split; try done.
    - by eexists.
    - by intros (? & ?). }
  rewrite Hload, Hiff.
  destruct (envOr_cases env "JWT_SECRET" "super-secret-jwt-key")
    as [(v & Hv & Hne & ->)|[Hnone ->]].
  - split; [by exists v|]. by intros (v' & [= <-]%(eq_trans (eq_sym Hv)) & H).
  - split; [cbn; lia|]. intros (v & Hv & H).
    destruct Hnone as [Hn|Hn]; rewrite Hn in Hv; [done|]. injection Hv as <-.
    cbn in H. lia.
Qed.

Lemma string_split_nonempty sep s : Config.string_split sep s <> [].
Proof.
  destruct s as [|c r]; cbn; [done|].
  destruct (Ascii.eqb c sep); [done|]. by destruct (Config.string_split sep r).
Qed.

Lemma array_join_cons sep x y l :
  array_join sep (x :: y :: l) = x +:+ sep +:+ array_join sep (y :: l).
Proof. done. Qed.

Lemma join_split sep s :
  array_join (String sep EmptyString) (Config.string_split sep s) = s.
Proof.
  induction s as [|c r IH]; [done|]. cbn [Config.string_split].
  destruct (Ascii.eqb_spec c sep) as [->|Hne].
  - pose proof (string_split_nonempty sep r) as Hn.
    destruct (Config.string_split sep r) as [|y l]; [done|].
    rewrite array_join_cons, IH. done.
  - pose proof (string_split_nonempty sep r) as Hn.
    destruct (Config.string_split sep r) as [|y l]; [done|].
    destruct l as [|z l].
    + cbn in *. by rewrite IH.
    + rewrite array_join_cons. rewrite array_join_cons in IH. by rewrite <- IH.
Qed.

(** The allowed origins are the comma-separated pieces of [CORS_ORIGINS]
    as they stand, nothing trimmed and nothing dropped: the list is never
    empty, and joined with commas it gives back the variable's value, or
    the default origin when the variable is unset or empty. *)
Theorem allowedOrigins_spec {Num : Type} (parseInt : string -> Num)
    (env : gmap string string) :
  Config.allowedOrigins (Config.readConfig parseInt env) <> []
  /\ array_join "," (Config.allowedOrigins (Config.readConfig parseInt env))
     = Config.envOr env "CORS_ORIGINS" "http://localhost:3000".
Proof.
  cbn [Config.readConfig Config.allowedOrigins]. unfold Config.envOr.
  destruct (env !! "CORS_ORIGINS") as [v|]; [|done].
  destruct (Js.truthy (Some v)); [|done].
  cbn [default from_option Datatypes.id]. split.
  - apply string_split_nonempty.
  - apply (join_split ","%char).
Qed.

(** ** The static file server *)



(** ** The phases of a circuit *)

(** The phase of a circuit changes in three ways only: an admission check
    for its service moves it from OPEN to HALF_OPEN once the reset timeout
    has passed; a response below 500 moves it from HALF_OPEN to CLOSED; a
    response of 500 or more that brings ten times the failure count to the
    threshold moves it to OPEN. In particular CLOSED is entered from
    HALF_OPEN only, and events of other services change nothing. *)
Theorem phase_changes cfg ev sys sys' s :
  step cfg ev sys = Some sys' ->
  state (circuitOf s (registry sys')) <> state (circuitOf s (registry sys)) ->
  (exists p now stamp,
     ev = Admission p now stamp
     /\ getServiceFromPath p = Some s
     /\ state (circuitOf s (registry sys)) = OPEN
     /\ state (circuitOf s (registry sys')) = HALF_OPEN
     /\ resetTimeoutMs cfg <= now - lastFailureTime (circuitOf s (registry sys)))
  \/ (exists status now,
        ev = Sent s status now
        /\ status < 500
        /\ state (circuitOf s (registry sys)) = HALF_OPEN
        /\ state (circuitOf s (registry sys')) = CLOSED)
  \/ (exists status now,
        ev = Sent s status now
        /\ 500 <= status
        /\ state (circuitOf s (registry sys')) = OPEN
        /\ errorThresholdPercentage cfg <= 10 * (failures (circuitOf s (registry sys)) + 1)).
Proof.
  intros Hstep Hne.
  destruct ev as [p now stamp|s0 status now]; cbn [step] in Hstep.
  - destruct (clock sys <=? now); [|done]. simplify_eq. cbn [registry] in *.
    left. exists p, now, stamp.
    pose proof (circuitBreaker_circuitOf cfg now stamp now (arriving p (registry sys)) s
                  eq_refl) as E.
    cbn [arriving req path url circuits] in E. rewrite E in Hne |- *. clear E.
    case_bool_decide as Hs; cbn [andb] in *; [|done].
    case_bool_decide as Ho; cbn [andb] in *; [|done].
    destruct (Z.leb_spec (resetTimeoutMs cfg)
                (now - lastFailureTime (circuitOf s (registry sys)))) as [Hge|]; [|done].
    repeat split; try done; by destruct (circuitOf s (registry sys)).
  - destruct (clock sys <=? now); [|done].
    destruct (existsb _ _); [|done]. cbn in Hstep. simplify_eq. cbn [registry] in *.
    right. destruct (Z.leb_spec 500 status) as [Hs|Hs].
    + right. exists status, now.
      destruct (decide (s0 = s)) as [->|Hd].
      2: { by rewrite circuitOf_recordFailure_ne in Hne. }
      rewrite circuitOf_recordFailure, failed_state, Qle_bool_trip in Hne |- *.
      destruct (Z.leb_spec (errorThresholdPercentage cfg)
                  (10 * (failures (circuitOf s (registry sys)) + 1))); done.
    + left. exists status, now.
      destruct (decide (s0 = s)) as [->|Hd].
      2: { by rewrite circuitOf_recordSuccess_ne in Hne. }
      rewrite circuitOf_recordSuccess in Hne |- *. unfold succeeded in *.
      destruct (state (circuitOf s (registry sys))) eqn:Est; cbn in *;
        rewrite ?Est in *; done.
Qed.

Lemma phase_changes_witness :
  exists sys',
    step defaultBreakerConfig (Sent "identities" 200 60020) decayedSys = Some sys'
    /\ state (circuitOf "identities" (registry sys')) = CLOSED.
Proof.
  destruct (step defaultBreakerConfig (Sent "identities" 200 60020) decayedSys)
    as [sys'|] eqn:E; [|vm_compute in E; discriminate].
  exists sys'. split; [reflexivity|].
  destruct (phase_changes defaultBreakerConfig (Sent "identities" 200 60020) decayedSys
              sys' "identities" E)
    as [(p & now & stamp & H & _)|[(status & now & _ & _ & _ & H)
                                  |(status & now & H & Hs & _)]].
  - vm_compute in E. injection E as <-. vm_compute. discriminate.
  - discriminate.
  - exact H.
  - injection H as <- <-. lia.
Defined.

(** An admission check touches neither count nor time: whatever it
    decides, every circuit keeps its failure count and its
    [lastFailureTime], so a rejected request does not postpone the probe. *)
Theorem admission_keeps_counts cfg now stamp tsend p cs s :
  failures (circuitOf s (circuits (fst (circuitBreaker cfg now stamp tsend (arriving p cs)))))
  = failures (circuitOf s cs)
  /\ lastFailureTime
       (circuitOf s (circuits (fst (circuitBreaker cfg now stamp tsend (arriving p cs)))))
     = lastFailureTime (circuitOf s cs).
Proof.
  rewrite (circuitBreaker_circuitOf cfg now stamp tsend (arriving p cs) s eq_refl).
  cbn [arriving circuits]. case_match; [|done]. by destruct (circuitOf s cs).
Qed.

(** ** The route behind [optionalAuth] *)

(** A request without credentials reaches the authentication service:
    when the rate limiter lets it pass, a request under [/v1/auth] with no
    [Authorization] header, or an empty one, is forwarded to the auth
    service with the identifier the validator assigned and without
    [X-User-ID] and [X-Tenant-ID]. *)
Theorem anonymous_auth_request_is_forwarded env i cs :
  rateLimited env = false ->
  mount_strip "/v1/auth" (in_path i) <> None ->
  Js.truthy (in_authorization i) = false ->
  snd (handle env i cs)
  = Forwarded {| target := auth (services env);
                 proxy_x_request_id := assignedId env i;
                 proxy_x_user_id := None;
                 proxy_x_tenant_id := None |}.
Proof.
  intros Hrl Hm Hauth.
  rewrite handle_passes_limiter by done. cbn [stack]. unfold andThen at 1.
  destruct (proxied_path_names_no_service "/v1/auth" (in_path i)) as (u0 & Hu0 & Hn0);
    [cbn; tauto | done |].
  rewrite (breakerLayer_no_service env (validated env i cs) u0) by done.
  destruct (mount_strip "/v1/auth" (in_path i)) as [u|] eqn:E; [|done].
  unfold afterBreaker, initializeRoutes, initializeErrorHandling, setupServiceProxy.
  cbn [app stack].
  assert (Hurl : url (req (validated env i cs)) = in_path i) by done.
  unfold andThen at 1.
  rewrite use_skip
    by (apply (mount_exclusive "/v1/auth"); [by rewrite Hurl, E|done|done]).
  unfold andThen at 1. unfold use at 1.
  rewrite Hurl, E. unfold andThen at 1.
  rewrite optionalAuth_without_header by done.
  unfold proxy, onProxyReq. cbn [snd]. f_equal. f_equal.
  unfold requestIdOf at 1.
  cbn [set_user set_url set_req req x_request_id validated requestValidator fst
       set_x_request_id res_set_request_id set_res].
  by rewrite requestIdOf_truthy.
Qed.

Lemma anonymous_auth_request_is_forwarded_witness :
  snd (handle (sampleEnv false 1000) (get "/v1/auth/login" None None) openRegistry)
  = Forwarded {| target := "http://auth-service:3002";
                 proxy_x_request_id := "req_2000000_k3x9q2m1z";
                 proxy_x_user_id := None;
                 proxy_x_tenant_id := None |}.
Proof.
  apply (anonymous_auth_request_is_forwarded (sampleEnv false 1000)
           (get "/v1/auth/login" None None) openRegistry).
  - reflexivity.
  - vm_compute. discriminate.
  - reflexivity.
Defined.
